(** * Machine Diagnostics API: the audio diagnostic inference pipeline

    A shallow embedding of the Python backend:

    - [src/backend/audio/convert.py]      ([Convert.webm_to_wav])
    - [src/backend/audio/preprocess.py]   ([Preprocess.extract_features])
    - [src/backend/services/inference.py] ([Inference.run_inference])
    - [src/backend/utils/vibration.py]    ([Vibration.generate_vibration_data])
    - [src/backend/main.py]               ([Backend.analyze_audio])
    - [main.py]                           ([App.analyze_audio])
    - [model_handler.py]                  ([ModelHandler.predict])
    - [src/ml_model_example.py]           ([MlExample.generate_vibration_data])

    Python floats are idealised as exact rationals ([Q]): every comparison,
    clip, division, [int()] and [round()] of the modules named above is the
    exact one.  Where the rounding of an operation decides the outcome - at
    the confidence gate and in the health score - the code is embedded once
    more in [Machine], in binary floating-point arithmetic ([Ieee]): every
    operation is rounded to the nearest value of its format, ties to even,
    and [NaN] and the infinities are values.  The parts of the program that
    live in other libraries (ffmpeg, soundfile, librosa, OpenCV, the Keras
    model, pydub, [np.sin], the random generator) are the fields of a record
    of collaborators; the file system, the random generator's position and
    the wall clock are threaded through the code as an explicit [world]. *)

From Stdlib Require Import QArith Qround Qabs Qminmax Qpower ZArith Lia Lqa String Ascii List.
From stdpp Require Import gmap strings list fin_maps pretty.
Import ListNotations.

(** ** Python built-ins on numbers *)

Module Py.

(** [int(x)]: truncation toward zero. *)
Definition int (x : Q) : Z := Z.quot (Qnum x) (Z.pos (Qden x)).

(** Nearest integer, ties to the even neighbour. *)
Definition round_half_even (x : Q) : Z :=
  let f := Qfloor x in
  match (x - inject_Z f ?= 1 # 2)%Q with
  | Lt => f
  | Gt => (f + 1)%Z
  | Eq => if Z.even f then f else (f + 1)%Z
  end.

(** [round(x, ndigits)]. *)
Definition round (x : Q) (ndigits : nat) : Q :=
  let s := (10 ^ Z.of_nat ndigits)%Z in
  (inject_Z (round_half_even (x * inject_Z s)) / inject_Z s)%Q.

(** [s.replace(old, new)] for a non-empty [old]: the occurrences are replaced
    from left to right, without overlap.  [skip] counts the characters of a
    match that are still to be dropped. *)
Fixpoint replace_from (skip : nat) (old new s : string) : string :=
  match s with
  | EmptyString => EmptyString
  | String c s' =>
      match skip with
      | S k => replace_from k old new s'
      | O =>
          if String.prefix old s
          then String.append new (replace_from (String.length old - 1) old new s')
          else String c (replace_from 0 old new s')
      end
  end.

Definition replace (old new s : string) : string := replace_from 0 old new s.

End Py.

(** ** Binary floating-point numbers *)

Module Ieee.

(** A binary format of IEEE 754: the number of bits of the significand, the
    exponent of the smallest positive number, and the exponent of the first
    power of two that is too large. *)
Record format := { prec : Z; emin : Z; emax : Z }.

(** [numpy.float32] and Python's [float]. *)
Definition binary32 : format := {| prec := 24; emin := -149; emax := 128 |}.
Definition binary64 : format := {| prec := 53; emin := -1074; emax := 1024 |}.

Definition pow2 (k : Z) : Q := (2 ^ k)%Q.

(** The integer part of the binary logarithm of a positive number. *)
Definition ilog2 (x : Q) : Z :=
  let k := (Z.log2 (Qnum x) - Z.log2 (Z.pos (Qden x)))%Z in
  if Qle_bool (pow2 k) x then k else (k - 1)%Z.

(** The exponent of the last bit that the format keeps of [x]. *)
Definition quantum (fmt : format) (x : Q) : Z :=
  Z.max (ilog2 (Qabs x) - (prec fmt - 1)) (emin fmt).

(** The multiple of the quantum nearest to [x], ties to the even one. *)
Definition nearest (fmt : format) (x : Q) : Q :=
  if Qeq_bool x 0 then 0%Q
  else Qred (inject_Z (Py.round_half_even (x / pow2 (quantum fmt x)))
             * pow2 (quantum fmt x))%Q.

(** A floating-point value.  A zero carries no sign: [-0.0] is read as
    [0.0]. *)
Inductive float :=
| Num (x : Q)
| PosInf
| NegInf
| NaN.

(** Rounding to nearest, with overflow to an infinity. *)
Definition round (fmt : format) (x : Q) : float :=
  let r := nearest fmt x in
  if Qle_bool (pow2 (emax fmt)) r then PosInf
  else if Qle_bool r (- pow2 (emax fmt)) then NegInf
  else Num r.

Definition zero : float := Num 0.

Definition is_nan (a : float) : bool :=
  match a with NaN => true | _ => false end.

Definition neg (a : float) : float :=
  match a with
  | Num x => Num (- x)
  | PosInf => NegInf
  | NegInf => PosInf
  | NaN => NaN
  end.

(** The infinity with the sign of [x]; [NaN] for zero. *)
Definition infinity_of (x : Q) : float :=
  match (x ?= 0)%Q with
  | Gt => PosInf
  | Lt => NegInf
  | Eq => NaN
  end.

Definition add (fmt : format) (a b : float) : float :=
  match a, b with
  | NaN, _ | _, NaN => NaN
  | Num x, Num y => round fmt (x + y)
  | PosInf, NegInf | NegInf, PosInf => NaN
  | PosInf, _ | _, PosInf => PosInf
  | NegInf, _ | _, NegInf => NegInf
  end.

Definition sub (fmt : format) (a b : float) : float := add fmt a (neg b).

Definition mul (fmt : format) (a b : float) : float :=
  match a, b with
  | NaN, _ | _, NaN => NaN
  | Num x, Num y => round fmt (x * y)
  | Num x, PosInf | PosInf, Num x => infinity_of x
  | Num x, NegInf | NegInf, Num x => infinity_of (- x)
  | PosInf, PosInf | NegInf, NegInf => PosInf
  | PosInf, NegInf | NegInf, PosInf => NegInf
  end.

Definition div (fmt : format) (a b : float) : float :=
  match a, b with
  | NaN, _ | _, NaN => NaN
  | Num x, Num y => if Qeq_bool y 0 then infinity_of x else round fmt (x / y)
  | Num _, _ => Num 0
  | PosInf, Num y => match (y ?= 0)%Q with Lt => NegInf | _ => PosInf end
  | NegInf, Num y => match (y ?= 0)%Q with Lt => PosInf | _ => NegInf end
  | _, _ => NaN
  end.

(** [a <= b]; false when one of the two is [NaN]. *)
Definition le (a b : float) : bool :=
  match a, b with
  | NaN, _ | _, NaN => false
  | NegInf, _ | _, PosInf => true
  | Num x, Num y => Qle_bool x y
  | _, _ => false
  end.

Definition lt (a b : float) : bool := le a b && negb (le b a).

(** [np.maximum] and [np.minimum]: a [NaN] is handed on. *)
Definition maximum (a b : float) : float :=
  if is_nan a then a else if is_nan b then b else if le b a then a else b.

Definition minimum (a b : float) : float :=
  if is_nan a then a else if is_nan b then b else if le a b then a else b.

(** The values of a format: the numbers that rounding leaves as they are,
    the infinities and [NaN]. *)
Definition representable (fmt : format) (a : float) : Prop :=
  match a with
  | Num x => (nearest fmt x == x)%Q
  | _ => True
  end.

(** A [float] literal of the Python source. *)
Definition literal (x : Q) : float := round binary64 x.

(** The conversion of a value to another format. *)
Definition cast (fmt : format) (a : float) : float :=
  match a with
  | Num x => round fmt x
  | _ => a
  end.

(** What [int()] and arithmetic on [float] raise. *)
Inductive conversion_error :=
| NaNToInteger       (* ValueError: cannot convert float NaN to integer *)
| InfinityToInteger. (* OverflowError: cannot convert float infinity to integer *)

(** [int(a)]. *)
Definition to_int (a : float) : conversion_error + Z :=
  match a with
  | Num x => inr (Py.int x)
  | NaN => inl NaNToInteger
  | _ => inl InfinityToInteger
  end.

(** [round(a, ndigits)] on a Python [float]: the double nearest to the
    decimal rounding of the exact value. *)
Definition round_digits (a : float) (ndigits : nat) : float :=
  match a with
  | Num x => round binary64 (Py.round x ndigits)
  | _ => a
  end.

End Ieee.

(** ** The numpy operations the pipeline uses *)

Module Np.

(** An array is its shape and the entry at each multi-index.  The entries
    are numbers; an array that holds a [NaN] is met in [Machine]. *)
Record ndarray := { shape : list nat; item : list nat -> Q }.

Definition ndim (a : ndarray) : nat := length (shape a).

(** [len(a)]: the first dimension.  Python raises on a 0-d array;
    [run_inference] tests [ndim] first and never gets there. *)
Definition len (a : ndarray) : nat := hd 0 (shape a).

(** The index into the original array of an index into the squeezed one:
    a zero is put back at every axis of size one. *)
Fixpoint unsqueeze_index (shp idx : list nat) : list nat :=
  match shp with
  | [] => []
  | d :: shp' =>
      if Nat.eqb d 1 then 0 :: unsqueeze_index shp' idx
      else match idx with
           | [] => 0 :: unsqueeze_index shp' []
           | i :: idx' => i :: unsqueeze_index shp' idx'
           end
  end.

(** [np.squeeze(a)]: the axes of size one are removed. *)
Definition squeeze (a : ndarray) : ndarray :=
  {| shape := List.filter (fun d => negb (Nat.eqb d 1)) (shape a);
     item := fun idx => item a (unsqueeze_index (shape a) idx) |}.

(** The entries of a one-dimensional array, in order. *)
Definition to_list (a : ndarray) : list Q :=
  map (fun i => item a [i]) (seq 0 (len a)).

(** [np.clip(a, a_min, a_max)], elementwise. *)
Definition clip (a : list Q) (a_min a_max : Q) : list Q :=
  map (fun x => Qmin (Qmax x a_min) a_max) a.

(** [np.sum(a)]. *)
Definition sum (a : list Q) : Q := fold_right Qplus 0%Q a.

(** [a / s], elementwise. *)
Definition divide (a : list Q) (s : Q) : list Q := map (fun x => (x / s)%Q) a.

(** [np.argmax(a)]: the first position of the largest entry.  [best_i] and
    [best] are the position and the value of the largest entry so far. *)
Fixpoint argmax_from (best_i : nat) (best : Q) (i : nat) (a : list Q) : nat :=
  match a with
  | [] => best_i
  | x :: a' =>
      match (x ?= best)%Q with
      | Gt => argmax_from i x (S i) a'
      | _ => argmax_from best_i best (S i) a'
      end
  end.

(** numpy raises on an empty array; [run_inference] only takes the argmax of
    an array as long as the class catalog. *)
Definition argmax (a : list Q) : nat :=
  match a with
  | [] => 0
  | x :: a' => argmax_from 0 x 1 a'
  end.

(** [a.mean()] of one row. *)
Definition mean (a : list Q) : Q := (sum a / inject_Z (Z.of_nat (length a)))%Q.

End Np.

(** ** The world outside the program *)

Definition bytes : Type := list Byte.byte.

(** What [sf.read] returns: a one-dimensional buffer, or one row of channel
    amplitudes per frame. *)
Inductive audio :=
| Mono (y : list Q)
| Multi (frames : list (list Q)).

(** The external work the pipeline starts, in the order it is started. *)
Inductive call :=
| Ffmpeg (input output : string)
| SfRead
| Mfcc
| Predict
| PydubFromFile (format : option string)
| PydubExport
| LibrosaLoad.

Inductive exn :=
| CalledProcessError (returncode : Z)
| FileNotFoundError (path : string)
| ValueError (shape : list nat)
| LibraryError (msg : string)
| HTTPException (status_code : Z) (detail : string).

(** The collaborators.  A library call that raises is [inl] of the
    exception's message. *)
Record collaborators := {
  (** the feature tensor handed to the model *)
  features : Type;
  (** the directory and random stem that [NamedTemporaryFile] picks *)
  mktemp : gmap string bytes -> string;
  (** the ffmpeg process on the content of its input file: what it writes to
      its output file, if anything, and its exit status *)
  ffmpeg : option bytes -> option bytes * Z;
  (** [sf.read]: the samples and the sample rate *)
  sf_read : bytes -> string + (audio * nat);
  (** [librosa.feature.mfcc], the z-score normalisation, [cv2.resize] and the
      two added axes *)
  mfcc_image : list Q -> nat -> string + features;
  (** [self.model.predict] *)
  keras_predict : features -> string + Np.ndarray;
  (** [np.sin] *)
  np_sin : Q -> Q;
  (** the n-th draw of the process-wide random generator *)
  rand : nat -> Q;
  (** [AudioSegment.from_file]: the decoded audio *)
  pydub_from_file : bytes -> option string -> string + bytes;
  (** [audio.export(audio_io, format="wav")]: the bytes written *)
  pydub_export : bytes -> string + bytes;
  (** [librosa.load(sr=None, mono=True)] *)
  librosa_load : bytes -> string + (list Q * nat)
}.

Record world := {
  files : gmap string bytes;
  calls : list call;
  draws : nat;
  clock : string
}.

Definition set_files (f : gmap string bytes -> gmap string bytes) (w : world) : world :=
  {| files := f (files w); calls := calls w; draws := draws w; clock := clock w |}.

Definition log_call (c : call) (w : world) : world :=
  {| files := files w; calls := calls w ++ [c]; draws := draws w; clock := clock w |}.

(** Code that changes the world and either raises or returns. *)
Definition M (A : Type) : Type := world -> world * (exn + A).

#[global] Instance M_ret : MRet M := fun A (a : A) w => (w, inr a).

#[global] Instance M_bind : MBind M := fun A B (f : A -> M B) (m : M A) w =>
  match m w with
  | (w', inl e) => (w', inl e)
  | (w', inr a) => f a w'
  end.

Definition raise {A : Type} (e : exn) : M A := fun w => (w, inl e).

(** [try: m  except Exception as e: handler e]. *)
Definition try_except {A : Type} (m : M A) (handler : exn -> M A) : M A := fun w =>
  match m w with
  | (w', inl e) => handler e w'
  | (w', inr a) => (w', inr a)
  end.

(** A library call: it is logged, and its failure is a [LibraryError]. *)
Definition library_call {A : Type} (c : call) (r : string + A) : M A := fun w =>
  (log_call c w, match r with inl msg => inl (LibraryError msg) | inr a => inr a end).

(** ** [src/backend/audio/convert.py] *)

Module Convert.
Section WithCollaborators.
Context (E : collaborators).

(** [with tempfile.NamedTemporaryFile(delete=False, suffix=...) as f:
    f.write(content)]: the file stays on disk when the block is left;
    its name is returned. *)
Definition named_temporary_file (suffix : string) (content : bytes) : M string := fun w =>
  let path := String.append (mktemp E (files w)) suffix in
  (set_files (insert path content) w, inr path).

(** [subprocess.run(["ffmpeg", "-y", "-i", input, output], check=True)]. *)
Definition run_ffmpeg (input output : string) : M unit := fun w =>
  let '(written, status) := ffmpeg E (files w !! input) in
  let w' :=
    log_call (Ffmpeg input output)
      (set_files (fun fs => match written with
                            | Some b => <[output := b]> fs
                            | None => fs
                            end) w) in
  if (status =? 0)%Z then (w', inr tt) else (w', inl (CalledProcessError status)).

(** [with open(path, "rb") as f: f.read()]. *)
Definition read_file (path : string) : M bytes := fun w =>
  match files w !! path with
  | Some b => (w, inr b)
  | None => (w, inl (FileNotFoundError path))
  end.

(** [os.remove(path)]. *)
Definition os_remove (path : string) : M unit := fun w =>
  match files w !! path with
  | Some _ => (set_files (delete path) w, inr tt)
  | None => (w, inl (FileNotFoundError path))
  end.

Definition webm_to_wav (webm_bytes : bytes) : M bytes :=
  webm_path ← named_temporary_file ".webm" webm_bytes;
  let wav_path := Py.replace ".webm" ".wav" webm_path in
  _ ← run_ffmpeg webm_path wav_path;
  wav_bytes ← read_file wav_path;
  _ ← os_remove webm_path;
  _ ← os_remove wav_path;
  mret wav_bytes.

End WithCollaborators.
End Convert.

(** ** [src/backend/audio/preprocess.py] *)

Module Preprocess.

Definition TARGET_SIZE : nat := 128.
Definition TARGET_DURATION : Q := 3.0.

(** [if y.ndim > 1: y = y.mean(axis=1)]. *)
Definition to_mono (a : audio) : list Q :=
  match a with
  | Mono y => y
  | Multi frames => map Np.mean frames
  end.

Definition target_len (sr : nat) : nat :=
  Z.to_nat (Py.int (TARGET_DURATION * inject_Z (Z.of_nat sr))).

(** The block under "FIX PANJANG AUDIO": [np.pad(y, (0, n))] appends [n]
    zeros, [y[:n]] keeps the first [n] samples. *)
Definition fix_length (sr : nat) (y : list Q) : list Q :=
  if length y <? target_len sr
  then y ++ replicate (target_len sr - length y) 0%Q
  else take (target_len sr) y.

Section WithCollaborators.
Context (E : collaborators).

Definition extract_features (wav_bytes : bytes) : M (features E) :=
  '(y, sr) ← library_call SfRead (sf_read E wav_bytes);
  let y := to_mono y in
  let y := fix_length sr y in
  library_call Mfcc (mfcc_image E y sr).

End WithCollaborators.
End Preprocess.

(** ** [src/backend/services/inference.py] *)

Module Inference.

Definition CLASSES : list string :=
  [ "normal"; "misfire"; "buka_suara_mesin"; "oli_rendah"; "knocking";
    "pengapian_buruk"; "aki_tekor"; "power_steering"; "serpentine_belt" ].

Definition EPS : Q := 1 # 1000000.

(** What [run_inference] returns: label, confidence and the dictionary of
    class probabilities, in insertion order. *)
Definition prediction : Type := string * Q * list (string * Q).

(** [preds = np.clip(preds, 1e-6, 1.0); preds = preds / np.sum(preds)], in
    exact arithmetic; [Machine.Inference.normalised] rounds as numpy does. *)
Definition normalised (preds : list Q) : list Q :=
  let preds := Np.clip preds EPS 1.0 in
  Np.divide preds (Np.sum preds).

(** The tail of [run_inference], from [np.clip] on, on a squeezed score
    vector that passed the shape test. *)
Definition label_scores (preds : list Q) : prediction :=
  let preds := normalised preds in
  let class_index := Np.argmax preds in
  let label := nth class_index CLASSES "" in
  let confidence := nth class_index preds 0%Q in
  let probabilities :=
    map (fun i => (nth i CLASSES "", Py.round (nth i preds 0%Q) 4))
        (seq 0 (length CLASSES)) in
  (label, confidence, probabilities).

Section WithCollaborators.
Context (E : collaborators).

(** [SoundModel.predict]. *)
Definition predict (feats : features E) : M Np.ndarray :=
  library_call Predict (keras_predict E feats).

Definition run_inference (audio_bytes : bytes) : M prediction :=
  wav_bytes ← Convert.webm_to_wav E audio_bytes;
  feats ← Preprocess.extract_features E wav_bytes;
  preds ← predict feats;
  let preds := Np.squeeze preds in
  if negb (Np.ndim preds =? 1) || negb (Np.len preds =? length CLASSES)
  then raise (ValueError (Np.shape preds))
  else mret (label_scores (Np.to_list preds)).

End WithCollaborators.
End Inference.

(** ** [src/backend/utils/vibration.py] *)

Module Vibration.

Record point := { time : Q; amplitude : Q; frequency : Q }.

Section WithCollaborators.
Context (E : collaborators).

(** [np.random.rand()]: the next draw of the generator. *)
Definition np_random_rand (w : world) : world * Q :=
  ({| files := files w; calls := calls w; draws := S (draws w); clock := clock w |},
   rand E (draws w)).

(** The dictionary appended for index [i], given the draw [r]. *)
Definition make_point (i : nat) (r : Q) : point :=
  let x := inject_Z (Z.of_nat i) in
  {| time := Py.round (x * 0.01) 4;
     amplitude := (np_sin E (x * 0.1) + r * 0.3)%Q;
     frequency := (50 + np_sin E (x * 0.05) * 40)%Q |}.

(** One turn of the loop for index [i]. *)
Definition vibration_point (i : nat) (w : world) : world * point :=
  let '(w', r) := np_random_rand w in
  (w', make_point i r).

(** [for i in range(...): data.append(...)]. *)
Fixpoint vibration_loop (range : list nat) (data : list point) (w : world)
  : world * list point :=
  match range with
  | [] => (w, data)
  | i :: range' =>
      let '(w', p) := vibration_point i w in
      vibration_loop range' (data ++ [p]) w'
  end.

Definition generate_vibration_data (length : nat) (w : world) : world * list point :=
  vibration_loop (seq 0 length) [] w.

End WithCollaborators.
End Vibration.

(** The uploaded file of a request. *)
Record upload := {
  filename : option string;
  content_type : string;
  content : bytes
}.

(** ** [src/backend/main.py] *)

Module Backend.

Definition ISSUE_MAP : gmap string (gmap string string) :=
  list_to_map
    [ ("misfire",
       list_to_map
         [ ("severity", "high");
           ("component", "Sistem Pembakaran");
           ("description", "Terjadi misfire pada mesin");
           ("recommendation", "Periksa busi, injector, dan sistem bahan bakar") ]);
      ("buka_suara_mesin",
       list_to_map
         [ ("severity", "medium");
           ("component", "Celah Mesin");
           ("description", "Suara mesin terbuka tidak normal");
           ("recommendation", "Periksa celah katup dan mounting mesin") ]);
      ("oli_rendah",
       list_to_map
         [ ("severity", "medium");
           ("component", "Pelumasan");
           ("description", "Indikasi oli rendah atau aus");
           ("recommendation", "Cek dan tambah oli mesin") ]);
      ("knocking",
       list_to_map
         [ ("severity", "high");
           ("component", "Ruang Bakar");
           ("description", "Knocking terdeteksi");
           ("recommendation", "Gunakan BBM oktan lebih tinggi dan cek timing pengapian") ]);
      ("pengapian_buruk",
       list_to_map
         [ ("severity", "medium");
           ("component", "Pengapian");
           ("description", "Sistem pengapian tidak optimal");
           ("recommendation", "Periksa koil dan busi") ]) ].

Definition VALID_CONFIDENCE_THRESHOLD : Q := 0.60.

Record response := {
  overallHealth : Z;
  detectedClass : string;
  confidence : Q;
  classProbabilities : list (string * Q);
  issues : list (gmap string string);
  vibrationData : list Vibration.point;
  timestamp : string;
  mode : string
}.

(** The block under "VALIDATION": the issues and the final label. *)
Definition validation (label : string) (confidence : Q)
  : list (gmap string string) * string :=
  if bool_decide (label ∈ dom ISSUE_MAP)
     && Qle_bool VALID_CONFIDENCE_THRESHOLD confidence
  then
    let issue := ISSUE_MAP !!! label in
    let issue := <["id" := label]> issue in
    ([] ++ [issue], label)
  else ([], "normal").

(** The block under "HEALTH LOGIC", on the final label, in exact
    arithmetic; [Machine.Backend.health_logic] rounds as Python does. *)
Definition health_logic (label : string) (confidence : Q) : Z :=
  if String.eqb label "normal"
  then Py.int (90 + confidence * 10)
  else Z.max 30 (Py.int ((1 - confidence) * 100)).

Section WithCollaborators.
Context (E : collaborators).

(** [analyze_audio] from the "VALIDATION" block on: what the handler makes
    of the outcome of the inference. *)
Definition diagnose (p : Inference.prediction) (mode : string) : M response := fun w =>
  let '(label, confidence, probabilities) := p in
  let '(issues, label) := validation label confidence in
  let overall_health := health_logic label confidence in
  let '(w', vibration_data) :=
    Vibration.generate_vibration_data E
      (if String.eqb mode "quick" then 100 else 300) w in
  (w', inr {| overallHealth := overall_health;
              detectedClass := label;
              confidence := Py.round confidence 4;
              classProbabilities := probabilities;
              issues := issues;
              vibrationData := vibration_data;
              timestamp := clock w';
              mode := mode |}).

(** The handler of [POST /api/analyze]. *)
Definition analyze_audio (file : upload) (mode : string) : M response :=
  let audio_bytes := content file in
  p ← try_except (Inference.run_inference E audio_bytes)
                 (fun e => mret ("unknown", 0%Q, []));
  diagnose p mode.

End WithCollaborators.
End Backend.

(** ** The decision in floating-point arithmetic

    The tail of [run_inference] and the decision of [analyze_audio] once
    more, with every operation rounded as numpy and Python round it.  [dtype]
    is the type of the array that the model answers ([float32] for a Keras
    model). *)

Module Machine.

Import Ieee.

Module Np.

(** [np.clip(a, a_min, a_max)]: [minimum(maximum(a, a_min), a_max)]. *)
Definition clip (a : list float) (a_min a_max : float) : list float :=
  map (fun x => minimum (maximum x a_min) a_max) a.

Section WithFormat.
Context (dtype : format).

(** [r[j] += a[i + j]] for the eight accumulators of the pairwise sum. *)
Definition accumulate (r block : list float) : list float :=
  map (fun p => add dtype (fst p) (snd p)) (combine r block).

(** The unrolled loop over the blocks of eight that follow the first. *)
Fixpoint unrolled (blocks : nat) (r a : list float) : list float * list float :=
  match blocks with
  | O => (r, a)
  | S k => unrolled k (accumulate r (firstn 8 a)) (skipn 8 a)
  end.

Definition reduce8 (r : list float) : float :=
  match r with
  | [r0; r1; r2; r3; r4; r5; r6; r7] =>
      add dtype (add dtype (add dtype r0 r1) (add dtype r2 r3))
                (add dtype (add dtype r4 r5) (add dtype r6 r7))
  | _ => NaN
  end.

(** numpy's pairwise summation: fewer than eight numbers are added from left
    to right; up to 128 numbers go through eight accumulators, which are
    added in pairs before the rest is added from left to right; a longer
    array is split in two.  [fuel] bounds the depth of the splitting. *)
Fixpoint pairwise_sum (fuel : nat) (a : list float) : float :=
  let n := length a in
  if n <? 8 then fold_left (add dtype) a zero
  else if n <=? 128 then
    let '(r, rest) := unrolled (n / 8 - 1) (firstn 8 a) (skipn 8 a) in
    fold_left (add dtype) rest (reduce8 r)
  else
    match fuel with
    | O => NaN
    | S fuel' =>
        let n2 := n / 2 in
        let n2 := n2 - n2 mod 8 in
        add dtype (pairwise_sum fuel' (firstn n2 a)) (pairwise_sum fuel' (skipn n2 a))
    end.

(** [np.sum(a)]: the reduction starts from zero and adds the pairwise sum
    of the whole array. *)
Definition sum (a : list float) : float :=
  add dtype zero (pairwise_sum (length a) a).

(** [a / s], elementwise. *)
Definition divide (a : list float) (s : float) : list float :=
  map (fun x => div dtype x s) a.

End WithFormat.

(** [np.argmax(a)]: the first [NaN] if there is one, otherwise the first
    position of the largest entry. *)
Fixpoint argmax_from (best_i : nat) (best : float) (i : nat) (a : list float) : nat :=
  match a with
  | [] => best_i
  | x :: a' =>
      if le x best then argmax_from best_i best (S i) a'
      else if is_nan x then i
      else argmax_from i x (S i) a'
  end.

Definition argmax (a : list float) : nat :=
  match a with
  | [] => 0
  | x :: a' => if is_nan x then 0 else argmax_from 0 x 1 a'
  end.

End Np.

Module Inference.

Definition prediction : Type := string * float * list (string * float).

(** [preds = np.clip(preds, 1e-6, 1.0); preds = preds / np.sum(preds)]:
    the two bounds are converted to the type of the array. *)
Definition normalised (dtype : format) (preds : list float) : list float :=
  let preds := Np.clip preds (cast dtype (literal (1 # 1000000)))
                             (cast dtype (literal 1.0)) in
  Np.divide dtype preds (Np.sum dtype preds).

(** The tail of [run_inference], from [np.clip] on.  [float(x)] is the
    same number as a double. *)
Definition label_scores (dtype : format) (preds : list float) : prediction :=
  let preds := normalised dtype preds in
  let class_index := Np.argmax preds in
  let label := nth class_index Inference.CLASSES "" in
  let confidence := nth class_index preds NaN in
  let probabilities :=
    map (fun i => (nth i Inference.CLASSES "", round_digits (nth i preds NaN) 4))
        (seq 0 (length Inference.CLASSES)) in
  (label, confidence, probabilities).

End Inference.

Module Backend.

Definition VALID_CONFIDENCE_THRESHOLD : float := literal 0.60.

Record response := {
  overallHealth : Z;
  detectedClass : string;
  confidence : float;
  classProbabilities : list (string * float);
  issues : list (gmap string string);
  vibrationData : list Vibration.point;
  timestamp : string;
  mode : string
}.

(** The block under "VALIDATION". *)
Definition validation (label : string) (confidence : float)
  : list (gmap string string) * string :=
  if bool_decide (label ∈ dom Backend.ISSUE_MAP)
     && le VALID_CONFIDENCE_THRESHOLD confidence
  then
    let issue := Backend.ISSUE_MAP !!! label in
    let issue := <["id" := label]> issue in
    ([] ++ [issue], label)
  else ([], "normal").

(** The block under "HEALTH LOGIC": the arithmetic is the one of Python's
    [float], and [int()] raises on [NaN] and on an infinity. *)
Definition health_logic (label : string) (confidence : float)
  : conversion_error + Z :=
  if String.eqb label "normal"
  then to_int (add binary64 (Num 90) (mul binary64 confidence (Num 10)))
  else
    match to_int (mul binary64 (sub binary64 (Num 1) confidence) (Num 100)) with
    | inl e => inl e
    | inr h => inr (Z.max 30 h)
    end.

Section WithCollaborators.
Context (E : collaborators).

(** [analyze_audio] from the "VALIDATION" block on.  An exception of
    [int()] leaves the handler before the vibration series is made. *)
Definition diagnose (p : Inference.prediction) (mode : string) (w : world)
  : world * (conversion_error + response) :=
  let '(label, confidence, probabilities) := p in
  let '(issues, label) := validation label confidence in
  match health_logic label confidence with
  | inl e => (w, inl e)
  | inr overall_health =>
      let '(w', vibration_data) :=
        Vibration.generate_vibration_data E
          (if String.eqb mode "quick" then 100 else 300) w in
      (w', inr {| overallHealth := overall_health;
                  detectedClass := label;
                  confidence := round_digits confidence 4;
                  classProbabilities := probabilities;
                  issues := issues;
                  vibrationData := vibration_data;
                  timestamp := clock w';
                  mode := mode |})
  end.

End WithCollaborators.
End Backend.

End Machine.

(** ** [main.py], the variant of the service at the repository root *)

Module App.

Record result := {
  overall_health : Q;
  issues : list (gmap string string);
  vibration_data : list Z
}.

(** [DummyModelHandler.predict]. *)
Definition model_handler_predict (y : list Q) (sr : nat) (mode : string)
  : Q * list (gmap string string) :=
  (95.0%Q, []).

Section WithCollaborators.
Context (E : collaborators).

(** The first [try] covers [AudioSegment.from_file] only; [audio.export]
    runs between the two [try] blocks, so what it raises leaves the function
    as it is. *)
Definition preprocess_audio (audio_bytes : bytes) (content_type : string)
  : M (list Q * nat) := fun w =>
  let format :=
    if bool_decide (content_type ∈ ["audio/mpeg"; "audio/mp3"]) then Some "mp3"
    else if String.eqb content_type "audio/webm" then Some "webm"
    else None in
  let w1 := log_call (PydubFromFile format) w in
  match pydub_from_file E audio_bytes format with
  | inl msg => (w1, inl (HTTPException 400 (String.append "Cannot open audio: " msg)))
  | inr audio =>
      let w2 := log_call PydubExport w1 in
      match pydub_export E audio with
      | inl msg => (w2, inl (LibraryError msg))
      | inr wav =>
          let w3 := log_call LibrosaLoad w2 in
          match librosa_load E wav with
          | inl msg =>
              (w3, inl (HTTPException 400 (String.append "Cannot read audio: " msg)))
          | inr ysr => (w3, inr ysr)
          end
      end
  end.

Definition analyze_audio (file : upload) (mode : string) : M result :=
  if negb (bool_decide (mode ∈ ["quick"; "deep"]))
  then raise (HTTPException 400 "Mode harus 'quick' atau 'deep'")
  else if match filename file with None | Some "" => true | Some _ => false end
  then raise (HTTPException 400 "File tidak valid")
  else
    let audio_bytes := content file in
    if (50 * 1024 * 1024 <? Z.of_nat (length audio_bytes))%Z
    then raise (HTTPException 413 "File terlalu besar (max 50MB)")
    else
      '(y, sr) ← preprocess_audio audio_bytes (content_type file);
      let '(health, found) := model_handler_predict y sr mode in
      mret {| overall_health := health;
              issues := found;
              vibration_data := replicate 128 0%Z |}.

End WithCollaborators.
End App.

(** ** Concrete collaborators, to run the model *)

Module Fixture.

(** A model whose output has shape [(1, n)] and holds [scores]. *)
Definition model_output (scores : list Q) : Np.ndarray :=
  {| Np.shape := [1; length scores];
     Np.item := fun idx => nth (nth 1 idx 0) scores 0%Q |}.

(** A decoder that writes [wav] and exits with [status], a sound file of one
    second of silence at 4 Hz, a model that answers [scores], a generator
    whose n-th draw is [1/(n+2)], and [np.sin] replaced by zero. *)
Definition collab (wav : option bytes) (status : Z) (scores : list Q) : collaborators :=
  {| features := unit;
     mktemp := fun _ => "/tmp/tmpk3v9";
     ffmpeg := fun _ => (wav, status);
     sf_read := fun _ => inr (Mono (replicate 4 0%Q), 4);
     mfcc_image := fun _ _ => inr tt;
     keras_predict := fun _ => inr (model_output scores);
     np_sin := fun _ => 0%Q;
     rand := fun n => (1 # Pos.of_nat (n + 2))%Q;
     pydub_from_file := fun b _ => inr b;
     pydub_export := fun b => inr b;
     librosa_load := fun _ => inr (replicate 4 0%Q, 4) |}.

Definition w0 : world :=
  {| files := ∅; calls := []; draws := 0; clock := "2024-01-01T00:00:00" |}.

Definition clip_file : upload :=
  {| filename := Some "test.webm"; content_type := "audio/webm";
     content := [Byte.x00] |}.

(** Score vectors whose largest entry is the one of "knocking". *)
Definition knocking_059 : list Q :=
  [0.34; 0.01; 0.01; 0.01; 0.59; 0.01; 0.01; 0.01; 0.01]%Q.
Definition knocking_061 : list Q :=
  [0.32; 0.01; 0.01; 0.01; 0.61; 0.01; 0.01; 0.01; 0.01]%Q.
Definition belt_090 : list Q :=
  [0.02; 0.02; 0.01; 0.01; 0.01; 0.01; 0.01; 0.01; 0.90]%Q.

(** The [float32] array nearest to a list of decimal scores. *)
Definition float32 (scores : list Q) : list Ieee.float :=
  map (Ieee.round Ieee.binary32) scores.

Definition good : collaborators := collab (Some [Byte.x01]) 0 knocking_061.
Definition bad_decoder : collaborators := collab None 1 knocking_061.
Definition short_model : collaborators := collab (Some [Byte.x01]) 0 [0.5; 0.5]%Q.

End Fixture.

(** ** [model_handler.py] *)

Module ModelHandler.

Inductive error :=
| IndexError
| LibraryError (msg : string).

Record result := {
  overall_health : Q;
  issues : list (gmap string string)
}.

(** [x > y] on floats. *)
Definition gt (x y : Q) : bool := negb (Qle_bool x y).

(** [x < y] on floats. *)
Definition lt (x y : Q) : bool := negb (Qle_bool y x).

(** [f"{x:.1%}"]: the number times one hundred, with one decimal and a
    percent sign. *)
Definition format_percent (x : Q) : string :=
  let n := Z.abs (Py.round_half_even (x * 1000)) in
  String.append (if lt x 0 then "-" else "")
    (String.append (pretty (Z.to_N (n / 10)))
       (String.append "."
          (String.append (pretty (Z.to_N (n mod 10))) "%"))).

(** An issue dictionary as the source writes it. *)
Definition issue (severity component description recommendation : string)
  : gmap string string :=
  list_to_map [ ("severity", severity); ("component", component);
                ("description", description); ("recommendation", recommendation) ].

Definition confidence_note (text : string) (prob : Q) : string :=
  String.append text
    (String.append " (confidence: " (String.append (format_percent prob) ")")).

(** The branch for a row of four outputs or more:
    [health_score, bearing_prob, belt_prob, mounting_prob]. *)
Definition interpret_multi (health_score bearing_prob belt_prob mounting_prob : Q)
  : Q * list (gmap string string) :=
  let issues := [] in
  let issues :=
    if gt bearing_prob 0.7 then
      issues ++ [issue "high" "Bearing Motor"
                   (confidence_note "Terdeteksi masalah serius pada bearing" bearing_prob)
                   "Segera lakukan penggantian bearing dalam 48 jam untuk mencegah kerusakan lebih lanjut"]
    else if gt bearing_prob 0.4 then
      issues ++ [issue "medium" "Bearing Motor"
                   (confidence_note "Kemungkinan masalah pada bearing" bearing_prob)
                   "Lakukan inspeksi bearing dalam 7 hari dan monitor getaran"]
    else issues in
  let issues :=
    if gt belt_prob 0.6 then
      issues ++ [issue "high" "Belt Transmisi"
                   (confidence_note "Terdeteksi masalah pada belt" belt_prob)
                   "Ganti belt transmisi atau sesuaikan ketegangan dalam 3 hari"]
    else if gt belt_prob 0.3 then
      issues ++ [issue "medium" "Belt Transmisi"
                   (confidence_note "Ketegangan belt tidak optimal" belt_prob)
                   "Sesuaikan ketegangan belt pada maintenance berikutnya"]
    else issues in
  let issues :=
    if gt mounting_prob 0.5 then
      issues ++ [issue "medium" "Mounting Base"
                   (confidence_note "Getaran pada mounting base" mounting_prob)
                   "Periksa baut mounting dan kencangkan jika perlu"]
    else if gt mounting_prob 0.3 then
      issues ++ [issue "low" "Mounting Base"
                   (confidence_note "Sedikit getaran resonansi" mounting_prob)
                   "Monitor secara berkala, belum perlu tindakan segera"]
    else issues in
  (health_score, issues).

(** The branch for a row of two outputs: [normal_prob, fault_prob]. *)
Definition interpret_binary (normal_prob fault_prob : Q)
  : Q * list (gmap string string) :=
  let health_score := (normal_prob * 100)%Q in
  let issues := [] in
  let issues :=
    if gt fault_prob 0.7 then
      issues ++ [issue "high" "Motor"
                   (confidence_note "Terdeteksi anomali pada mesin" fault_prob)
                   "Segera lakukan pemeriksaan menyeluruh"]
    else if gt fault_prob 0.4 then
      issues ++ [issue "medium" "Motor"
                   (confidence_note "Kemungkinan anomali" fault_prob)
                   "Lakukan inspeksi dalam waktu dekat"]
    else issues in
  (health_score, issues).

(** The branch for every other row: a single health output. *)
Definition interpret_single (health_score : Q) : Q * list (gmap string string) :=
  let issues := [] in
  let issues :=
    if lt health_score 50 then
      issues ++ [issue "high" "Motor"
                   "Kondisi mesin dalam keadaan buruk"
                   "Segera lakukan maintenance komprehensif"]
    else if lt health_score 70 then
      issues ++ [issue "medium" "Motor"
                   "Kondisi mesin memerlukan perhatian"
                   "Jadwalkan maintenance dalam minggu ini"]
    else if lt health_score 85 then
      issues ++ [issue "low" "Motor"
                   "Kondisi mesin masih baik dengan penurunan performa kecil"
                   "Monitor secara rutin"]
    else issues in
  (health_score, issues).

(** The branch taken on the row [prediction[0]], by its length.  [None]
    stands for the [IndexError] of [prediction[0][0]] on a row without
    entries. *)
Definition branch (row : list Q) : option (Q * list (gmap string string)) :=
  if 4 <=? length row then
    match row with
    | h :: b :: t :: m :: _ => Some (interpret_multi (h * 100)%Q b t m)
    | _ => None
    end
  else if length row =? 2 then
    match row with
    | n :: f :: _ => Some (interpret_binary n f)
    | _ => None
    end
  else
    match row with
    | h :: _ => Some (interpret_single (h * 100)%Q)
    | [] => None
    end.

(** [MachineModelHandler.interpret_prediction].  [prediction[0]] raises on an
    array without rows. *)
Definition interpret_prediction (prediction : list (list Q)) (mode : string)
  : error + result :=
  match prediction with
  | [] => inl IndexError
  | row :: _ =>
      match branch row with
      | None => inl IndexError
      | Some (health_score, issues) =>
          let health_score := Qmax 0 (Qmin 100 health_score) in
          inr {| overall_health := health_score; issues := issues |}
      end
  end.

(** The feature extraction and the model of [MachineModelHandler]. *)
Record collaborators := {
  features : Type;
  preprocess_audio : bytes -> string -> string + features;
  model_predict : features -> string + list (list Q)
}.

(** [MachineModelHandler.predict]: whatever one of the three steps raises
    is logged and raised again. *)
Definition predict (H : collaborators) (audio_bytes : bytes) (mode : string)
  : error + result :=
  match preprocess_audio H audio_bytes mode with
  | inl msg => inl (LibraryError msg)
  | inr feats =>
      match model_predict H feats with
      | inl msg => inl (LibraryError msg)
      | inr prediction => interpret_prediction prediction mode
      end
  end.

End ModelHandler.

(** ** [src/ml_model_example.py]: the vibration series from the recording *)

Module MlExample.

(** What the [try] block gets from librosa: the magnitude spectrogram, one
    list of frequency bins per time frame, and the centre frequency of each
    bin. *)
Record spectrogram := {
  frames : list (list Q);
  freqs : list Q
}.

(** A spectrogram as librosa makes it: no frame without bins, and a centre
    frequency for every bin. *)
Definition well_formed (sg : spectrogram) : Prop :=
  Forall (fun frame => frame <> [] /\ length frame <= length (freqs sg)) (frames sg).

(** [range(0, stop, step)] for a positive [step]. *)
Definition range_step (stop step : nat) : list nat :=
  map (fun k => k * step) (seq 0 ((stop + step - 1) / step)).

Definition num_points (mode : string) : nat :=
  if String.eqb mode "quick" then 100 else 300.

(** The loop over the time frames.  [None] stands for an exception: the
    argmax of a frame without bins, or an index outside [freqs]. *)
Fixpoint spectral_loop (range : list nat) (budget : nat) (sg : spectrogram)
    (vibration_data : list Vibration.point) : option (list Vibration.point) :=
  match range with
  | [] => Some vibration_data
  | i :: range' =>
      if budget <=? length vibration_data then Some vibration_data
      else
        match nth_error (frames sg) i with
        | None | Some [] => None
        | Some mag_frame =>
            let dominant_freq_idx := Np.argmax mag_frame in
            match nth_error (freqs sg) dominant_freq_idx with
            | None => None
            | Some dominant_freq =>
                let amplitude := nth dominant_freq_idx mag_frame 0%Q in
                let time_sec :=
                  (inject_Z (Z.of_nat (i * 512)) / 44100)%Q in
                spectral_loop range' budget sg
                  (vibration_data ++
                   [ {| Vibration.time := Py.round time_sec 3;
                        Vibration.amplitude := Py.round (amplitude / 1000) 3;
                        Vibration.frequency := Py.round dominant_freq 2 |} ])
            end
        end
  end.

Section WithCollaborators.
Context (E : collaborators).
(** [librosa.load], [librosa.stft], [np.abs] and [librosa.fft_frequencies]
    on the recording. *)
Context (stft : bytes -> string + spectrogram).

(** The point of the fallback series for index [i], given the draw [r]. *)
Definition synthetic_point (i : nat) (r : Q) : Vibration.point :=
  let x := inject_Z (Z.of_nat i) in
  {| Vibration.time := Py.round (x * 0.01) 3;
     Vibration.amplitude := Py.round (np_sin E (x * 0.1) * 2 + r * 0.5) 3;
     Vibration.frequency := Py.round (60 + np_sin E (x * 0.05) * 60) 2 |}.

(** The list comprehension of the [except] block. *)
Fixpoint synthetic_series (range : list nat) (w : world)
  : world * list Vibration.point :=
  match range with
  | [] => (w, [])
  | i :: range' =>
      let '(w1, r) := Vibration.np_random_rand E w in
      let '(w2, rest) := synthetic_series range' w1 in
      (w2, synthetic_point i r :: rest)
  end.

Definition generate_vibration_data (audio_bytes : bytes) (mode : string) (w : world)
  : world * list Vibration.point :=
  let attempt :=
    match stft audio_bytes with
    | inl _ => None
    | inr sg =>
        let budget := num_points mode in
        let step := Nat.max 1 (length (frames sg) / budget) in
        spectral_loop (range_step (length (frames sg)) step) budget sg []
    end in
  match attempt with
  | Some vibration_data => (w, vibration_data)
  | None => synthetic_series (seq 0 (num_points mode)) w
  end.

End WithCollaborators.
End MlExample.

(** ** More concrete inputs *)

Module Samples.

(** A spectrogram of [n] frames of three bins, the middle one the loudest. *)
Definition spectrum (n : nat) : MlExample.spectrogram :=
  {| MlExample.frames := replicate n [1; 5; 2]%Q;
     MlExample.freqs := [0; 21.5; 43]%Q |}.

Definition stft_of (n : nat) : bytes -> string + MlExample.spectrogram :=
  fun _ => inr (spectrum n).

Definition handler (scores : list (list Q)) : ModelHandler.collaborators :=
  {| ModelHandler.features := unit;
     ModelHandler.preprocess_audio := fun _ _ => inr tt;
     ModelHandler.model_predict := fun _ => inr scores |}.

End Samples.

(** * Properties *)

(** ** Numbers *)

Section Numbers.
Local Open Scope Q_scope.

Lemma int_floor (x : Q) : 0 <= x -> Py.int x = Qfloor x.
Proof.
  destruct x as [n d]. unfold Qle, Py.int, Qfloor. cbn [Qnum Qden]. intros H.
  apply Z.quot_div_nonneg; lia.
Qed.

Lemma int_between (lo hi : Z) (x : Q) :
  (0 <= lo)%Z -> inject_Z lo <= x -> x <= inject_Z hi ->
  (lo <= Py.int x <= hi)%Z.
Proof.
  intros Hlo H1 H2.
  assert (H0 : 0 <= x).
  { apply Qle_trans with (inject_Z lo); [|exact H1].
    change 0 with (inject_Z 0). rewrite <- Zle_Qle. exact Hlo. }
  rewrite (int_floor x H0). split.
  - rewrite <- (Qfloor_Z lo). apply Qfloor_resp_le. exact H1.
  - rewrite <- (Qfloor_Z hi). apply Qfloor_resp_le. exact H2.
Qed.

Lemma int_bracket (x : Q) :
  0 <= x -> inject_Z (Py.int x) <= x /\ x < inject_Z (Py.int x) + 1.
Proof.
  intros H0. rewrite (int_floor x H0). split.
  - apply Qfloor_le.
  - pose proof (Qlt_floor x) as H. rewrite inject_Z_plus in H. exact H.
Qed.

Lemma inject_Z_succ (z : Z) : inject_Z (z + 1) == inject_Z z + 1.
Proof. rewrite inject_Z_plus. reflexivity. Qed.

Lemma round_half_even_error (x : Q) :
  Qabs (inject_Z (Py.round_half_even x) - x) <= 1 # 2.
Proof.
  pose proof (Qfloor_le x) as Hlo.
  pose proof (Qlt_floor x) as Hhi.
  pose proof (inject_Z_succ (Qfloor x)) as Hs.
  apply Qabs_Qle_condition. unfold Py.round_half_even.
  destruct (x - inject_Z (Qfloor x) ?= 1 # 2) eqn:Hc.
  - apply Qeq_alt in Hc. destruct (Z.even (Qfloor x)); split; lra.
  - apply Qlt_alt in Hc. split; lra.
  - apply Qgt_alt in Hc. split; lra.
Qed.


End Numbers.

(** ** Score vectors *)

Section Scores.
Local Open Scope Q_scope.

Lemma clip_Forall (a : list Q) (lo hi : Q) :
  lo <= hi -> Forall (fun x => lo <= x <= hi) (Np.clip a lo hi).
Proof.
  intros Hlh. unfold Np.clip. apply Forall_map, Forall_forall. intros x _. cbn beta.
  split.
  - apply Q.min_glb; [apply Q.le_max_r | exact Hlh].
  - apply Q.le_min_r.
Qed.

Lemma sum_nonneg (a : list Q) : Forall (fun x => 0 <= x) a -> 0 <= Np.sum a.
Proof.
  induction 1 as [|x a Hx _ IH]; cbn [Np.sum fold_right].
  - apply Qle_refl.
  - change (fold_right Qplus 0 a) with (Np.sum a). lra.
Qed.

Lemma sum_ge_elem (a : list Q) (x : Q) :
  Forall (fun x => 0 <= x) a -> In x a -> x <= Np.sum a.
Proof.
  induction 1 as [|y a Hy Ha IH]; intros Hin; [destruct Hin|].
  cbn [Np.sum fold_right]. change (fold_right Qplus 0 a) with (Np.sum a).
  pose proof (sum_nonneg a Ha) as Hs.
  destruct Hin as [Heq | Hin]; [subst; lra|]. specialize (IH Hin). lra.
Qed.

Lemma sum_pos (a : list Q) :
  a <> [] -> Forall (fun x => 0 < x) a -> 0 < Np.sum a.
Proof.
  intros Hne Ha. destruct Ha as [|x a Hx Ha]; [congruence|].
  cbn [Np.sum fold_right]. change (fold_right Qplus 0 a) with (Np.sum a).
  assert (0 <= Np.sum a).
  { apply sum_nonneg. eapply Forall_impl; [exact Ha|]. intros y Hy. cbn beta in *. lra. }
  lra.
Qed.



Lemma divide_by_sum_Forall (a : list Q) :
  Forall (fun x => 0 < x) a ->
  Forall (fun x => 0 < x <= 1) (Np.divide a (Np.sum a)).
Proof.
  intros Ha. unfold Np.divide. apply Forall_map, Forall_forall. intros x Hx. cbn beta.
  apply list_elem_of_In in Hx.
  assert (Hne : a <> []) by (intros ->; destruct Hx).
  pose proof (sum_pos a Hne Ha) as Hs.
  assert (H0 : 0 < x) by (rewrite Forall_forall in Ha; apply Ha, list_elem_of_In, Hx).
  assert (Hle : x <= Np.sum a).
  { apply sum_ge_elem; [|exact Hx].
    eapply Forall_impl; [exact Ha|]. intros y Hy. cbn beta in *. lra. }
  split.
  - apply Qlt_shift_div_l; [exact Hs|lra].
  - apply Qle_shift_div_r; [exact Hs|lra].
Qed.

Lemma clip_positive (preds : list Q) :
  Forall (fun x => 0 < x) (Np.clip preds Inference.EPS 1.0).
Proof.
  eapply Forall_impl; [apply (clip_Forall preds Inference.EPS 1.0)|].
  - unfold Inference.EPS. lra.
  - unfold Inference.EPS. intros x Hx. cbn beta in *. lra.
Qed.

Lemma normalised_length (preds : list Q) : length (Inference.normalised preds) = length preds.
Proof. unfold Inference.normalised, Np.divide, Np.clip. rewrite !length_map. reflexivity. Qed.

Lemma normalised_Forall (preds : list Q) :
  Forall (fun x => 0 < x <= 1) (Inference.normalised preds).
Proof. apply divide_by_sum_Forall, clip_positive. Qed.


Lemma nth_unit_interval (a : list Q) (i : nat) :
  Forall (fun x => 0 < x <= 1) a -> 0 <= nth i a 0 <= 1.
Proof.
  intros Ha. destruct (nth_in_or_default i a 0) as [Hin | Hd]; [|rewrite Hd; lra].
  rewrite Forall_forall in Ha. apply list_elem_of_In, Ha in Hin. cbn beta in Hin. lra.
Qed.

Lemma label_scores_unfold (preds : list Q) :
  Inference.label_scores preds =
  (nth (Np.argmax (Inference.normalised preds)) Inference.CLASSES "",
   nth (Np.argmax (Inference.normalised preds)) (Inference.normalised preds) 0,
   map (fun i => (nth i Inference.CLASSES "", Py.round (nth i (Inference.normalised preds) 0) 4))
       (seq 0 (length Inference.CLASSES))).
Proof. reflexivity. Qed.

(** The confidence [run_inference] reports is a probability. *)
Lemma label_scores_confidence (preds : list Q) :
  0 <= snd (fst (Inference.label_scores preds)) <= 1.
Proof.
  rewrite label_scores_unfold. cbn [fst snd].
  apply nth_unit_interval, normalised_Forall.
Qed.

End Scores.

(** ** The largest score *)

Section Argmax.
Local Open Scope Q_scope.

(** [argmax_from], started after the prefix [pre] whose largest entry [best]
    sits at [best_i], ends on a position of a largest entry of the list. *)
Lemma argmax_from_max (a pre : list Q) (best_i : nat) (best : Q) :
  (best_i < length pre)%nat ->
  nth best_i pre 0 = best ->
  Forall (fun x => x <= best) pre ->
  let j := Np.argmax_from best_i best (length pre) a in
  (j < length (pre ++ a))%nat /\
  Forall (fun x => x <= nth j (pre ++ a) 0) (pre ++ a).
Proof.
  revert pre best_i best. induction a as [|x a IH]; intros pre best_i best Hi Hb Hpre.
  - cbn [Np.argmax_from]. rewrite app_nil_r. split; [exact Hi|]. rewrite Hb. exact Hpre.
  - cbn [Np.argmax_from].
    replace (pre ++ x :: a) with ((pre ++ [x]) ++ a) by (rewrite <- app_assoc; reflexivity).
    replace (S (length pre)) with (length (pre ++ [x])) by (rewrite length_app; cbn; lia).
    destruct (x ?= best) eqn:Hc.
    + apply Qeq_alt in Hc. apply IH.
      * rewrite length_app. cbn. lia.
      * rewrite app_nth1 by exact Hi. exact Hb.
      * apply Forall_app. split; [exact Hpre|]. constructor; [lra|constructor].
    + apply Qlt_alt in Hc. apply IH.
      * rewrite length_app. cbn. lia.
      * rewrite app_nth1 by exact Hi. exact Hb.
      * apply Forall_app. split; [exact Hpre|]. constructor; [lra|constructor].
    + apply Qgt_alt in Hc.
      apply (IH (pre ++ [x]) (length pre) x).
      * rewrite length_app. cbn. lia.
      * rewrite app_nth2 by lia. rewrite Nat.sub_diag. reflexivity.
      * apply Forall_app. split; [|constructor; [lra|constructor]].
        eapply Forall_impl; [exact Hpre|]. intros y Hy. cbn beta in *. lra.
Qed.

Lemma argmax_max (a : list Q) :
  a <> [] ->
  (Np.argmax a < length a)%nat /\
  Forall (fun x => x <= nth (Np.argmax a) a 0) a.
Proof.
  destruct a as [|x a]; [congruence|]. intros _.
  apply (argmax_from_max a [x] 0%nat x).
  - cbn. lia.
  - reflexivity.
  - constructor; [lra|constructor].
Qed.

(** The confidence is the largest entry of the normalised scores. *)
Lemma label_scores_confidence_max (preds : list Q) (i : nat) :
  nth i (Inference.normalised preds) 0 <= snd (fst (Inference.label_scores preds)).
Proof.
  rewrite label_scores_unfold. cbn [fst snd].
  destruct (nth_in_or_default i (Inference.normalised preds) 0) as [Hin | Hd].
  - assert (Hne : Inference.normalised preds <> []) by (intros Hn; rewrite Hn in Hin; destruct Hin).
    destruct (argmax_max _ Hne) as [_ Hall].
    rewrite Forall_forall in Hall. apply Hall, list_elem_of_In, Hin.
  - rewrite Hd. apply nth_unit_interval, normalised_Forall.
Qed.

End Argmax.

(** ** The static tables *)

Lemma CLASSES_length : length Inference.CLASSES = 9.
Proof. reflexivity. Qed.

Lemma CLASSES_NoDup : NoDup Inference.CLASSES.
Proof. apply (bool_decide_unpack _). vm_compute. exact I. Qed.

Lemma ISSUE_MAP_dom :
  dom Backend.ISSUE_MAP =
  {[ "misfire"; "buka_suara_mesin"; "oli_rendah"; "knocking"; "pengapian_buruk" ]}.
Proof. apply (bool_decide_unpack _). vm_compute. exact I. Qed.

Lemma ISSUE_MAP_size : size Backend.ISSUE_MAP = 5.
Proof. vm_compute. reflexivity. Qed.

Lemma normal_not_in_ISSUE_MAP : "normal" ∉ dom Backend.ISSUE_MAP.
Proof. apply (bool_decide_unpack _). vm_compute. exact I. Qed.

(** ** The decision of [analyze_audio] *)

Section Decision.
Local Open Scope Q_scope.

Lemma validation_accept (label : string) (c : Q) :
  label ∈ dom Backend.ISSUE_MAP -> 0.60 <= c ->
  exists entry,
    Backend.ISSUE_MAP !! label = Some entry /\
    Backend.validation label c = ([<["id" := label]> entry], label).
Proof.
  intros Hin Hc. pose proof Hin as Hsome. apply elem_of_dom in Hsome.
  destruct Hsome as [entry Hentry]. exists entry. split; [exact Hentry|].
  unfold Backend.validation. rewrite (bool_decide_eq_true_2 _ Hin).
  replace (Qle_bool Backend.VALID_CONFIDENCE_THRESHOLD c) with true
    by (symmetry; apply Qle_bool_iff; exact Hc).
  cbn [andb app]. rewrite (lookup_total_correct _ _ _ Hentry). reflexivity.
Qed.

Lemma validation_reject (label : string) (c : Q) :
  ~ (label ∈ dom Backend.ISSUE_MAP /\ 0.60 <= c) ->
  Backend.validation label c = ([], "normal").
Proof.
  intros Hn. unfold Backend.validation.
  destruct (bool_decide (label ∈ dom Backend.ISSUE_MAP)) eqn:Hd; [|reflexivity].
  destruct (Qle_bool Backend.VALID_CONFIDENCE_THRESHOLD c) eqn:Hq; [|reflexivity].
  exfalso. apply Hn. split.
  - apply bool_decide_eq_true_1 in Hd. exact Hd.
  - apply Qle_bool_iff in Hq. exact Hq.
Qed.

(** Either way the final label is "normal" or a key of the issue map whose
    confidence passed the threshold. *)
Lemma validation_cases (label : string) (c : Q) :
  (snd (Backend.validation label c) = "normal" /\ fst (Backend.validation label c) = []) \/
  (snd (Backend.validation label c) = label /\
   label ∈ dom Backend.ISSUE_MAP /\ label <> "normal" /\ 0.60 <= c).
Proof.
  destruct (decide (label ∈ dom Backend.ISSUE_MAP)) as [Hin|Hout].
  - destruct (Qlt_le_dec c 0.60) as [Hlt|Hle].
    + left. rewrite validation_reject; [split; reflexivity|]. intros [_ H]. lra.
    + right. destruct (validation_accept label c Hin Hle) as (entry & _ & ->).
      cbn [snd]. repeat split; try assumption.
      intros ->. exact (normal_not_in_ISSUE_MAP Hin).
  - left. rewrite validation_reject; [split; reflexivity|]. intros [H _]. exact (Hout H).
Qed.

Lemma health_logic_normal (c : Q) :
  Backend.health_logic "normal" c = Py.int (90 + c * 10).
Proof. reflexivity. Qed.

Lemma health_logic_fault (label : string) (c : Q) :
  label <> "normal" ->
  Backend.health_logic label c = Z.max 30 (Py.int ((1 - c) * 100)).
Proof.
  intros Hn. unfold Backend.health_logic.
  replace (String.eqb label "normal") with false; [reflexivity|].
  symmetry. apply String.eqb_neq. exact Hn.
Qed.

Lemma health_normal_range (c : Q) :
  0 <= c <= 1 -> (90 <= Backend.health_logic "normal" c <= 100)%Z.
Proof.
  intros Hc. rewrite health_logic_normal. apply int_between.
  - lia.
  - change (inject_Z 90) with 90. lra.
  - change (inject_Z 100) with 100. lra.
Qed.

Lemma health_fault_range (label : string) (c : Q) :
  label <> "normal" -> 0 <= c <= 1 ->
  (30 <= Backend.health_logic label c <= 100)%Z.
Proof.
  intros Hn Hc. rewrite (health_logic_fault label c Hn).
  assert (0 <= Py.int ((1 - c) * 100) <= 100)%Z.
  { apply int_between.
    - lia.
    - change (inject_Z 0) with 0. lra.
    - change (inject_Z 100) with 100. lra. }
  lia.
Qed.

(** A fault is only reported from confidence 0.60 on, which caps its score. *)
Lemma health_fault_confident (label : string) (c : Q) :
  label <> "normal" -> 0.60 <= c <= 1 ->
  (30 <= Backend.health_logic label c <= 40)%Z.
Proof.
  intros Hn Hc. rewrite (health_logic_fault label c Hn).
  assert (0 <= Py.int ((1 - c) * 100) <= 40)%Z.
  { apply int_between.
    - lia.
    - change (inject_Z 0) with 0. lra.
    - change (inject_Z 40) with 40. lra. }
  lia.
Qed.

Section WithCollaborators.
Context (E : collaborators).

(** [diagnose] always returns, and this is what it returns. *)
Lemma diagnose_spec (label : string) (c : Q) (ps : list (string * Q))
    (mode : string) (w : world) :
  exists w' r,
    Backend.diagnose E (label, c, ps) mode w = (w', inr r) /\
    (Backend.issues r, Backend.detectedClass r) = Backend.validation label c /\
    Backend.overallHealth r = Backend.health_logic (Backend.detectedClass r) c /\
    Backend.confidence r = Py.round c 4 /\
    Backend.classProbabilities r = ps /\
    Backend.mode r = mode /\
    (w', Backend.vibrationData r) =
      Vibration.generate_vibration_data E
        (if String.eqb mode "quick" then 100 else 300)%nat w /\
    Backend.timestamp r = clock w'.
Proof.
  unfold Backend.diagnose.
  destruct (Backend.validation label c) as [found final].
  destruct (Vibration.generate_vibration_data E _ w) as [w' vib].
  eexists _, _. split; [reflexivity|]. cbn. repeat split; reflexivity.
Qed.

End WithCollaborators.
End Decision.

(** ** Claims about the decision *)

Section DecisionClaims.
Local Open Scope Q_scope.

Section WithCollaborators.
Context (E : collaborators).

(** C9: the catalog has nine classes and the issue map five keys, so a vector
    whose largest score is the one of "aki_tekor", "power_steering" or
    "serpentine_belt" is reported as "normal", without issues and with a
    health score of at least 90, whatever the confidence. *)
Theorem unmapped_classes_report_normal (preds : list Q) (mode : string) (w : world) :
  fst (fst (Inference.label_scores preds)) = "aki_tekor" \/
  fst (fst (Inference.label_scores preds)) = "power_steering" \/
  fst (fst (Inference.label_scores preds)) = "serpentine_belt" ->
  length Inference.CLASSES = 9%nat /\
  dom Backend.ISSUE_MAP =
    {[ "misfire"; "buka_suara_mesin"; "oli_rendah"; "knocking"; "pengapian_buruk" ]} /\
  exists w' r,
    Backend.diagnose E (Inference.label_scores preds) mode w = (w', inr r) /\
    Backend.detectedClass r = "normal" /\
    Backend.issues r = [] /\
    (90 <= Backend.overallHealth r <= 100)%Z.
Proof.
  intros Hlabel. split; [reflexivity|]. split; [exact ISSUE_MAP_dom|].
  pose proof (label_scores_confidence preds) as Hc.
  destruct (Inference.label_scores preds) as [[label c] ps]. cbn [fst snd] in *.
  destruct (diagnose_spec E label c ps mode w) as (w' & r & Hd & Hv & Hh & _).
  exists w', r. split; [exact Hd|].
  assert (Hout : label ∉ dom Backend.ISSUE_MAP).
  { destruct Hlabel as [->|[->| ->]];
      apply (bool_decide_unpack _); vm_compute; exact I. }
  rewrite (validation_reject label c) in Hv by (intros [Hin _]; exact (Hout Hin)).
  assert (Hcls : Backend.detectedClass r = "normal") by congruence.
  split; [exact Hcls|]. split; [congruence|].
  rewrite Hh, Hcls. apply health_normal_range. exact Hc.
Qed.

(** The health score of whatever [diagnose] answers on a confidence in
    [0,1]: 30 to 40 on a fault, 90 to 100 on "normal". *)
Lemma diagnose_bimodal (label : string) (c : Q) (ps : list (string * Q))
    (mode : string) (w : world) :
  0 <= c <= 1 ->
  exists w' r,
    Backend.diagnose E (label, c, ps) mode w = (w', inr r) /\
    (Backend.detectedClass r <> "normal" -> (30 <= Backend.overallHealth r <= 40)%Z) /\
    (Backend.detectedClass r = "normal" -> (90 <= Backend.overallHealth r <= 100)%Z).
Proof.
  intros Hc.
  destruct (diagnose_spec E label c ps mode w) as (w' & r & Hd & Hv & Hh & _).
  exists w', r. split; [exact Hd|].
  assert (Hcls : Backend.detectedClass r = snd (Backend.validation label c))
    by (rewrite <- Hv; reflexivity).
  rewrite Hh. split.
  - intros Hn. destruct (validation_cases label c) as [[Hs _]|(Hs & _ & _ & Hge)].
    + congruence.
    + apply health_fault_confident; [exact Hn|]. split; [exact Hge|apply Hc].
  - intros ->. apply health_normal_range. exact Hc.
Qed.

End WithCollaborators.
End DecisionClaims.

(** ** The vibration series *)

Section VibrationSeries.
Context (E : collaborators).

(** The loop over [seq a n] appends one point per index; the k-th of them
    takes the k-th draw after those already consumed. *)
Lemma vibration_loop_seq (n a : nat) (data : list Vibration.point) (w : world) :
  Vibration.vibration_loop E (seq a n) data w =
  ({| files := files w; calls := calls w; draws := draws w + n; clock := clock w |},
   data ++ map (fun i => Vibration.make_point E i (rand E (draws w + (i - a))))
               (seq a n)).
Proof.
  revert a data w. induction n as [|n IH]; intros a data w.
  - cbn [seq Vibration.vibration_loop map]. rewrite app_nil_r, Nat.add_0_r.
    destruct w; reflexivity.
  - cbn [seq Vibration.vibration_loop map].
    unfold Vibration.vibration_point, Vibration.np_random_rand.
    rewrite IH. cbn [files calls draws clock]. f_equal.
    + f_equal. lia.
    + rewrite <- app_assoc. cbn [app]. f_equal.
      rewrite Nat.sub_diag, Nat.add_0_r. f_equal.
      apply map_ext_in. intros i Hi. apply in_seq in Hi.
      do 2 f_equal. lia.
Qed.

Lemma generate_vibration_data_spec (n : nat) (w : world) :
  Vibration.generate_vibration_data E n w =
  ({| files := files w; calls := calls w; draws := draws w + n; clock := clock w |},
   map (fun i => Vibration.make_point E i (rand E (draws w + i))) (seq 0 n)).
Proof.
  unfold Vibration.generate_vibration_data. rewrite vibration_loop_seq. cbn [app].
  f_equal. apply map_ext. intros i. rewrite Nat.sub_0_r. reflexivity.
Qed.

Lemma generate_vibration_data_length (n : nat) (w : world) :
  length (snd (Vibration.generate_vibration_data E n w)) = n.
Proof.
  rewrite generate_vibration_data_spec. cbn [snd].
  rewrite length_map, length_seq. reflexivity.
Qed.

(** The times and the frequencies of the series do not depend on the
    draws. *)
Lemma generate_vibration_data_time (n : nat) (w1 w2 : world) :
  map Vibration.time (snd (Vibration.generate_vibration_data E n w1)) =
  map Vibration.time (snd (Vibration.generate_vibration_data E n w2)).
Proof.
  rewrite !generate_vibration_data_spec. cbn [snd]. rewrite !map_map. reflexivity.
Qed.

Lemma generate_vibration_data_frequency (n : nat) (w1 w2 : world) :
  map Vibration.frequency (snd (Vibration.generate_vibration_data E n w1)) =
  map Vibration.frequency (snd (Vibration.generate_vibration_data E n w2)).
Proof.
  rewrite !generate_vibration_data_spec. cbn [snd]. rewrite !map_map. reflexivity.
Qed.

(** C8, as the code has it: two runs of the decision on the same outcome of
    the inference and the same mode agree on the health score, the detected
    class, the confidence, the class probabilities, the issues, the mode, and
    on the length, the times and the frequencies of the vibration series.  The
    amplitudes carry the draws of the random generator and the response
    carries the time of the clock: the two responses are equal when the
    generator is at the same position and the clock shows the same time. *)
Theorem decision_is_deterministic_up_to_jitter
    (p : Inference.prediction) (mode : string) (w1 w2 : world) :
  exists w1' r1 w2' r2,
    Backend.diagnose E p mode w1 = (w1', inr r1) /\
    Backend.diagnose E p mode w2 = (w2', inr r2) /\
    Backend.overallHealth r1 = Backend.overallHealth r2 /\
    Backend.detectedClass r1 = Backend.detectedClass r2 /\
    Backend.confidence r1 = Backend.confidence r2 /\
    Backend.classProbabilities r1 = Backend.classProbabilities r2 /\
    Backend.issues r1 = Backend.issues r2 /\
    Backend.mode r1 = Backend.mode r2 /\
    length (Backend.vibrationData r1) = (if String.eqb mode "quick" then 100 else 300) /\
    length (Backend.vibrationData r2) = (if String.eqb mode "quick" then 100 else 300) /\
    map Vibration.time (Backend.vibrationData r1) =
      map Vibration.time (Backend.vibrationData r2) /\
    map Vibration.frequency (Backend.vibrationData r1) =
      map Vibration.frequency (Backend.vibrationData r2) /\
    (draws w1 = draws w2 -> clock w1 = clock w2 -> r1 = r2).
Proof.
  destruct p as [[label c] ps]. unfold Backend.diagnose.
  destruct (Backend.validation label c) as [found final].
  set (n := if String.eqb mode "quick" then 100 else 300).
  pose proof (generate_vibration_data_length n w1) as Hl1.
  pose proof (generate_vibration_data_length n w2) as Hl2.
  pose proof (generate_vibration_data_time n w1 w2) as Ht.
  pose proof (generate_vibration_data_frequency n w1 w2) as Hf.
  pose proof (generate_vibration_data_spec n w1) as Hs1.
  pose proof (generate_vibration_data_spec n w2) as Hs2.
  destruct (Vibration.generate_vibration_data E n w1) as [w1' v1].
  destruct (Vibration.generate_vibration_data E n w2) as [w2' v2].
  cbn [snd] in *.
  eexists _, _, _, _. split; [reflexivity|]. split; [reflexivity|].
  cbn. repeat split; try assumption.
  intros Hd Hc. injection Hs1 as -> ->. injection Hs2 as -> ->.
  cbn [clock]. rewrite Hd, Hc. reflexivity.
Qed.

End VibrationSeries.

(** ** The inference and the handler around it *)

Section Handler.
Local Open Scope Q_scope.
Context (E : collaborators).

Lemma bind_unfold {A B : Type} (m : M A) (f : A -> M B) (w : world) :
  (m ≫= f) w =
  match m w with
  | (w', inl e) => (w', inl e)
  | (w', inr a) => f a w'
  end.
Proof. reflexivity. Qed.

(** [run_inference] raises what the decoder raises. *)
Lemma run_inference_decode_error (audio_bytes : bytes) (w w1 : world) (e : exn) :
  Convert.webm_to_wav E audio_bytes w = (w1, inl e) ->
  Inference.run_inference E audio_bytes w = (w1, inl e).
Proof.
  intros H. unfold Inference.run_inference. rewrite bind_unfold, H. reflexivity.
Qed.

(** [run_inference] raises [ValueError] on a model output that does not
    squeeze to one axis as long as the class catalog. *)
Lemma run_inference_shape_error (audio_bytes wav : bytes) (w w1 w2 w3 : world)
    (feats : features E) (out : Np.ndarray) :
  Convert.webm_to_wav E audio_bytes w = (w1, inr wav) ->
  Preprocess.extract_features E wav w1 = (w2, inr feats) ->
  Inference.predict E feats w2 = (w3, inr out) ->
  Np.ndim (Np.squeeze out) <> 1%nat \/
  Np.len (Np.squeeze out) <> length Inference.CLASSES ->
  Inference.run_inference E audio_bytes w =
    (w3, inl (ValueError (Np.shape (Np.squeeze out)))).
Proof.
  intros H1 H2 H3 Hshape. unfold Inference.run_inference.
  rewrite bind_unfold, H1, bind_unfold, H2, bind_unfold, H3.
  replace (negb (Np.ndim (Np.squeeze out) =? 1)%nat
           || negb (Np.len (Np.squeeze out) =? length Inference.CLASSES)%nat)
    with true; [reflexivity|].
  symmetry. apply orb_true_iff.
  destruct Hshape as [Hn|Hn]; [left|right];
    apply negb_true_iff, Nat.eqb_neq; exact Hn.
Qed.

(** What [run_inference] returns is [label_scores] of a vector as long as the
    class catalog. *)
Lemma run_inference_returns (audio_bytes : bytes) (w w1 : world)
    (p : Inference.prediction) :
  Inference.run_inference E audio_bytes w = (w1, inr p) ->
  exists preds,
    length preds = length Inference.CLASSES /\ p = Inference.label_scores preds.
Proof.
  unfold Inference.run_inference. rewrite bind_unfold.
  destruct (Convert.webm_to_wav E audio_bytes w) as [wa [e|wav]]; [discriminate|].
  rewrite bind_unfold.
  destruct (Preprocess.extract_features E wav wa) as [wb [e|feats]]; [discriminate|].
  rewrite bind_unfold.
  destruct (Inference.predict E feats wb) as [wc [e|out]]; [discriminate|].
  destruct (negb (Np.ndim (Np.squeeze out) =? 1)%nat
            || negb (Np.len (Np.squeeze out) =? length Inference.CLASSES)%nat) eqn:Hs.
  - unfold raise. discriminate.
  - intros H. injection H as _ <-.
    exists (Np.to_list (Np.squeeze out)). split; [|reflexivity].
    apply orb_false_iff in Hs. destruct Hs as [_ Hlen].
    apply negb_false_iff, Nat.eqb_eq in Hlen.
    unfold Np.to_list. rewrite length_map, length_seq. exact Hlen.
Qed.

(** The handler: the outcome of the inference, or the stand-in of the
    "SAFE INFERENCE" block, goes through [diagnose]. *)
Lemma analyze_audio_unfold (file : upload) (mode : string) (w : world) :
  Backend.analyze_audio E file mode w =
  match Inference.run_inference E (content file) w with
  | (w1, inr p) => Backend.diagnose E p mode w1
  | (w1, inl _) => Backend.diagnose E ("unknown", 0, []) mode w1
  end.
Proof.
  unfold Backend.analyze_audio. rewrite bind_unfold. unfold try_except.
  destruct (Inference.run_inference E (content file) w) as [w1 [e|p]]; reflexivity.
Qed.

(** The handler has no raising path. *)
Lemma analyze_audio_returns (file : upload) (mode : string) (w : world) :
  exists w' r, Backend.analyze_audio E file mode w = (w', inr r).
Proof.
  rewrite analyze_audio_unfold.
  destruct (Inference.run_inference E (content file) w) as [w1 [e|[[label c] ps]]].
  - destruct (diagnose_spec E "unknown" 0 [] mode w1) as (w' & r & H & _). eauto.
  - destruct (diagnose_spec E label c ps mode w1) as (w' & r & H & _). eauto.
Qed.

(** What the handler answers when the inference raised. *)
Lemma handler_absorbs (file : upload) (mode : string) (w w1 : world) (e : exn) :
  Inference.run_inference E (content file) w = (w1, inl e) ->
  exists w' r,
    Backend.analyze_audio E file mode w = (w', inr r) /\
    Backend.detectedClass r = "normal" /\
    Backend.confidence r == 0 /\
    Backend.classProbabilities r = [] /\
    Backend.issues r = [] /\
    Backend.overallHealth r = 90%Z.
Proof.
  intros Hrun. rewrite analyze_audio_unfold, Hrun.
  destruct (diagnose_spec E "unknown" 0 [] mode w1)
    as (w' & r & Hd & Hv & Hh & Hc & Hp & _).
  exists w', r. split; [exact Hd|].
  change (Backend.validation "unknown" 0) with (@nil (gmap string string), "normal") in Hv.
  assert (Hcls : Backend.detectedClass r = "normal") by congruence.
  repeat split.
  - exact Hcls.
  - rewrite Hc. reflexivity.
  - exact Hp.
  - congruence.
  - rewrite Hh, Hcls. reflexivity.
Qed.

(** What the handler answers when the inference returned. *)
Lemma handler_diagnoses (file : upload) (mode : string) (w w1 : world)
    (label : string) (c : Q) (ps : list (string * Q)) :
  Inference.run_inference E (content file) w = (w1, inr (label, c, ps)) ->
  exists w' r,
    Backend.analyze_audio E file mode w = (w', inr r) /\
    (Backend.issues r, Backend.detectedClass r) = Backend.validation label c /\
    Backend.overallHealth r = Backend.health_logic (Backend.detectedClass r) c /\
    Backend.classProbabilities r = ps /\
    Backend.mode r = mode /\
    length (Backend.vibrationData r) = (if String.eqb mode "quick" then 100 else 300)%nat /\
    calls w' = calls w1.
Proof.
  intros Hrun. rewrite analyze_audio_unfold, Hrun.
  destruct (diagnose_spec E label c ps mode w1)
    as (w' & r & Hd & Hv & Hh & _ & Hp & Hm & Hvib & _).
  exists w', r. split; [exact Hd|].
  pose proof (generate_vibration_data_length E
                (if String.eqb mode "quick" then 100 else 300)%nat w1) as Hl.
  rewrite generate_vibration_data_spec in Hvib, Hl. cbn [snd] in Hl.
  injection Hvib as -> ->. repeat split; assumption.
Qed.

(** C10: the health score is bimodal.  Every request gets a response; when
    its detected class is not "normal" the score lies in [30, 40], when it is
    "normal" the score lies in [90, 100], and so no response carries a score
    strictly between 40 and 90. *)
Theorem health_is_bimodal (file : upload) (mode : string) (w : world) :
  exists w' r,
    Backend.analyze_audio E file mode w = (w', inr r) /\
    (Backend.detectedClass r <> "normal" -> (30 <= Backend.overallHealth r <= 40)%Z) /\
    (Backend.detectedClass r = "normal" -> (90 <= Backend.overallHealth r <= 100)%Z) /\
    ~ (40 < Backend.overallHealth r < 90)%Z.
Proof.
  assert (Hmain : exists w' r,
    Backend.analyze_audio E file mode w = (w', inr r) /\
    (Backend.detectedClass r <> "normal" -> (30 <= Backend.overallHealth r <= 40)%Z) /\
    (Backend.detectedClass r = "normal" -> (90 <= Backend.overallHealth r <= 100)%Z)).
  { rewrite analyze_audio_unfold.
    destruct (Inference.run_inference E (content file) w) as [w1 [e|p]] eqn:Hrun.
    - apply diagnose_bimodal. split; lra.
    - destruct (run_inference_returns _ _ _ _ Hrun) as (preds & _ & ->).
      pose proof (label_scores_confidence preds) as Hc.
      destruct (Inference.label_scores preds) as [[label c] ps]. cbn [fst snd] in Hc.
      apply diagnose_bimodal. exact Hc. }
  destruct Hmain as (w' & r & Hr & Hfault & Hnormal).
  exists w', r. repeat split; try assumption; try (apply Hfault; assumption);
    try (apply Hnormal; assumption).
  intros [Hlo Hhi].
  destruct (String.eqb_spec (Backend.detectedClass r) "normal") as [Hn|Hn].
  - specialize (Hnormal Hn). lia.
  - specialize (Hfault Hn). lia.
Qed.

(** C1, as the code has it: when the decoder fails, or the model's output
    does not squeeze to one axis as long as the class catalog,
    [run_inference] raises, and the handler answers all the same: class
    "normal", confidence 0, no class probabilities, no issues, health 90. *)
Theorem inference_failure_is_absorbed (file : upload) (mode : string) (w : world) :
  (exists w1 e, Convert.webm_to_wav E (content file) w = (w1, inl e)) \/
  (exists w1 wav w2 feats w3 out,
     Convert.webm_to_wav E (content file) w = (w1, inr wav) /\
     Preprocess.extract_features E wav w1 = (w2, inr feats) /\
     Inference.predict E feats w2 = (w3, inr out) /\
     (Np.ndim (Np.squeeze out) <> 1%nat \/
      Np.len (Np.squeeze out) <> length Inference.CLASSES)) ->
  (exists w1 e, Inference.run_inference E (content file) w = (w1, inl e)) /\
  exists w' r,
    Backend.analyze_audio E file mode w = (w', inr r) /\
    Backend.detectedClass r = "normal" /\
    Backend.confidence r == 0 /\
    Backend.classProbabilities r = [] /\
    Backend.issues r = [] /\
    Backend.overallHealth r = 90%Z.
Proof.
  intros Hfail.
  assert (Hrun : exists w1 e, Inference.run_inference E (content file) w = (w1, inl e)).
  { destruct Hfail as [(w1 & e & H)|(w1 & wav & w2 & feats & w3 & out & H1 & H2 & H3 & Hs)].
    - exists w1, e. apply run_inference_decode_error. exact H.
    - eexists _, _. eapply run_inference_shape_error; eassumption. }
  split; [exact Hrun|].
  destruct Hrun as (w1 & e & Hrun).
  exact (handler_absorbs file mode w w1 e Hrun).
Qed.

End Handler.

(** ** The temporary files of [webm_to_wav] *)

Section TemporaryFiles.
Context (E : collaborators).

Lemma prefix_length (a s : string) :
  String.prefix a s = true -> String.length a <= String.length s.
Proof.
  revert s. induction a as [|c a IH]; intros s H; cbn [String.length]; [lia|].
  destruct s as [|d s]; cbn [String.prefix String.length] in *; [discriminate|].
  destruct (ascii_dec c d); [|discriminate]. specialize (IH s H). lia.
Qed.

Lemma append_cons (c : ascii) (a b : string) :
  String.append (String c a) b = String c (String.append a b).
Proof. reflexivity. Qed.

Lemma append_length (a b : string) :
  String.length (String.append a b) = String.length a + String.length b.
Proof.
  induction a as [|c a IH]; [reflexivity|].
  rewrite append_cons. cbn [String.length]. lia.
Qed.

(** Replacing ".webm" by ".wav" never lengthens a name. *)
Lemma replace_from_length (s : string) (k : nat) :
  k <= String.length s ->
  String.length (Py.replace_from k ".webm" ".wav" s) + k <= String.length s.
Proof.
  revert k. induction s as [|c s IH]; intros k Hk; cbn [String.length] in *.
  - cbn [Py.replace_from String.length]. lia.
  - cbn [Py.replace_from]. destruct k as [|k].
    + destruct (String.prefix ".webm" (String c s)) eqn:Hp.
      * apply prefix_length in Hp. cbn [String.length] in Hp.
        rewrite append_length. cbn [String.length Nat.sub].
        specialize (IH 4). lia.
      * cbn [String.length]. specialize (IH 0). lia.
    + specialize (IH k). lia.
Qed.

(** A name that ends in ".webm" gets shorter. *)
Lemma replace_webm_shorter (stem : string) :
  String.length (Py.replace ".webm" ".wav" (String.append stem ".webm"))
  < String.length (String.append stem ".webm").
Proof.
  unfold Py.replace. induction stem as [|c stem IH].
  - vm_compute. lia.
  - rewrite append_cons. cbn [Py.replace_from].
    destruct (String.prefix ".webm" (String c (String.append stem ".webm"))) eqn:Hp.
    + apply prefix_length in Hp. cbn [String.length] in Hp.
      rewrite append_length. cbn [String.length Nat.sub].
      pose proof (replace_from_length (String.append stem ".webm") 4). lia.
    + cbn [String.length]. lia.
Qed.

Lemma wav_path_fresh (stem : string) :
  Py.replace ".webm" ".wav" (String.append stem ".webm") <> String.append stem ".webm".
Proof.
  intros H. pose proof (replace_webm_shorter stem) as Hlt. rewrite H in Hlt. lia.
Qed.

(** On success both temporary files are gone. *)
Lemma webm_to_wav_success (webm_bytes wav : bytes) (w : world) :
  ffmpeg E (Some webm_bytes) = (Some wav, 0%Z) ->
  exists w',
    Convert.webm_to_wav E webm_bytes w = (w', inr wav) /\
    files w' !! String.append (mktemp E (files w)) ".webm" = None /\
    files w' !! Py.replace ".webm" ".wav" (String.append (mktemp E (files w)) ".webm") = None.
Proof.
  intros Hff. pose proof (wav_path_fresh (mktemp E (files w))) as Hne.
  unfold Convert.webm_to_wav. rewrite bind_unfold.
  unfold Convert.named_temporary_file.
  set (webm_path := String.append (mktemp E (files w)) ".webm") in *.
  set (wav_path := Py.replace ".webm" ".wav" webm_path) in *.
  rewrite bind_unfold. unfold Convert.run_ffmpeg. cbn [files set_files].
  rewrite lookup_insert_eq, Hff. cbn [Z.eqb].
  rewrite bind_unfold. unfold Convert.read_file. cbn [files set_files log_call].
  rewrite lookup_insert_eq.
  rewrite bind_unfold. unfold Convert.os_remove at 1. cbn [files set_files log_call].
  rewrite lookup_insert_ne by exact Hne. rewrite lookup_insert_eq.
  rewrite bind_unfold. unfold Convert.os_remove. cbn [files set_files log_call].
  rewrite lookup_delete_ne by (intros Heq; apply Hne; symmetry; exact Heq).
  rewrite lookup_insert_eq.
  eexists. split; [reflexivity|]. cbn [files set_files]. split.
  - rewrite lookup_delete_ne by exact Hne. apply lookup_delete_eq.
  - apply lookup_delete_eq.
Qed.

(** On a non-zero exit status of the decoder the exception leaves
    [webm_to_wav] before the two [os.remove]: the input file stays. *)
Lemma webm_to_wav_failure (webm_bytes : bytes) (w : world)
    (written : option bytes) (status : Z) :
  ffmpeg E (Some webm_bytes) = (written, status) ->
  status <> 0%Z ->
  exists w',
    Convert.webm_to_wav E webm_bytes w = (w', inl (CalledProcessError status)) /\
    is_Some (files w' !! String.append (mktemp E (files w)) ".webm").
Proof.
  intros Hff Hstatus.
  unfold Convert.webm_to_wav. rewrite bind_unfold.
  unfold Convert.named_temporary_file.
  set (webm_path := String.append (mktemp E (files w)) ".webm") in *.
  set (wav_path := Py.replace ".webm" ".wav" webm_path) in *.
  rewrite bind_unfold. unfold Convert.run_ffmpeg. cbn [files set_files].
  rewrite lookup_insert_eq, Hff.
  replace (status =? 0)%Z with false by (symmetry; apply Z.eqb_neq; exact Hstatus).
  eexists. split; [reflexivity|]. cbn [files set_files log_call].
  destruct written as [out|].
  - rewrite lookup_insert. case_decide; [eauto|]. rewrite lookup_insert_eq. eauto.
  - rewrite lookup_insert_eq. eauto.
Qed.

(** Whatever happens, [webm_to_wav] has started the decoder, and nothing
    else. *)
Lemma webm_to_wav_calls (webm_bytes : bytes) (w : world) :
  calls (fst (Convert.webm_to_wav E webm_bytes w)) =
  calls w ++ [Ffmpeg (String.append (mktemp E (files w)) ".webm")
                     (Py.replace ".webm" ".wav" (String.append (mktemp E (files w)) ".webm"))].
Proof.
  unfold Convert.webm_to_wav. rewrite bind_unfold.
  unfold Convert.named_temporary_file.
  set (webm_path := String.append (mktemp E (files w)) ".webm") in *.
  set (wav_path := Py.replace ".webm" ".wav" webm_path) in *.
  rewrite bind_unfold. unfold Convert.run_ffmpeg. cbn [files set_files].
  destruct (ffmpeg E _) as [written status].
  destruct (status =? 0)%Z; [|reflexivity].
  rewrite bind_unfold. unfold Convert.read_file.
  destruct (files _ !! wav_path); [|reflexivity].
  rewrite bind_unfold. unfold Convert.os_remove at 1.
  destruct (files _ !! webm_path); [|reflexivity].
  rewrite bind_unfold. unfold Convert.os_remove.
  destruct (files _ !! wav_path); reflexivity.
Qed.

End TemporaryFiles.


(** ** The class probabilities of the response *)

Section Probabilities.
Local Open Scope Q_scope.



(** The dictionary comprehension over the class catalog, on a vector as
    long as the catalog. *)
Lemma probabilities_combine (a : list Q) :
  length a = length Inference.CLASSES ->
  map (fun i => (nth i Inference.CLASSES "", Py.round (nth i a 0) 4))
      (seq 0 (length Inference.CLASSES)) =
  combine Inference.CLASSES (map (fun x => Py.round x 4) a).
Proof.
  intros Hlen.
  destruct a as [|x0 [|x1 [|x2 [|x3 [|x4 [|x5 [|x6 [|x7 [|x8 [|x9 a]]]]]]]]]];
    try discriminate Hlen.
  reflexivity.
Qed.


Section WithCollaborators.
Context (E : collaborators).


End WithCollaborators.
End Probabilities.

(** ** The length of the audio buffer *)

Section AudioLength.

Lemma target_len_eq (sr : nat) : Preprocess.target_len sr = 3 * sr.
Proof.
  unfold Preprocess.target_len, Preprocess.TARGET_DURATION, Py.int, Qmult, inject_Z.
  cbn [Qnum Qden]. change (Z.pos (10 * 1)) with 10%Z.
  rewrite Z.quot_div_nonneg by lia.
  replace (30 * Z.of_nat sr)%Z with (Z.of_nat (3 * sr) * 10)%Z by lia.
  rewrite Z.div_mul by lia. apply Nat2Z.id.
Qed.

(** C5, as the code has it: the buffer that leaves the length fix has exactly
    [TARGET_DURATION * sr] samples, three seconds' worth.  A shorter buffer
    is followed by zeros up to that length; a buffer at least that long is
    truncated at its end: its first [TARGET_DURATION * sr] samples are kept
    and the samples after them are dropped. *)
Theorem fix_length_pads_or_truncates (sr : nat) (y : list Q) :
  inject_Z (Z.of_nat (Preprocess.target_len sr))
    == (Preprocess.TARGET_DURATION * inject_Z (Z.of_nat sr))%Q /\
  length (Preprocess.fix_length sr y) = Preprocess.target_len sr /\
  (length y < Preprocess.target_len sr ->
     Preprocess.fix_length sr y =
       y ++ replicate (Preprocess.target_len sr - length y) 0%Q) /\
  (Preprocess.target_len sr <= length y ->
     Preprocess.fix_length sr y = take (Preprocess.target_len sr) y /\
     exists dropped, y = Preprocess.fix_length sr y ++ dropped).
Proof.
  split; [|split; [|split]].
  - rewrite target_len_eq. unfold Preprocess.TARGET_DURATION.
    rewrite Nat2Z.inj_mul, inject_Z_mult. change (inject_Z (Z.of_nat 3)) with 3%Q.
    set (x := inject_Z (Z.of_nat sr)). lra.
  - unfold Preprocess.fix_length.
    destruct (length y <? Preprocess.target_len sr) eqn:Hlt.
    + apply Nat.ltb_lt in Hlt. rewrite length_app, length_replicate. lia.
    + apply Nat.ltb_ge in Hlt. rewrite length_take. lia.
  - intros Hlt. unfold Preprocess.fix_length.
    replace (length y <? Preprocess.target_len sr) with true
      by (symmetry; apply Nat.ltb_lt; exact Hlt).
    reflexivity.
  - intros Hge. unfold Preprocess.fix_length.
    replace (length y <? Preprocess.target_len sr) with false
      by (symmetry; apply Nat.ltb_ge; exact Hge).
    split; [reflexivity|].
    exists (drop (Preprocess.target_len sr) y). symmetry. apply take_drop.
Qed.

(** C5, refuted as stated: of five samples at one sample per second the
    first three are kept and the last two are dropped; nothing is cut from
    the start, so the result is not the last three samples. *)
Lemma truncation_keeps_the_start :
  (Preprocess.target_len 1 < length [1; 2; 3; 4; 5]%Q)%nat /\
  Preprocess.fix_length 1 [1; 2; 3; 4; 5]%Q = [1; 2; 3]%Q /\
  drop (length [1; 2; 3; 4; 5]%Q - Preprocess.target_len 1) [1; 2; 3; 4; 5]%Q
    = [3; 4; 5]%Q /\
  Preprocess.fix_length 1 [1; 2; 3; 4; 5]%Q
    <> drop (length [1; 2; 3; 4; 5]%Q - Preprocess.target_len 1) [1; 2; 3; 4; 5]%Q.
Proof.
  split; [vm_compute; lia|]. split; [reflexivity|]. split; [reflexivity|].
  intros H. vm_compute in H. discriminate H.
Qed.

Example fix_length_samples :
  Preprocess.fix_length 1 [1; 2]%Q = [1; 2; 0]%Q /\
  Preprocess.fix_length 1 [1; 2; 3; 4; 5]%Q = [1; 2; 3]%Q /\
  Preprocess.fix_length 1 [1; 2; 3]%Q = [1; 2; 3]%Q.
Proof. repeat split; reflexivity. Qed.

End AudioLength.

(** ** The mode of a request *)

Section Mode.
Context (E : collaborators).

(** The variant at the repository root checks the mode first: any other
    value is answered with status 400 and the world is left as it was. *)
Lemma app_rejects_invalid_mode (file : upload) (mode : string) (w : world) :
  mode <> "quick" -> mode <> "deep" ->
  App.analyze_audio E file mode w =
    (w, inl (HTTPException 400 "Mode harus 'quick' atau 'deep'")).
Proof.
  intros Hq Hd. unfold App.analyze_audio.
  rewrite bool_decide_eq_false_2; [reflexivity|].
  intros Hin. apply elem_of_cons in Hin. destruct Hin as [Hin|Hin]; [congruence|].
  apply elem_of_cons in Hin. destruct Hin as [Hin|Hin]; [congruence|].
  apply elem_of_nil in Hin. exact Hin.
Qed.

(** [run_inference] starts the decoder on every input. *)
Lemma run_inference_calls (audio_bytes : bytes) (w : world) :
  exists rest,
    calls (fst (Inference.run_inference E audio_bytes w)) =
    calls w ++
    Ffmpeg (String.append (mktemp E (files w)) ".webm")
           (Py.replace ".webm" ".wav" (String.append (mktemp E (files w)) ".webm"))
    :: rest.
Proof.
  pose proof (webm_to_wav_calls E audio_bytes w) as Hc.
  unfold Inference.run_inference. rewrite bind_unfold.
  destruct (Convert.webm_to_wav E audio_bytes w) as [w1 [e|wav]]; cbn [fst] in *.
  { exists []. exact Hc. }
  rewrite bind_unfold. unfold Preprocess.extract_features.
  rewrite bind_unfold. unfold library_call at 1.
  destruct (sf_read E wav) as [msg|[y sr]]; cbn [fst calls log_call].
  { eexists. rewrite Hc, <- app_assoc. reflexivity. }
  unfold library_call at 1.
  destruct (mfcc_image E _ sr) as [msg|feats]; cbn [fst calls log_call].
  { eexists. rewrite Hc, <- !app_assoc. reflexivity. }
  rewrite bind_unfold. unfold Inference.predict, library_call.
  destruct (keras_predict E feats) as [msg|out]; cbn [fst calls log_call].
  { eexists. rewrite Hc, <- !app_assoc. reflexivity. }
  destruct (negb _ || negb _); unfold raise, mret, M_ret; cbn [fst calls log_call];
    eexists; rewrite Hc, <- !app_assoc; reflexivity.
Qed.

(** The handler of the backend never looks at the mode before it works: on
    every mode it starts the decoder and answers with a response that carries
    the mode as it came. *)
Lemma backend_accepts_any_mode (file : upload) (mode : string) (w : world) :
  exists w' r rest,
    Backend.analyze_audio E file mode w = (w', inr r) /\
    Backend.mode r = mode /\
    length (Backend.vibrationData r) = (if String.eqb mode "quick" then 100 else 300) /\
    calls w' =
      calls w ++
      Ffmpeg (String.append (mktemp E (files w)) ".webm")
             (Py.replace ".webm" ".wav" (String.append (mktemp E (files w)) ".webm"))
      :: rest.
Proof.
  destruct (run_inference_calls (content file) w) as [rest Hc].
  rewrite analyze_audio_unfold.
  destruct (Inference.run_inference E (content file) w) as [w1 r1]. cbn [fst] in Hc.
  assert (Hd : forall p, exists w' r,
             Backend.diagnose E p mode w1 = (w', inr r) /\
             Backend.mode r = mode /\
             length (Backend.vibrationData r) = (if String.eqb mode "quick" then 100 else 300) /\
             calls w' = calls w1).
  { intros [[label c] ps].
    destruct (diagnose_spec E label c ps mode w1) as (w' & r & H & _ & _ & _ & _ & Hm & Hv & _).
    exists w', r. split; [exact H|]. split; [exact Hm|].
    pose proof (generate_vibration_data_length E
                  (if String.eqb mode "quick" then 100 else 300) w1) as Hl.
    rewrite generate_vibration_data_spec in Hv, Hl. cbn [snd] in Hl.
    injection Hv as -> ->. split; [exact Hl|reflexivity]. }
  destruct r1 as [e|p].
  - destruct (Hd ("unknown", 0%Q, [])) as (w' & r & H & Hm & Hl & Hcalls).
    exists w', r, rest. rewrite Hcalls, Hc. auto.
  - destruct (Hd p) as (w' & r & H & Hm & Hl & Hcalls).
    exists w', r, rest. rewrite Hcalls, Hc. auto.
Qed.

End Mode.

(** ** Runs on concrete collaborators *)

Section Runs.
Local Open Scope Q_scope.

(** Evaluates a run recorded in [H : run = (w, outcome)]. *)
Ltac evaluate H :=
  vm_compute in H;
  first [ discriminate H
        | let Hw := fresh in let Hr := fresh in
          injection H as Hw Hr; subst ].

(** C1, refuted as stated: the decoder exits with status 1, [webm_to_wav]
    raises, and the handler reports no failure: it answers with class
    "normal" and health 90. *)
Lemma failed_decode_answers_normal :
  (exists w1,
     Convert.webm_to_wav Fixture.bad_decoder (content Fixture.clip_file) Fixture.w0
     = (w1, inl (CalledProcessError 1))) /\
  ~ (exists w' e,
       Backend.analyze_audio Fixture.bad_decoder Fixture.clip_file "quick" Fixture.w0
       = (w', inl e)) /\
  exists w' r,
    Backend.analyze_audio Fixture.bad_decoder Fixture.clip_file "quick" Fixture.w0
    = (w', inr r) /\
    Backend.detectedClass r = "normal" /\
    Backend.issues r = [] /\
    Backend.overallHealth r = 90%Z.
Proof.
  split; [|split].
  - destruct (Convert.webm_to_wav Fixture.bad_decoder (content Fixture.clip_file) Fixture.w0)
      as [w1 [e|b]] eqn:H; evaluate H. eexists. reflexivity.
  - intros (w' & e & H).
    destruct (analyze_audio_returns Fixture.bad_decoder Fixture.clip_file "quick" Fixture.w0)
      as (w'' & r & Hr).
    rewrite Hr in H. discriminate H.
  - destruct (Inference.run_inference Fixture.bad_decoder (content Fixture.clip_file) Fixture.w0)
      as [w1 [e|p]] eqn:Hrun; [|vm_compute in Hrun; discriminate Hrun].
    destruct (handler_absorbs Fixture.bad_decoder Fixture.clip_file "quick" _ _ _ Hrun)
      as (w' & r & H & Hc & _ & _ & Hi & Hh).
    exists w', r. auto.
Qed.

(** The same on a model that answers two scores for nine classes. *)
Example short_model_answers_normal :
  (exists w1,
     Inference.run_inference Fixture.short_model (content Fixture.clip_file) Fixture.w0
     = (w1, inl (ValueError [2%nat]))) /\
  exists w' r,
    Backend.analyze_audio Fixture.short_model Fixture.clip_file "quick" Fixture.w0
    = (w', inr r) /\
    Backend.detectedClass r = "normal" /\
    Backend.overallHealth r = 90%Z.
Proof.
  destruct (Inference.run_inference Fixture.short_model (content Fixture.clip_file) Fixture.w0)
    as [w1 [e|p]] eqn:Hrun; [|vm_compute in Hrun; discriminate Hrun].
  destruct (handler_absorbs Fixture.short_model Fixture.clip_file "quick" _ _ _ Hrun)
    as (w' & r & H & Hc & _ & _ & _ & Hh).
  split; [|exists w', r; auto].
  vm_compute in Hrun. injection Hrun as <- <-. eexists. reflexivity.
Qed.

(** The absorbed failure on the decoder that exits with status 1. *)
Lemma inference_failure_is_absorbed_witness :
  (exists w1 e,
     Convert.webm_to_wav Fixture.bad_decoder (content Fixture.clip_file) Fixture.w0
     = (w1, inl e)) /\
  exists w' r,
    Backend.analyze_audio Fixture.bad_decoder Fixture.clip_file "deep" Fixture.w0
    = (w', inr r) /\
    Backend.detectedClass r = "normal" /\
    Backend.confidence r == 0 /\
    Backend.classProbabilities r = [] /\
    Backend.issues r = [] /\
    Backend.overallHealth r = 90%Z.
Proof.
  assert (H : exists w1 e,
    Convert.webm_to_wav Fixture.bad_decoder (content Fixture.clip_file) Fixture.w0
    = (w1, inl e)).
  { eexists _, _. vm_compute. reflexivity. }
  split; [exact H|].
  exact (proj2 (inference_failure_is_absorbed Fixture.bad_decoder Fixture.clip_file
                  "deep" Fixture.w0 (or_introl H))).
Defined.



(** C6 on the backend: a request with mode "fast" is not rejected.  The
    decoder, the sound file reader, the feature transform and the model all
    run, and the answer is a response with mode "fast" and the 300 points of
    a deep scan. *)
Theorem invalid_mode_is_analysed :
  exists w' r,
    Backend.analyze_audio Fixture.good Fixture.clip_file "fast" Fixture.w0 = (w', inr r) /\
    calls w' = [Ffmpeg "/tmp/tmpk3v9.webm" "/tmp/tmpk3v9.wav"; SfRead; Mfcc; Predict] /\
    Backend.mode r = "fast" /\
    Backend.detectedClass r = "knocking" /\
    length (Backend.vibrationData r) = 300%nat.
Proof.
  destruct (Inference.run_inference Fixture.good (content Fixture.clip_file) Fixture.w0)
    as [w1 [e|[[label c] ps]]] eqn:Hrun; [vm_compute in Hrun; discriminate Hrun|].
  destruct (handler_diagnoses Fixture.good Fixture.clip_file "fast" _ _ _ _ _ Hrun)
    as (w' & r & H & Hv & _ & _ & Hm & Hl & Hcalls).
  vm_compute in Hrun. injection Hrun as <- <- <- <-.
  assert (Hcls : Backend.detectedClass r = "knocking").
  { change (Backend.detectedClass r)
      with (snd (Backend.issues r, Backend.detectedClass r)).
    rewrite Hv. vm_compute. reflexivity. }
  exists w', r. split; [exact H|]. repeat split.
  - rewrite Hcalls. reflexivity.
  - exact Hm.
  - exact Hcls.
  - exact Hl.
Qed.

(** The variant at the repository root rejects the same request. *)
Example app_rejects_fast :
  App.analyze_audio Fixture.good Fixture.clip_file "fast" Fixture.w0 =
  (Fixture.w0, inl (HTTPException 400 "Mode harus 'quick' atau 'deep'")).
Proof. apply app_rejects_invalid_mode; discriminate. Qed.

(** C7 on a failing decoder: [webm_to_wav] raises [CalledProcessError] with
    the exit status, and the temporary input file is still on disk. *)
Theorem failed_decode_leaves_temp_file :
  exists w',
    Convert.webm_to_wav Fixture.bad_decoder [Byte.x00] Fixture.w0
    = (w', inl (CalledProcessError 1)) /\
    files Fixture.w0 !! "/tmp/tmpk3v9.webm" = None /\
    files w' !! "/tmp/tmpk3v9.webm" = Some [Byte.x00].
Proof.
  destruct (Convert.webm_to_wav Fixture.bad_decoder [Byte.x00] Fixture.w0)
    as [w' [e|b]] eqn:H; evaluate H.
  eexists. split; [reflexivity|]. split; vm_compute; reflexivity.
Qed.

(** On a decoder that succeeds both files are removed. *)
Example good_decode_removes_temp_files :
  exists w',
    Convert.webm_to_wav Fixture.good [Byte.x00] Fixture.w0 = (w', inr [Byte.x01]) /\
    files w' = ∅.
Proof.
  destruct (Convert.webm_to_wav Fixture.good [Byte.x00] Fixture.w0)
    as [w' [e|b]] eqn:H; evaluate H.
  eexists. split; reflexivity.
Qed.

(** C8, refuted as stated: the decision run twice in a row on the same
    prediction and mode gives two different vibration series. *)
Lemma rerun_changes_vibration :
  exists w1 r1 w2 r2,
    Backend.diagnose Fixture.good (Inference.label_scores Fixture.knocking_061)
      "quick" Fixture.w0 = (w1, inr r1) /\
    Backend.diagnose Fixture.good (Inference.label_scores Fixture.knocking_061)
      "quick" w1 = (w2, inr r2) /\
    Backend.vibrationData r1 <> Backend.vibrationData r2 /\
    r1 <> r2.
Proof.
  destruct (Inference.label_scores Fixture.knocking_061) as [[label c] ps].
  destruct (diagnose_spec Fixture.good label c ps "quick" Fixture.w0)
    as (w1 & r1 & H1 & _ & _ & _ & _ & _ & Hv1 & _).
  destruct (diagnose_spec Fixture.good label c ps "quick" w1)
    as (w2 & r2 & H2 & _ & _ & _ & _ & _ & Hv2 & _).
  exists w1, r1, w2, r2. split; [exact H1|]. split; [exact H2|].
  rewrite generate_vibration_data_spec in Hv1, Hv2.
  injection Hv1 as Hw1 Hd1. injection Hv2 as _ Hd2.
  assert (Hne : Backend.vibrationData r1 <> Backend.vibrationData r2).
  { rewrite Hd1, Hd2, Hw1. cbn [draws]. intros Heq.
    apply (f_equal (fun l => match l with
                             | p :: _ => Vibration.amplitude p
                             | [] => 0
                             end)) in Heq.
    vm_compute in Heq. discriminate Heq. }
  split; [exact Hne|]. intros Heq. apply Hne. rewrite Heq. reflexivity.
Qed.

(** A vector that peaks at "serpentine_belt" with score 0.90. *)
Lemma unmapped_classes_report_normal_witness :
  fst (fst (Inference.label_scores Fixture.belt_090)) = "serpentine_belt" /\
  exists w' r,
    Backend.diagnose Fixture.good (Inference.label_scores Fixture.belt_090)
      "quick" Fixture.w0 = (w', inr r) /\
    Backend.detectedClass r = "normal" /\
    Backend.issues r = [] /\
    (90 <= Backend.overallHealth r <= 100)%Z.
Proof.
  assert (H : fst (fst (Inference.label_scores Fixture.belt_090)) = "serpentine_belt")
    by (vm_compute; reflexivity).
  split; [exact H|].
  exact (proj2 (proj2 (unmapped_classes_report_normal Fixture.good Fixture.belt_090
                         "quick" Fixture.w0 (or_intror (or_intror H))))).
Defined.

(** The gate on "knocking", on both sides of the threshold. *)
Example knocking_gate_samples :
  Backend.validation "knocking" 0.59 = ([], "normal") /\
  Backend.validation "knocking" 0.60 =
    ([<["id" := "knocking"]> (Backend.ISSUE_MAP !!! "knocking")], "knocking") /\
  Backend.validation "knocking" 0.61 =
    ([<["id" := "knocking"]> (Backend.ISSUE_MAP !!! "knocking")], "knocking") /\
  Backend.validation "serpentine_belt" 0.99 = ([], "normal").
Proof. repeat split; vm_compute; reflexivity. Qed.

(** Two samples at one sample per second are padded to three. *)
Lemma fix_length_pads_or_truncates_witness :
  (length [1; 2] < Preprocess.target_len 1)%nat /\
  length (Preprocess.fix_length 1 [1; 2]) = Preprocess.target_len 1 /\
  Preprocess.fix_length 1 [1; 2] = [1; 2] ++ replicate (Preprocess.target_len 1 - 2) 0.
Proof.
  assert (H : (length [1; 2] < Preprocess.target_len 1)%nat) by (vm_compute; lia).
  split; [exact H|].
  destruct (fix_length_pads_or_truncates 1 [1; 2]) as (_ & Hlen & Hpad & _).
  split; [exact Hlen|exact (Hpad H)].
Defined.

(** The gap between 40 and 90 on a request that decodes and is classified. *)
Lemma health_is_bimodal_witness :
  exists w' r,
    Backend.analyze_audio Fixture.good Fixture.clip_file "quick" Fixture.w0 = (w', inr r) /\
    ~ (40 < Backend.overallHealth r < 90)%Z.
Proof.
  destruct (health_is_bimodal Fixture.good Fixture.clip_file "quick" Fixture.w0)
    as (w' & r & Hr & _ & _ & Hgap).
  exists w', r. split; [exact Hr|exact Hgap].
Defined.

(** Two runs in a row agree on everything but the amplitudes. *)
Lemma decision_is_deterministic_up_to_jitter_witness :
  exists w1' r1 w2' r2,
    Backend.diagnose Fixture.good (Inference.label_scores Fixture.knocking_061)
      "deep" Fixture.w0 = (w1', inr r1) /\
    Backend.diagnose Fixture.good (Inference.label_scores Fixture.knocking_061)
      "deep" w1' = (w2', inr r2) /\
    Backend.overallHealth r1 = Backend.overallHealth r2 /\
    Backend.issues r1 = Backend.issues r2 /\
    map Vibration.frequency (Backend.vibrationData r1) =
      map Vibration.frequency (Backend.vibrationData r2).
Proof.
  destruct (Backend.diagnose Fixture.good (Inference.label_scores Fixture.knocking_061)
              "deep" Fixture.w0) as [wa ra] eqn:Ha.
  destruct (decision_is_deterministic_up_to_jitter Fixture.good
              (Inference.label_scores Fixture.knocking_061) "deep" Fixture.w0 wa)
    as (w1' & r1 & w2' & r2 & H1 & H2 & Hh & _ & _ & _ & Hi & _ & _ & _ & _ & Hf & _).
  rewrite Ha in H1. injection H1 as -> ->.
  exists w1', r1, w2', r2. repeat split; assumption.
Defined.

End Runs.

(** * Further properties of the code *)

(** ** Rounding *)

Section Rounding.
Local Open Scope Q_scope.

Lemma round_half_even_bounds (x : Q) :
  (Qfloor x <= Py.round_half_even x <= Qfloor x + 1)%Z.
Proof.
  unfold Py.round_half_even.
  destruct (x - inject_Z (Qfloor x) ?= 1 # 2); [destruct (Z.even (Qfloor x))| |]; lia.
Qed.

(** A number that is an integer rounds to itself. *)
Lemma round_half_even_integer (x : Q) (z : Z) :
  x == inject_Z z -> Py.round_half_even x = z.
Proof.
  intros Hx. unfold Py.round_half_even.
  assert (Hf : Qfloor x = z) by (rewrite (Qfloor_comp _ _ Hx); apply Qfloor_Z).
  rewrite Hf.
  destruct (x - inject_Z z ?= 1 # 2) eqn:Hc; [exfalso| reflexivity |exfalso].
  - apply Qeq_alt in Hc. lra.
  - apply Qgt_alt in Hc. lra.
Qed.

Lemma round_half_even_monotone (x y : Q) :
  x <= y -> (Py.round_half_even x <= Py.round_half_even y)%Z.
Proof.
  intros Hxy. pose proof (Qfloor_resp_le x y Hxy) as Hf.
  pose proof (round_half_even_bounds x) as Hbx.
  pose proof (round_half_even_bounds y) as Hby.
  destruct (Z.eq_dec (Qfloor x) (Qfloor y)) as [Heq|Hne]; [|lia].
  clear Hbx Hby. unfold Py.round_half_even. rewrite <- Heq.
  destruct (x - inject_Z (Qfloor x) ?= 1 # 2) eqn:Hcx;
    destruct (y - inject_Z (Qfloor x) ?= 1 # 2) eqn:Hcy;
    try (destruct (Z.even (Qfloor x)); lia); try lia; exfalso.
  - apply Qeq_alt in Hcx. apply Qlt_alt in Hcy. lra.
  - apply Qgt_alt in Hcx. apply Qeq_alt in Hcy. lra.
  - apply Qgt_alt in Hcx. apply Qlt_alt in Hcy. lra.
Qed.

Lemma pow10_pos (n : nat) : 0 < inject_Z (10 ^ Z.of_nat n).
Proof.
  change 0 with (inject_Z 0). rewrite <- Zlt_Qlt. apply Z.pow_pos_nonneg; lia.
Qed.

(** [round(x, n)] never reverses an order. *)
Lemma round_monotone (x y : Q) (n : nat) :
  x <= y -> Py.round x n <= Py.round y n.
Proof.
  intros Hxy. unfold Py.round. pose proof (pow10_pos n) as Hs.
  set (s := inject_Z (10 ^ Z.of_nat n)) in *.
  apply Qmult_le_compat_r.
  - rewrite <- Zle_Qle. apply round_half_even_monotone.
    apply Qmult_le_compat_r; [exact Hxy|lra].
  - apply Qlt_le_weak, Qinv_lt_0_compat. exact Hs.
Qed.

(** A multiple of the last kept decimal is left as it is. *)
Lemma round_exact (x : Q) (n : nat) (z : Z) :
  x * inject_Z (10 ^ Z.of_nat n) == inject_Z z -> Py.round x n == x.
Proof.
  intros Hx. unfold Py.round. pose proof (pow10_pos n) as Hs.
  rewrite (round_half_even_integer _ _ Hx), <- Hx.
  field. lra.
Qed.

Lemma round4_unit_interval (x : Q) : 0 <= x <= 1 -> 0 <= Py.round x 4 <= 1.
Proof.
  intros [H0 H1]. split.
  - apply Qle_trans with (Py.round 0 4); [vm_compute; discriminate|].
    apply round_monotone. exact H0.
  - apply Qle_trans with (Py.round 1 4); [|vm_compute; discriminate].
    apply round_monotone. exact H1.
Qed.

End Rounding.

(** ** More on [webm_to_wav] *)

Section ConvertMore.
Context (E : collaborators).

(** The world [webm_to_wav] leaves when the decoder exits with status 0 and
    has written its output. *)
Lemma webm_to_wav_success_world (webm_bytes wav : bytes) (w : world) :
  ffmpeg E (Some webm_bytes) = (Some wav, 0%Z) ->
  Convert.webm_to_wav E webm_bytes w =
  (let webm_path := String.append (mktemp E (files w)) ".webm" in
   let wav_path := Py.replace ".webm" ".wav" webm_path in
   (log_call (Ffmpeg webm_path wav_path)
      (set_files (fun fs => delete wav_path (delete webm_path
                   (<[wav_path := wav]> (<[webm_path := webm_bytes]> fs)))) w),
    inr wav)).
Proof.
  intros Hff. pose proof (wav_path_fresh (mktemp E (files w))) as Hne.
  unfold Convert.webm_to_wav. rewrite bind_unfold.
  unfold Convert.named_temporary_file.
  set (webm_path := String.append (mktemp E (files w)) ".webm") in *.
  set (wav_path := Py.replace ".webm" ".wav" webm_path) in *.
  rewrite bind_unfold. unfold Convert.run_ffmpeg. cbn [files set_files].
  rewrite lookup_insert_eq, Hff. cbn [Z.eqb].
  rewrite bind_unfold. unfold Convert.read_file. cbn [files set_files log_call].
  rewrite lookup_insert_eq.
  rewrite bind_unfold. unfold Convert.os_remove at 1. cbn [files set_files log_call].
  rewrite lookup_insert_ne by exact Hne. rewrite lookup_insert_eq.
  rewrite bind_unfold. unfold Convert.os_remove. cbn [files set_files log_call].
  rewrite lookup_delete_ne by (intros Heq; apply Hne; symmetry; exact Heq).
  rewrite lookup_insert_eq. reflexivity.
Qed.

(** X1: when the two temporary names are free and the decoder exits with
    status 0 after writing its output, [webm_to_wav] returns exactly what the
    decoder wrote and leaves the file system exactly as it found it; the
    only trace is the one decoder run. *)
Theorem webm_to_wav_restores_files (webm_bytes wav : bytes) (w : world) :
  ffmpeg E (Some webm_bytes) = (Some wav, 0%Z) ->
  files w !! String.append (mktemp E (files w)) ".webm" = None ->
  files w !! Py.replace ".webm" ".wav" (String.append (mktemp E (files w)) ".webm") = None ->
  exists w',
    Convert.webm_to_wav E webm_bytes w = (w', inr wav) /\
    files w' = files w /\
    calls w' = calls w ++
      [Ffmpeg (String.append (mktemp E (files w)) ".webm")
              (Py.replace ".webm" ".wav" (String.append (mktemp E (files w)) ".webm"))] /\
    draws w' = draws w /\
    clock w' = clock w.
Proof.
  intros Hff Hwebm Hwav. pose proof (wav_path_fresh (mktemp E (files w))) as Hne.
  rewrite (webm_to_wav_success_world _ _ _ Hff). cbv zeta.
  eexists. split; [reflexivity|]. cbn [files calls draws clock set_files log_call].
  repeat split.
  rewrite delete_insert_ne by (intros Heq; apply Hne; symmetry; exact Heq).
  rewrite (delete_insert_id (files w) _ webm_bytes Hwebm).
  apply delete_insert_id. exact Hwav.
Qed.

(** X2: with a free name for the output file, [webm_to_wav] returns some
    bytes exactly when the decoder exits with status 0 and has written those
    bytes; on any other status it raises [CalledProcessError] with that
    status, and on status 0 without an output file it raises
    [FileNotFoundError] for the output name. *)
Theorem webm_to_wav_outcome (webm_bytes : bytes) (w : world) :
  files w !! Py.replace ".webm" ".wav" (String.append (mktemp E (files w)) ".webm") = None ->
  snd (Convert.webm_to_wav E webm_bytes w) =
  match ffmpeg E (Some webm_bytes) with
  | (Some wav, 0%Z) => inr wav
  | (None, 0%Z) =>
      inl (FileNotFoundError
             (Py.replace ".webm" ".wav" (String.append (mktemp E (files w)) ".webm")))
  | (_, status) => inl (CalledProcessError status)
  end.
Proof.
  intros Hwav. pose proof (wav_path_fresh (mktemp E (files w))) as Hne.
  destruct (ffmpeg E (Some webm_bytes)) as [written status] eqn:Hff.
  destruct (Z.eq_dec status 0%Z) as [->|Hs].
  - destruct written as [wav|].
    + rewrite (webm_to_wav_success_world _ _ _ Hff). reflexivity.
    + unfold Convert.webm_to_wav. rewrite bind_unfold.
      unfold Convert.named_temporary_file.
      set (webm_path := String.append (mktemp E (files w)) ".webm") in *.
      set (wav_path := Py.replace ".webm" ".wav" webm_path) in *.
      rewrite bind_unfold. unfold Convert.run_ffmpeg. cbn [files set_files].
      rewrite lookup_insert_eq, Hff. cbn [Z.eqb].
      rewrite bind_unfold. unfold Convert.read_file. cbn [files set_files log_call].
      rewrite lookup_insert_ne by (intros Heq; apply Hne; symmetry; exact Heq).
      rewrite Hwav. reflexivity.
  - destruct (webm_to_wav_failure E webm_bytes w written status Hff Hs) as (w' & Hr & _).
    rewrite Hr. cbn [snd]. destruct written, status; try reflexivity; congruence.
Qed.

End ConvertMore.

(** ** More on the audio buffer *)

Section PreprocessMore.
Context (E : collaborators).

Lemma fix_length_length (sr : nat) (y : list Q) :
  length (Preprocess.fix_length sr y) = Preprocess.target_len sr.
Proof.
  unfold Preprocess.fix_length.
  destruct (length y <? Preprocess.target_len sr) eqn:Hlt.
  - apply Nat.ltb_lt in Hlt. rewrite length_app, length_replicate. lia.
  - apply Nat.ltb_ge in Hlt. rewrite length_take. lia.
Qed.

(** X3: fixing the length twice is fixing it once; the samples of the
    recording that fall inside the target length stay where they are, and
    every position after the end of the recording holds silence. *)
Theorem fix_length_idempotent (sr : nat) (y : list Q) :
  Preprocess.fix_length sr (Preprocess.fix_length sr y) = Preprocess.fix_length sr y /\
  (forall i, i < length y -> i < Preprocess.target_len sr ->
     Preprocess.fix_length sr y !! i = y !! i) /\
  (forall i, length y <= i -> i < Preprocess.target_len sr ->
     Preprocess.fix_length sr y !! i = Some 0%Q).
Proof.
  split; [|split].
  - pose proof (fix_length_length sr y) as Hlen.
    unfold Preprocess.fix_length at 1. rewrite Hlen, Nat.ltb_irrefl.
    apply take_ge. lia.
  - intros i Hi Ht. unfold Preprocess.fix_length.
    destruct (length y <? Preprocess.target_len sr).
    + apply lookup_app_l. exact Hi.
    + apply lookup_take_lt. exact Ht.
  - intros i Hi Ht. unfold Preprocess.fix_length.
    replace (length y <? Preprocess.target_len sr) with true
      by (symmetry; apply Nat.ltb_lt; lia).
    rewrite lookup_app_r by exact Hi. apply lookup_replicate_2. lia.
Qed.

(** X4: a file that soundfile cannot read ends [extract_features] with the
    library's error before the feature transform is started; a file it can
    read reaches the feature transform as a buffer of exactly three seconds
    at the file's own sample rate, whatever its length and channel count. *)
Theorem extract_features_three_seconds (wav_bytes : bytes) (w : world) :
  match sf_read E wav_bytes with
  | inl msg =>
      Preprocess.extract_features E wav_bytes w
      = (log_call SfRead w, inl (LibraryError msg))
  | inr (y, sr) =>
      exists buffer,
        length buffer = 3 * sr /\
        Preprocess.extract_features E wav_bytes w
        = (log_call Mfcc (log_call SfRead w),
           match mfcc_image E buffer sr with
           | inl msg => inl (LibraryError msg)
           | inr feats => inr feats
           end)
  end.
Proof.
  unfold Preprocess.extract_features. rewrite bind_unfold. unfold library_call.
  destruct (sf_read E wav_bytes) as [msg|[y sr]]; [reflexivity|].
  exists (Preprocess.fix_length sr (Preprocess.to_mono y)). split.
  - rewrite fix_length_length. apply target_len_eq.
  - reflexivity.
Qed.

End PreprocessMore.

(** ** More on the inference *)

Section InferenceMore.
Local Open Scope Q_scope.


Lemma fst_combine_classes (b : list Q) :
  length b = length Inference.CLASSES ->
  map fst (combine Inference.CLASSES b) = Inference.CLASSES.
Proof.
  intros Hlen.
  destruct b as [|x0 [|x1 [|x2 [|x3 [|x4 [|x5 [|x6 [|x7 [|x8 [|x9 b]]]]]]]]]];
    try discriminate Hlen.
  reflexivity.
Qed.

Lemma argmax_normalised_lt (preds : list Q) :
  length preds = length Inference.CLASSES ->
  (Np.argmax (Inference.normalised preds) < length Inference.CLASSES)%nat.
Proof.
  intros Hlen. rewrite <- Hlen, <- (normalised_length preds).
  apply argmax_max. intros Hnil.
  apply (f_equal (@length Q)) in Hnil. rewrite normalised_length, Hlen in Hnil.
  discriminate Hnil.
Qed.



Lemma label_scores_entry (preds : list Q) :
  length preds = length Inference.CLASSES ->
  (list_to_map (snd (Inference.label_scores preds)) : gmap string Q)
    !! fst (fst (Inference.label_scores preds))
  = Some (Py.round (snd (fst (Inference.label_scores preds))) 4) /\
  Forall (fun kv => snd kv <= Py.round (snd (fst (Inference.label_scores preds))) 4)
         (snd (Inference.label_scores preds)).
Proof.
  intros Hlen.
  assert (Hn : length (Inference.normalised preds) = length Inference.CLASSES)
    by (rewrite normalised_length; exact Hlen).
  pose proof (label_scores_confidence_max preds) as Hmax.
  pose proof (argmax_normalised_lt preds Hlen) as Hk.
  rewrite label_scores_unfold in *. cbn [fst snd] in *.
  set (k := Np.argmax (Inference.normalised preds)) in *.
  split.
  - apply elem_of_list_to_map.
    + change (NoDup (map fst
        (map (fun i => (nth i Inference.CLASSES "",
                        Py.round (nth i (Inference.normalised preds) 0) 4))
             (seq 0 (length Inference.CLASSES))))).
      rewrite (probabilities_combine _ Hn).
      rewrite fst_combine_classes by (rewrite length_map; exact Hn).
      exact CLASSES_NoDup.
    + apply list_elem_of_In, in_map_iff. exists k. split; [reflexivity|].
      apply in_seq. lia.
  - apply Forall_forall. intros [key v] Hin. cbn [snd].
    apply list_elem_of_In, in_map_iff in Hin. destruct Hin as (i & Heq & _).
    injection Heq as _ <-. apply round_monotone. apply Hmax.
Qed.

(** X6: in the dictionary of probabilities the entry of the label is the
    confidence rounded to four decimals, and no class has a larger entry. *)
Theorem label_entry_is_rounded_confidence (preds : list Q) :
  length preds = length Inference.CLASSES ->
  (list_to_map (snd (Inference.label_scores preds)) : gmap string Q)
    !! fst (fst (Inference.label_scores preds))
  = Some (Py.round (snd (fst (Inference.label_scores preds))) 4) /\
  Forall (fun kv => snd kv <= Py.round (snd (fst (Inference.label_scores preds))) 4)
         (snd (Inference.label_scores preds)).
Proof. exact (label_scores_entry preds). Qed.




Section WithCollaborators.
Context (E : collaborators).

(** X8: when the model answers one row of nine scores (shape (1, 9), a batch
    of one), [run_inference] reads the scores of that row, in order, and
    returns their label, confidence and probabilities. *)
Theorem run_inference_reads_the_row (audio_bytes wav : bytes) (w w1 w2 : world)
    (feats : features E) (out : Np.ndarray) :
  Convert.webm_to_wav E audio_bytes w = (w1, inr wav) ->
  Preprocess.extract_features E wav w1 = (w2, inr feats) ->
  keras_predict E feats = inr out ->
  Np.shape out = [1; 9]%nat ->
  Inference.run_inference E audio_bytes w =
    (log_call Predict w2,
     inr (Inference.label_scores
            (map (fun j => Np.item out [0; j]%nat) (seq 0 9)))).
Proof.
  intros H1 H2 H3 Hshape. unfold Inference.run_inference.
  rewrite bind_unfold, H1, bind_unfold, H2, bind_unfold.
  unfold Inference.predict, library_call. rewrite H3.
  unfold Np.ndim, Np.len, Np.to_list, Np.squeeze. cbn [Np.shape Np.item].
  rewrite Hshape. reflexivity.
Qed.

End WithCollaborators.
End InferenceMore.

(** ** More on the vibration series *)

Section VibrationMore.
Local Open Scope Q_scope.
Context (E : collaborators).

Lemma time_of_index (i : nat) :
  Py.round (inject_Z (Z.of_nat i) * 0.01) 4 == inject_Z (Z.of_nat i) / 100.
Proof.
  rewrite (round_exact _ 4 (100 * Z.of_nat i)).
  - field.
  - change (inject_Z (10 ^ Z.of_nat 4)) with 10000.
    rewrite inject_Z_mult. change (inject_Z 100) with 100. field.
Qed.

(** X9: [generate_vibration_data(n)] returns exactly [n] points and takes
    exactly [n] draws from the random generator, leaving the rest of the
    world alone; its i-th point has time i/100 and carries the i-th of those
    draws in its amplitude. *)
Theorem vibration_series_shape (n : nat) (w : world) :
  length (snd (Vibration.generate_vibration_data E n w)) = n /\
  draws (fst (Vibration.generate_vibration_data E n w)) = (draws w + n)%nat /\
  files (fst (Vibration.generate_vibration_data E n w)) = files w /\
  calls (fst (Vibration.generate_vibration_data E n w)) = calls w /\
  forall i, (i < n)%nat ->
    exists p,
      snd (Vibration.generate_vibration_data E n w) !! i = Some p /\
      Vibration.time p == inject_Z (Z.of_nat i) / 100 /\
      Vibration.amplitude p =
        np_sin E (inject_Z (Z.of_nat i) * 0.1) + rand E (draws w + i) * 0.3 /\
      Vibration.frequency p = 50 + np_sin E (inject_Z (Z.of_nat i) * 0.05) * 40.
Proof.
  rewrite generate_vibration_data_spec. cbn [fst snd files calls draws].
  split; [rewrite length_map, length_seq; reflexivity|].
  repeat split. intros i Hi.
  exists (Vibration.make_point E i (rand E (draws w + i))). split.
  - rewrite list_lookup_fmap, lookup_seq_lt by exact Hi. reflexivity.
  - cbn [Vibration.make_point Vibration.time Vibration.amplitude Vibration.frequency].
    split; [apply time_of_index|]. split; reflexivity.
Qed.

(** X10: when the sine stays within [-1, 1] and the draws within [0, 1),
    every point of the series has an amplitude in [-1, 1.3), a frequency in
    [10, 90] and a time that is not negative. *)
Theorem vibration_series_bounds (n : nat) (w : world) :
  (forall x, -1 <= np_sin E x <= 1) ->
  (forall k, 0 <= rand E k < 1) ->
  Forall (fun p =>
            -1 <= Vibration.amplitude p /\ Vibration.amplitude p < 1.3 /\
            10 <= Vibration.frequency p /\ Vibration.frequency p <= 90 /\
            0 <= Vibration.time p)
         (snd (Vibration.generate_vibration_data E n w)).
Proof.
  intros Hsin Hrand. rewrite generate_vibration_data_spec. cbn [snd].
  apply Forall_map, Forall_forall. intros i _.
  cbn [Vibration.make_point Vibration.time Vibration.amplitude Vibration.frequency].
  pose proof (Hsin (inject_Z (Z.of_nat i) * 0.1)) as H1.
  pose proof (Hsin (inject_Z (Z.of_nat i) * 0.05)) as H2.
  pose proof (Hrand (draws w + i)%nat) as H3.
  repeat split; try lra.
  rewrite time_of_index.
  assert (0 <= inject_Z (Z.of_nat i)).
  { change 0 with (inject_Z 0). rewrite <- Zle_Qle. lia. }
  apply Qle_shift_div_l; lra.
Qed.

End VibrationMore.

(** ** More on the handler of the backend *)

Section BackendMore.
Local Open Scope Q_scope.

(** Every entry of the issue map has the same four keys. *)
Lemma ISSUE_MAP_entries (label : string) (entry : gmap string string) :
  Backend.ISSUE_MAP !! label = Some entry ->
  dom entry = {[ "severity"; "component"; "description"; "recommendation" ]}.
Proof.
  assert (Hall : map_Forall
            (fun _ (e : gmap string string) =>
               dom e = {[ "severity"; "component"; "description"; "recommendation" ]})
            Backend.ISSUE_MAP).
  { apply (bool_decide_unpack _). vm_compute. exact I. }
  intros H. exact (Hall label entry H).
Qed.

(** X11: the health score never falls when the confidence of "normal"
    rises, and never rises when the confidence of a fault rises. *)
Theorem health_logic_monotone (label : string) (c1 c2 : Q) :
  0 <= c1 -> c1 <= c2 -> c2 <= 1 ->
  (label = "normal" ->
     (Backend.health_logic label c1 <= Backend.health_logic label c2)%Z) /\
  (label <> "normal" ->
     (Backend.health_logic label c2 <= Backend.health_logic label c1)%Z).
Proof.
  intros H0 H12 H1. split.
  - intros ->. rewrite !health_logic_normal, !int_floor by lra.
    apply Qfloor_resp_le. lra.
  - intros Hn. rewrite !(health_logic_fault label _ Hn), !int_floor by lra.
    apply Z.max_le_compat_l, Qfloor_resp_le. lra.
Qed.

Section WithCollaborators.
Context (E : collaborators).

(** The inference touches neither the random generator nor the clock. *)
Lemma run_inference_draws_clock (audio_bytes : bytes) (w : world) :
  draws (fst (Inference.run_inference E audio_bytes w)) = draws w /\
  clock (fst (Inference.run_inference E audio_bytes w)) = clock w.
Proof.
  pose (observe := fun w' : world => (draws w', clock w')).
  assert (Hconv : observe (fst (Convert.webm_to_wav E audio_bytes w)) = observe w).
  { unfold Convert.webm_to_wav. rewrite bind_unfold.
    unfold Convert.named_temporary_file.
    set (webm_path := String.append (mktemp E (files w)) ".webm") in *.
    set (wav_path := Py.replace ".webm" ".wav" webm_path) in *.
    rewrite bind_unfold. unfold Convert.run_ffmpeg. cbn [files set_files].
    destruct (ffmpeg E _) as [written status].
    destruct (status =? 0)%Z; [|reflexivity].
    rewrite bind_unfold. unfold Convert.read_file.
    destruct (files _ !! wav_path); [|reflexivity].
    rewrite bind_unfold. unfold Convert.os_remove at 1.
    destruct (files _ !! webm_path); [|reflexivity].
    rewrite bind_unfold. unfold Convert.os_remove.
    destruct (files _ !! wav_path); reflexivity. }
  assert (Hrun : observe (fst (Inference.run_inference E audio_bytes w)) = observe w).
  { unfold Inference.run_inference. rewrite bind_unfold.
    destruct (Convert.webm_to_wav E audio_bytes w) as [w1 [e|wav]]; cbn [fst] in *;
      [exact Hconv|].
    rewrite <- Hconv.
    rewrite bind_unfold. unfold Preprocess.extract_features.
    rewrite bind_unfold. unfold library_call at 1.
    destruct (sf_read E wav) as [msg|[y sr]]; [reflexivity|].
    unfold library_call at 1.
    destruct (mfcc_image E _ sr) as [msg|feats]; [reflexivity|].
    rewrite bind_unfold. unfold Inference.predict, library_call.
    destruct (keras_predict E feats) as [msg|out]; [reflexivity|].
    destruct (negb _ || negb _); reflexivity. }
  unfold observe in Hrun. injection Hrun as Hd Hc. split; assumption.
Qed.

(** What the handler answers, with its vibration series. *)
Lemma analyze_audio_series (file : upload) (mode : string) (w : world) :
  exists w' r,
    Backend.analyze_audio E file mode w = (w', inr r) /\
    (mode = "quick" -> length (Backend.vibrationData r) = 100%nat) /\
    (mode <> "quick" -> length (Backend.vibrationData r) = 300%nat) /\
    Backend.mode r = mode /\
    Backend.timestamp r = clock w /\
    draws w' = (draws w + length (Backend.vibrationData r))%nat.
Proof.
  destruct (run_inference_draws_clock (content file) w) as [Hdraws Hclock].
  rewrite analyze_audio_unfold.
  destruct (Inference.run_inference E (content file) w) as [w1 r1]. cbn [fst] in *.
  assert (Hd : forall p, exists w' r,
             Backend.diagnose E p mode w1 = (w', inr r) /\
             length (Backend.vibrationData r) = (if String.eqb mode "quick" then 100 else 300)%nat /\
             Backend.mode r = mode /\
             Backend.timestamp r = clock w1 /\
             draws w' = (draws w1 + length (Backend.vibrationData r))%nat).
  { intros [[label c] ps].
    destruct (diagnose_spec E label c ps mode w1)
      as (w' & r & H & _ & _ & _ & _ & Hm & Hv & Ht).
    exists w', r. split; [exact H|].
    rewrite generate_vibration_data_spec in Hv. injection Hv as Hw Hvib.
    rewrite Ht, Hw, Hvib, length_map, length_seq. cbn [draws clock]. auto. }
  assert (Hq : forall r : Backend.response,
             length (Backend.vibrationData r) = (if String.eqb mode "quick" then 100 else 300)%nat ->
             (mode = "quick" -> length (Backend.vibrationData r) = 100%nat) /\
             (mode <> "quick" -> length (Backend.vibrationData r) = 300%nat)).
  { intros r Hl. rewrite Hl. destruct (String.eqb_spec mode "quick"); split; congruence. }
  destruct r1 as [e|p].
  - destruct (Hd ("unknown", 0, [])) as (w' & r & H & Hl & Hm & Ht & Hdr).
    exists w', r. destruct (Hq r Hl). rewrite Ht, Hdr, Hclock, Hdraws. auto 10.
  - destruct (Hd p) as (w' & r & H & Hl & Hm & Ht & Hdr).
    exists w', r. destruct (Hq r Hl). rewrite Ht, Hdr, Hclock, Hdraws. auto 10.
Qed.

(** X12: every response carries 100 vibration points when the mode is
    "quick" and 300 points on every other mode; it echoes the mode, carries
    the time of the clock, and the handler has taken exactly as many draws
    from the random generator as there are points. *)
Theorem vibration_count_by_mode (file : upload) (mode : string) (w w' : world)
    (r : Backend.response) :
  Backend.analyze_audio E file mode w = (w', inr r) ->
  (mode = "quick" -> length (Backend.vibrationData r) = 100%nat) /\
  (mode <> "quick" -> length (Backend.vibrationData r) = 300%nat) /\
  Backend.mode r = mode /\
  Backend.timestamp r = clock w /\
  draws w' = (draws w + length (Backend.vibrationData r))%nat.
Proof.
  intros H.
  destruct (analyze_audio_series file mode w) as (w1 & r1 & H1 & Hrest).
  rewrite H1 in H. injection H as <- <-. exact Hrest.
Qed.

(** X13: the detected class of a response is "normal", with no issue, or one
    of the five keys of the issue map, with exactly one issue: the entry of
    the map under that key, whose five fields are the entry's four and "id".
    It is never "unknown" and never a class outside the issue map. *)
Theorem detected_class_range (file : upload) (mode : string) (w : world) :
  exists w' r,
    Backend.analyze_audio E file mode w = (w', inr r) /\
    ((Backend.detectedClass r = "normal" /\ Backend.issues r = []) \/
     (exists entry,
        Backend.ISSUE_MAP !! Backend.detectedClass r = Some entry /\
        Backend.issues r = [<["id" := Backend.detectedClass r]> entry] /\
        dom (<["id" := Backend.detectedClass r]> entry) =
          {[ "id"; "severity"; "component"; "description"; "recommendation" ]})) /\
    Backend.detectedClass r <> "unknown" /\
    (length (Backend.issues r) <= 1)%nat.
Proof.
  rewrite analyze_audio_unfold.
  assert (Hd : forall label c ps w1, exists w' r,
    Backend.diagnose E (label, c, ps) mode w1 = (w', inr r) /\
    ((Backend.detectedClass r = "normal" /\ Backend.issues r = []) \/
     (exists entry,
        Backend.ISSUE_MAP !! Backend.detectedClass r = Some entry /\
        Backend.issues r = [<["id" := Backend.detectedClass r]> entry] /\
        dom (<["id" := Backend.detectedClass r]> entry) =
          {[ "id"; "severity"; "component"; "description"; "recommendation" ]})) /\
    Backend.detectedClass r <> "unknown" /\
    (length (Backend.issues r) <= 1)%nat).
  { intros label c ps w1.
    destruct (diagnose_spec E label c ps mode w1) as (w' & r & H & Hv & _).
    exists w', r. split; [exact H|].
    assert (Hdec : (label ∈ dom Backend.ISSUE_MAP /\ 0.60 <= c) \/
                   ~ (label ∈ dom Backend.ISSUE_MAP /\ 0.60 <= c)).
    { destruct (decide (label ∈ dom Backend.ISSUE_MAP)) as [Hin|Hout];
        [|right; intros [Hin _]; exact (Hout Hin)].
      destruct (Qlt_le_dec c 0.60) as [Hlt|Hle]; [right; intros [_ Hc]; lra|left; auto]. }
    destruct Hdec as [[Hin Hc]|Hno].
    - destruct (validation_accept label c Hin Hc) as (entry & Hentry & Heq).
      rewrite Heq in Hv. injection Hv as Hi Hcls. rewrite Hi, Hcls. split; [|split].
      + right. exists entry. split; [exact Hentry|]. split; [reflexivity|].
        rewrite dom_insert_L, (ISSUE_MAP_entries _ _ Hentry). reflexivity.
      + intros ->. revert Hin. apply (bool_decide_unpack _). vm_compute. exact I.
      + cbn. lia.
    - rewrite (validation_reject label c Hno) in Hv. injection Hv as Hi Hcls.
      rewrite Hi, Hcls. split; [left; auto|]. split; [discriminate|cbn; lia]. }
  destruct (Inference.run_inference E (content file) w) as [w1 [e|[[label c] ps]]];
    apply Hd.
Qed.

End WithCollaborators.
End BackendMore.

(** ** The confidence of a reported fault *)

Section ReportedFault.
Local Open Scope Q_scope.
Context (E : collaborators).


End ReportedFault.

(** ** The handler at the repository root *)

Section AppMore.
Context (E : collaborators).

Lemma mode_in_list (mode : string) :
  mode ∈ ["quick"; "deep"] <-> mode = "quick" \/ mode = "deep".
Proof.
  rewrite !elem_of_cons. split.
  - intros [H|[H|H]]; auto. apply elem_of_nil in H. destruct H.
  - intros [H|H]; auto.
Qed.

(** X15: every failure of the handler is one of six.  Five are
    [HTTPException]s: the mode is neither "quick" nor "deep" (400), the file
    has no name (400), the payload is larger than 50 MiB (413) - these three
    before any work, the world is untouched - pydub cannot open the audio
    (400), or librosa cannot read what pydub exported (400); the last two
    carry the library's message.  The sixth is whatever [audio.export]
    raises: it runs outside the two [try] blocks and its exception leaves
    the handler unchanged, not as an [HTTPException]. *)
Theorem app_failures (file : upload) (mode : string) (w w' : world) (e : exn) :
  App.analyze_audio E file mode w = (w', inl e) ->
  (w' = w /\ mode <> "quick" /\ mode <> "deep" /\
   e = HTTPException 400 "Mode harus 'quick' atau 'deep'") \/
  (w' = w /\ (filename file = None \/ filename file = Some "") /\
   e = HTTPException 400 "File tidak valid") \/
  (w' = w /\ (50 * 1024 * 1024 < Z.of_nat (length (content file)))%Z /\
   e = HTTPException 413 "File terlalu besar (max 50MB)") \/
  (exists format msg,
     pydub_from_file E (content file) format = inl msg /\
     calls w' = calls w ++ [PydubFromFile format] /\
     e = HTTPException 400 (String.append "Cannot open audio: " msg)) \/
  (exists format audio msg,
     pydub_from_file E (content file) format = inr audio /\
     pydub_export E audio = inl msg /\
     calls w' = calls w ++ [PydubFromFile format; PydubExport] /\
     e = LibraryError msg) \/
  (exists format audio wav msg,
     pydub_from_file E (content file) format = inr audio /\
     pydub_export E audio = inr wav /\
     librosa_load E wav = inl msg /\
     calls w' = calls w ++ [PydubFromFile format; PydubExport; LibrosaLoad] /\
     e = HTTPException 400 (String.append "Cannot read audio: " msg)).
Proof.
  unfold App.analyze_audio.
  destruct (bool_decide (mode ∈ ["quick"; "deep"])) eqn:Hmode; cbn [negb].
  2:{ intros H. injection H as <- <-. left.
      apply bool_decide_eq_false_1 in Hmode. rewrite mode_in_list in Hmode.
      repeat split; auto. }
  destruct (filename file) as [[|c name]|] eqn:Hname.
  - intros H. injection H as <- <-. right. left. auto.
  - destruct (50 * 1024 * 1024 <? Z.of_nat (length (content file)))%Z eqn:Hsize.
    + intros H. injection H as <- <-. right. right. left.
      apply Z.ltb_lt in Hsize. auto.
    + rewrite bind_unfold. unfold App.preprocess_audio.
      destruct (pydub_from_file E (content file) _) as [msg|audio] eqn:Hp.
      * intros H. injection H as <- <-. right. right. right. left.
        eexists _, msg. split; [exact Hp|]. split; reflexivity.
      * destruct (pydub_export E audio) as [msg|wav] eqn:Hx.
        -- intros H. injection H as <- <-. right. right. right. right. left.
           eexists _, audio, msg. split; [exact Hp|]. split; [exact Hx|].
           cbn [calls log_call]. rewrite <- app_assoc. split; reflexivity.
        -- destruct (librosa_load E wav) as [msg|[y sr]] eqn:Hl.
           ++ intros H. injection H as <- <-. right. right. right. right. right.
              eexists _, audio, wav, msg.
              split; [exact Hp|]. split; [exact Hx|]. split; [exact Hl|].
              cbn [calls log_call]. rewrite <- !app_assoc. split; reflexivity.
           ++ cbn. discriminate.
  - intros H. injection H as <- <-. right. left. auto.
Qed.

(** X16: the handler returns a result only for a request with mode "quick"
    or "deep", a named file and a payload of at most 50 MiB that pydub can
    open and export and librosa can read; the result is then always health
    95, no issue and 128 zeros of vibration data, and the only work done is
    the three decoding steps. *)
Theorem app_success (file : upload) (mode : string) (w w' : world) (r : App.result) :
  App.analyze_audio E file mode w = (w', inr r) ->
  (mode = "quick" \/ mode = "deep") /\
  (exists c name, filename file = Some (String c name)) /\
  (Z.of_nat (length (content file)) <= 50 * 1024 * 1024)%Z /\
  r = {| App.overall_health := 95.0%Q; App.issues := [];
         App.vibration_data := replicate 128 0%Z |} /\
  files w' = files w /\
  exists format audio wav,
    pydub_from_file E (content file) format = inr audio /\
    pydub_export E audio = inr wav /\
    (exists ysr, librosa_load E wav = inr ysr) /\
    calls w' = calls w ++ [PydubFromFile format; PydubExport; LibrosaLoad].
Proof.
  unfold App.analyze_audio.
  destruct (bool_decide (mode ∈ ["quick"; "deep"])) eqn:Hmode; cbn [negb];
    [|discriminate].
  apply bool_decide_eq_true_1 in Hmode. rewrite mode_in_list in Hmode.
  destruct (filename file) as [[|c name]|] eqn:Hname; try discriminate.
  destruct (50 * 1024 * 1024 <? Z.of_nat (length (content file)))%Z eqn:Hsize;
    [discriminate|].
  apply Z.ltb_ge in Hsize.
  rewrite bind_unfold. unfold App.preprocess_audio.
  destruct (pydub_from_file E (content file) _) as [msg|audio] eqn:Hp; [discriminate|].
  destruct (pydub_export E audio) as [msg|wav] eqn:Hx; [discriminate|].
  destruct (librosa_load E wav) as [msg|[y sr]] eqn:Hl; [discriminate|].
  cbn. intros H. injection H as <- <-.
  split; [exact Hmode|]. split; [eauto|]. split; [exact Hsize|].
  split; [reflexivity|]. split; [reflexivity|].
  eexists _, audio, wav. split; [exact Hp|]. split; [exact Hx|].
  split; [eauto|]. cbn [calls log_call].
  rewrite <- !app_assoc. reflexivity.
Qed.

End AppMore.

(** ** [interpret_prediction] of the model handler *)

Section InterpretPrediction.
Local Open Scope Q_scope.

Lemma gt_spec (x y : Q) : ModelHandler.gt x y = true <-> y < x.
Proof.
  unfold ModelHandler.gt. rewrite negb_true_iff. split.
  - intros H. apply Qnot_le_lt. intros Hle. apply Qle_bool_iff in Hle. congruence.
  - intros H. destruct (Qle_bool x y) eqn:Hb; [|reflexivity].
    apply Qle_bool_iff in Hb. lra.
Qed.

Lemma gt_false (x y : Q) : ModelHandler.gt x y = false <-> x <= y.
Proof.
  unfold ModelHandler.gt. rewrite negb_false_iff. apply Qle_bool_iff.
Qed.

Lemma lt_spec (x y : Q) : ModelHandler.lt x y = true <-> x < y.
Proof. apply (gt_spec y x). Qed.

Lemma lt_false (x y : Q) : ModelHandler.lt x y = false <-> y <= x.
Proof. apply (gt_false y x). Qed.

Lemma issue_fields (s c d r : string) :
  ModelHandler.issue s c d r !! "severity" = Some s /\
  ModelHandler.issue s c d r !! "component" = Some c /\
  dom (ModelHandler.issue s c d r)
  = {[ "severity"; "component"; "description"; "recommendation" ]}.
Proof.
  unfold ModelHandler.issue. cbn [list_to_map foldr uncurry fst snd].
  split; [|split].
  - apply lookup_insert_eq.
  - rewrite lookup_insert_ne by discriminate. apply lookup_insert_eq.
  - rewrite !dom_insert_L, dom_empty_L.
    apply (bool_decide_unpack _). vm_compute. exact I.
Qed.

(** The row decides the branch: none on an empty row, the binary one on two
    entries, the multi-class one from four entries on, and the single-output
    one on a row of one or of three entries. *)
Lemma branch_cases (row : list Q) :
  match row with
  | [] => ModelHandler.branch row = None
  | [h] => ModelHandler.branch row = Some (ModelHandler.interpret_single (h * 100))
  | [n; f] => ModelHandler.branch row = Some (ModelHandler.interpret_binary n f)
  | [h; _; _] => ModelHandler.branch row = Some (ModelHandler.interpret_single (h * 100))
  | h :: b :: t :: m :: _ =>
      ModelHandler.branch row = Some (ModelHandler.interpret_multi (h * 100) b t m)
  end.
Proof. destruct row as [|h [|b [|t [|m rest]]]]; reflexivity. Qed.

Lemma interpret_multi_issues (h b t m : Q) :
  map (fun i => (i !! "component", i !! "severity"))
      (snd (ModelHandler.interpret_multi h b t m)) =
  (if ModelHandler.gt b 0.7 then [(Some "Bearing Motor", Some "high")]
   else if ModelHandler.gt b 0.4 then [(Some "Bearing Motor", Some "medium")]
   else []) ++
  (if ModelHandler.gt t 0.6 then [(Some "Belt Transmisi", Some "high")]
   else if ModelHandler.gt t 0.3 then [(Some "Belt Transmisi", Some "medium")]
   else []) ++
  (if ModelHandler.gt m 0.5 then [(Some "Mounting Base", Some "medium")]
   else if ModelHandler.gt m 0.3 then [(Some "Mounting Base", Some "low")]
   else []).
Proof.
  unfold ModelHandler.interpret_multi. cbn [snd].
  destruct (ModelHandler.gt b 0.7), (ModelHandler.gt b 0.4),
           (ModelHandler.gt t 0.6), (ModelHandler.gt t 0.3),
           (ModelHandler.gt m 0.5), (ModelHandler.gt m 0.3);
    cbn [app map];
    repeat match goal with
    | |- context [ModelHandler.issue ?s ?c ?d ?r !! "component"] =>
        rewrite (proj1 (proj2 (issue_fields s c d r)))
    | |- context [ModelHandler.issue ?s ?c ?d ?r !! "severity"] =>
        rewrite (proj1 (issue_fields s c d r))
    end; reflexivity.
Qed.

Lemma interpret_branch_issue_count (row : list Q) (h : Q)
    (found : list (gmap string string)) :
  ModelHandler.branch row = Some (h, found) ->
  (length found <= 3)%nat /\ ((length row < 4)%nat -> (length found <= 1)%nat) /\
  Forall (fun i => dom i = {[ "severity"; "component"; "description"; "recommendation" ]})
         found.
Proof.
  pose proof (branch_cases row) as Hb.
  destruct row as [|x0 [|x1 [|x2 [|x3 rest]]]]; rewrite Hb; intros H;
    try discriminate H; injection H as <- <-.
  - unfold ModelHandler.interpret_single. cbn [snd].
    destruct (ModelHandler.lt (x0 * 100) 50), (ModelHandler.lt (x0 * 100) 70),
             (ModelHandler.lt (x0 * 100) 85);
      cbn [app length]; (split; [lia|split; [lia|]]);
      repeat constructor; apply issue_fields.
  - unfold ModelHandler.interpret_binary. cbn [snd].
    destruct (ModelHandler.gt x1 0.7), (ModelHandler.gt x1 0.4);
      cbn [app length]; (split; [lia|split; [lia|]]);
      repeat constructor; apply issue_fields.
  - unfold ModelHandler.interpret_single. cbn [snd].
    destruct (ModelHandler.lt (x0 * 100) 50), (ModelHandler.lt (x0 * 100) 70),
             (ModelHandler.lt (x0 * 100) 85);
      cbn [app length]; (split; [lia|split; [lia|]]);
      repeat constructor; apply issue_fields.
  - unfold ModelHandler.interpret_multi. cbn [snd].
    destruct (ModelHandler.gt x1 0.7), (ModelHandler.gt x1 0.4),
             (ModelHandler.gt x2 0.6), (ModelHandler.gt x2 0.3),
             (ModelHandler.gt x3 0.5), (ModelHandler.gt x3 0.3);
      cbn [app length]; (split; [lia|split; [lia|]]);
      repeat constructor; apply issue_fields.
Qed.

Lemma interpret_prediction_health_range_aux (prediction : list (list Q))
    (mode : string) (r : ModelHandler.result) :
  ModelHandler.interpret_prediction prediction mode = inr r ->
  0 <= ModelHandler.overall_health r <= 100.
Proof.
  unfold ModelHandler.interpret_prediction.
  destruct prediction as [|row rest]; [discriminate|].
  destruct (ModelHandler.branch row) as [[h found]|]; [|discriminate].
  intros H. injection H as <-. cbn [ModelHandler.overall_health]. split.
  - apply Q.le_max_l.
  - apply Q.max_lub; [lra|apply Q.le_min_l].
Qed.

(** X17: whenever [interpret_prediction] returns, the health score it
    reports lies between 0 and 100, whatever the model answered. *)
Theorem interpret_prediction_health_range (prediction : list (list Q))
    (mode : string) (r : ModelHandler.result) :
  ModelHandler.interpret_prediction prediction mode = inr r ->
  0 <= ModelHandler.overall_health r <= 100.
Proof. apply interpret_prediction_health_range_aux. Qed.

Lemma interpret_prediction_raises_aux (prediction : list (list Q)) (mode : string) :
  ModelHandler.interpret_prediction prediction mode = inl ModelHandler.IndexError
  <-> prediction = [] \/ exists rest, prediction = [] :: rest.
Proof.
  unfold ModelHandler.interpret_prediction.
  destruct prediction as [|row rest]; [split; auto|].
  pose proof (branch_cases row) as Hb.
  destruct row as [|x0 [|x1 [|x2 [|x3 more]]]]; rewrite Hb.
  - split; eauto.
  - destruct (ModelHandler.interpret_single (x0 * 100)) as [h found].
    split; [discriminate|]. intros [H|[rest' H]]; discriminate H.
  - destruct (ModelHandler.interpret_binary x0 x1) as [h found].
    split; [discriminate|]. intros [H|[rest' H]]; discriminate H.
  - destruct (ModelHandler.interpret_single (x0 * 100)) as [h found].
    split; [discriminate|]. intros [H|[rest' H]]; discriminate H.
  - destruct (ModelHandler.interpret_multi (x0 * 100) x1 x2 x3) as [h found].
    split; [discriminate|]. intros [H|[rest' H]]; discriminate H.
Qed.

(** X18: [interpret_prediction] raises exactly when the prediction has no
    row or its first row has no entry, and then it is an [IndexError];
    every other prediction is interpreted. *)
Theorem interpret_prediction_raises_iff (prediction : list (list Q)) (mode : string) :
  (ModelHandler.interpret_prediction prediction mode = inl ModelHandler.IndexError
   <-> prediction = [] \/ exists rest, prediction = [] :: rest) /\
  ((exists r, ModelHandler.interpret_prediction prediction mode = inr r)
   <-> exists x row rest, prediction = (x :: row) :: rest).
Proof.
  unfold ModelHandler.interpret_prediction.
  destruct prediction as [|row rest].
  { split; split.
    - auto.
    - reflexivity.
    - intros [r H]. discriminate H.
    - intros (x & row & rest & H). discriminate H. }
  pose proof (branch_cases row) as Hb.
  destruct row as [|x0 [|x1 [|x2 [|x3 more]]]]; rewrite Hb.
  - split; split.
    + eauto.
    + reflexivity.
    + intros [r H]. discriminate H.
    + intros (x & row & rest' & H). discriminate H.
  - destruct (ModelHandler.interpret_single (x0 * 100)) as [h found].
    split; split; try discriminate; eauto.
    intros [H|[rest' H]]; discriminate H.
  - destruct (ModelHandler.interpret_binary x0 x1) as [h found].
    split; split; try discriminate; eauto.
    intros [H|[rest' H]]; discriminate H.
  - destruct (ModelHandler.interpret_single (x0 * 100)) as [h found].
    split; split; try discriminate; eauto.
    intros [H|[rest' H]]; discriminate H.
  - destruct (ModelHandler.interpret_multi (x0 * 100) x1 x2 x3) as [h found].
    split; split; try discriminate; eauto.
    intros [H|[rest' H]]; discriminate H.
Qed.

(** X19: a result of [interpret_prediction] holds at most three issues, at
    most one when the row has fewer than four entries, and every issue has
    exactly the fields severity, component, description and
    recommendation. *)
Theorem interpret_prediction_issue_limits (row : list Q) (rest : list (list Q))
    (mode : string) (r : ModelHandler.result) :
  ModelHandler.interpret_prediction (row :: rest) mode = inr r ->
  (length (ModelHandler.issues r) <= 3)%nat /\
  ((length row < 4)%nat -> (length (ModelHandler.issues r) <= 1)%nat) /\
  Forall (fun i => dom i = {[ "severity"; "component"; "description"; "recommendation" ]})
         (ModelHandler.issues r).
Proof.
  unfold ModelHandler.interpret_prediction.
  destruct (ModelHandler.branch row) as [[h found]|] eqn:Hb; [|discriminate].
  intros H. injection H as <-. cbn [ModelHandler.issues].
  exact (interpret_branch_issue_count row h found Hb).
Qed.

Lemma interpret_single_issues (h : Q) :
  map (fun i => (i !! "component", i !! "severity"))
      (snd (ModelHandler.interpret_single h)) =
  (if ModelHandler.lt h 50 then [(Some "Motor", Some "high")]
   else if ModelHandler.lt h 70 then [(Some "Motor", Some "medium")]
   else if ModelHandler.lt h 85 then [(Some "Motor", Some "low")]
   else []).
Proof.
  unfold ModelHandler.interpret_single. cbn [snd].
  destruct (ModelHandler.lt h 50), (ModelHandler.lt h 70), (ModelHandler.lt h 85);
    cbn [app map];
    repeat match goal with
    | |- context [ModelHandler.issue ?s ?c ?d ?r !! "component"] =>
        rewrite (proj1 (proj2 (issue_fields s c d r)))
    | |- context [ModelHandler.issue ?s ?c ?d ?r !! "severity"] =>
        rewrite (proj1 (issue_fields s c d r))
    end; reflexivity.
Qed.

(** Turns the comparisons of a goal into inequalities and closes it. *)
Ltac thresholds :=
  repeat match goal with
  | H : ModelHandler.gt _ _ = true |- _ => apply gt_spec in H
  | H : ModelHandler.gt _ _ = false |- _ => apply gt_false in H
  | H : ModelHandler.lt _ _ = true |- _ => apply lt_spec in H
  | H : ModelHandler.lt _ _ = false |- _ => apply lt_false in H
  end;
  cbn [In app map fst];
  repeat split; intros;
  repeat match goal with
  | H : _ \/ _ |- _ => destruct H
  | H : _ /\ _ |- _ => destruct H
  | H : False |- _ => destruct H
  | H : (_, _) = (_, _) |- _ => first [discriminate H | clear H]
  | H : @eq (list _) _ _ |- _ => first [discriminate H | clear H]
  end;
  try lra; try reflexivity; try (repeat constructor; cbn [In]; intuition discriminate);
  try (intuition (first [reflexivity | lra])).

(** X20: on a row of four entries or more, the bearing is reported with
    severity high when its probability is above 0.7 and medium when it is
    above 0.4 and at most 0.7; the belt high above 0.6 and medium above 0.3;
    the mounting medium above 0.5 and low above 0.3; nothing else is
    reported, no component twice, and the health score is the first entry
    times one hundred, cut to [0, 100]. *)
Theorem interpret_prediction_multi (h b t m : Q) (more : list Q)
    (rest : list (list Q)) (mode : string) :
  exists r,
    ModelHandler.interpret_prediction ((h :: b :: t :: m :: more) :: rest) mode = inr r /\
    ModelHandler.overall_health r = Qmax 0 (Qmin 100 (h * 100)) /\
    let reported :=
      map (fun i => (i !! "component", i !! "severity")) (ModelHandler.issues r) in
    (In (Some "Bearing Motor", Some "high") reported <-> 0.7 < b) /\
    (In (Some "Bearing Motor", Some "medium") reported <-> 0.4 < b /\ b <= 0.7) /\
    (In (Some "Belt Transmisi", Some "high") reported <-> 0.6 < t) /\
    (In (Some "Belt Transmisi", Some "medium") reported <-> 0.3 < t /\ t <= 0.6) /\
    (In (Some "Mounting Base", Some "medium") reported <-> 0.5 < m) /\
    (In (Some "Mounting Base", Some "low") reported <-> 0.3 < m /\ m <= 0.5) /\
    List.NoDup (map fst reported) /\
    incl (map fst reported)
         [Some "Bearing Motor"; Some "Belt Transmisi"; Some "Mounting Base"].
Proof.
  unfold ModelHandler.interpret_prediction.
  rewrite (branch_cases (h :: b :: t :: m :: more)).
  pose proof (interpret_multi_issues (h * 100) b t m) as Hi.
  destruct (ModelHandler.interpret_multi (h * 100) b t m) as [h' found] eqn:Hm.
  assert (Hh : h' = h * 100).
  { unfold ModelHandler.interpret_multi in Hm. injection Hm as <- _. reflexivity. }
  subst h'. clear Hm. eexists. split; [reflexivity|]. split; [reflexivity|].
  cbn [ModelHandler.issues snd] in *. cbv zeta. rewrite Hi. clear Hi. unfold incl.
  destruct (ModelHandler.gt b 0.7) eqn:Hb7, (ModelHandler.gt b 0.4) eqn:Hb4,
           (ModelHandler.gt t 0.6) eqn:Ht6, (ModelHandler.gt t 0.3) eqn:Ht3,
           (ModelHandler.gt m 0.5) eqn:Hm5, (ModelHandler.gt m 0.3) eqn:Hm3;
    thresholds.
Qed.

(** X21: a row of one entry and a row of three entries are both read as a
    single health output, the first entry times one hundred; the issue is
    judged on that score before it is cut to [0, 100]: none from 85 on, low
    from 70, medium from 50, high below 50, always on the component
    "Motor". *)
Theorem interpret_prediction_single (row : list Q) (h : Q) (rest : list (list Q))
    (mode : string) :
  row = [h] \/ (exists a b, row = [h; a; b]) ->
  exists r,
    ModelHandler.interpret_prediction (row :: rest) mode = inr r /\
    ModelHandler.overall_health r = Qmax 0 (Qmin 100 (h * 100)) /\
    let reported :=
      map (fun i => (i !! "component", i !! "severity")) (ModelHandler.issues r) in
    (reported = [(Some "Motor", Some "high")] <-> h * 100 < 50) /\
    (reported = [(Some "Motor", Some "medium")] <-> 50 <= h * 100 /\ h * 100 < 70) /\
    (reported = [(Some "Motor", Some "low")] <-> 70 <= h * 100 /\ h * 100 < 85) /\
    (reported = [] <-> 85 <= h * 100).
Proof.
  intros Hrow.
  assert (Hb : ModelHandler.branch row = Some (ModelHandler.interpret_single (h * 100))).
  { destruct Hrow as [->|(a & b & ->)]; reflexivity. }
  unfold ModelHandler.interpret_prediction. rewrite Hb.
  pose proof (interpret_single_issues (h * 100)) as Hi.
  destruct (ModelHandler.interpret_single (h * 100)) as [h' found] eqn:Hs.
  assert (Hh : h' = h * 100).
  { unfold ModelHandler.interpret_single in Hs. injection Hs as <- _. reflexivity. }
  subst h'. clear Hs. eexists. split; [reflexivity|]. split; [reflexivity|].
  cbn [ModelHandler.issues snd] in *. cbv zeta. rewrite Hi. clear Hi.
  destruct (ModelHandler.lt (h * 100) 50) eqn:H50,
           (ModelHandler.lt (h * 100) 70) eqn:H70,
           (ModelHandler.lt (h * 100) 85) eqn:H85;
    thresholds.
Qed.

End InterpretPrediction.

(** ** The vibration series taken from the recording *)

Section SpectralSeries.
Context (E : collaborators).
Context (stft : bytes -> string + MlExample.spectrogram).

Lemma range_step_length (stop step : nat) :
  length (MlExample.range_step stop step) = (stop + step - 1) / step.
Proof. unfold MlExample.range_step. rewrite length_map, length_seq. reflexivity. Qed.

Lemma range_step_lt (stop step : nat) :
  0 < step -> Forall (fun i => i < stop) (MlExample.range_step stop step).
Proof.
  intros Hstep. unfold MlExample.range_step. apply Forall_map, Forall_forall.
  intros k Hk. apply list_elem_of_In, in_seq in Hk. cbn beta.
  pose proof (Nat.Div0.mul_div_le (stop + step - 1) step) as Hdiv.
  nia.
Qed.

(** With a step of [max(1, frames // budget)] the loop has at least
    [min(budget, frames)] turns to take. *)
Lemma turns_cover_budget (frames budget : nat) :
  0 < budget ->
  Nat.min budget ((frames + Nat.max 1 (frames / budget) - 1) / Nat.max 1 (frames / budget))
  = Nat.min budget frames.
Proof.
  intros Hb. destruct (Nat.lt_ge_cases frames budget) as [Hlt|Hge].
  - rewrite (Nat.div_small frames budget Hlt). cbn [Nat.max].
    rewrite Nat.add_sub, Nat.div_1_r. reflexivity.
  - assert (Hq : 1 <= frames / budget).
    { apply Nat.div_le_lower_bound; lia. }
    rewrite (Nat.max_r 1 (frames / budget)) by exact Hq.
    set (step := frames / budget) in *.
    assert (Hsb : step * budget <= frames).
    { unfold step. rewrite Nat.mul_comm. apply Nat.Div0.mul_div_le. }
    assert (Hturns : budget <= (frames + step - 1) / step).
    { apply Nat.div_le_lower_bound; [lia|]. nia. }
    lia.
Qed.

Lemma spectral_loop_count (sg : MlExample.spectrogram) (budget : nat)
    (range : list nat) (data : list Vibration.point) :
  MlExample.well_formed sg ->
  Forall (fun i => i < length (MlExample.frames sg)) range ->
  exists data',
    MlExample.spectral_loop range budget sg data = Some data' /\
    length data' =
      if budget <=? length data then length data
      else Nat.min budget (length data + length range).
Proof.
  intros Hwf. revert data. induction range as [|i range IH]; intros data Hrange.
  - exists data. split; [reflexivity|]. cbn [length].
    destruct (budget <=? length data) eqn:Hb; [reflexivity|].
    apply Nat.leb_gt in Hb. lia.
  - apply Forall_cons in Hrange. destruct Hrange as [Hi Hrange].
    cbn [MlExample.spectral_loop].
    destruct (budget <=? length data) eqn:Hb; [eauto|].
    apply Nat.leb_gt in Hb.
    destruct (nth_error (MlExample.frames sg) i) as [frame|] eqn:Hframe;
      [|apply nth_error_None in Hframe; lia].
    assert (Hin : In frame (MlExample.frames sg)) by (eapply nth_error_In; eauto).
    unfold MlExample.well_formed in Hwf. rewrite Forall_forall in Hwf.
    apply list_elem_of_In, Hwf in Hin. destruct Hin as [Hne Hlen].
    destruct (argmax_max frame Hne) as [Hidx _].
    destruct frame as [|x frame]; [congruence|].
    destruct (nth_error (MlExample.freqs sg) (Np.argmax (x :: frame))) as [f|] eqn:Hf;
      [|apply nth_error_None in Hf; lia].
    destruct (IH (data ++ [ {| Vibration.time :=
                                 Py.round (inject_Z (Z.of_nat (i * 512)) / 44100) 3;
                               Vibration.amplitude :=
                                 Py.round (nth (Np.argmax (x :: frame)) (x :: frame) 0%Q / 1000) 3;
                               Vibration.frequency := Py.round f 2 |} ]) Hrange)
      as (data' & Hrun & Hcount).
    exists data'. split; [exact Hrun|]. rewrite Hcount, length_app. cbn [length].
    destruct (budget <=? length data + 1) eqn:Hb'.
    + apply Nat.leb_le in Hb'. lia.
    + apply Nat.leb_gt in Hb'. lia.
Qed.

Lemma spectral_loop_le (sg : MlExample.spectrogram) (budget : nat)
    (range : list nat) (data data' : list Vibration.point) :
  MlExample.spectral_loop range budget sg data = Some data' ->
  length data <= budget -> length data' <= budget.
Proof.
  revert data. induction range as [|i range IH]; intros data Hrun Hle.
  - injection Hrun as <-. exact Hle.
  - cbn [MlExample.spectral_loop] in Hrun.
    destruct (budget <=? length data) eqn:Hb; [injection Hrun as <-; exact Hle|].
    apply Nat.leb_gt in Hb.
    destruct (nth_error (MlExample.frames sg) i) as [[|x frame]|]; try discriminate Hrun.
    destruct (nth_error (MlExample.freqs sg) _) as [f|]; [|discriminate Hrun].
    apply IH in Hrun; [exact Hrun|]. rewrite length_app. cbn [length]. lia.
Qed.

Lemma synthetic_series_spec (range : list nat) (w : world) :
  length (snd (MlExample.synthetic_series E range w)) = length range /\
  draws (fst (MlExample.synthetic_series E range w)) = draws w + length range /\
  files (fst (MlExample.synthetic_series E range w)) = files w /\
  calls (fst (MlExample.synthetic_series E range w)) = calls w.
Proof.
  revert w. induction range as [|i range IH]; intros w.
  - cbn. repeat split; lia.
  - cbn [MlExample.synthetic_series]. unfold Vibration.np_random_rand.
    specialize (IH {| files := files w; calls := calls w;
                      draws := S (draws w); clock := clock w |}).
    destruct (MlExample.synthetic_series E range _) as [w2 rest].
    cbn [fst snd length files calls draws] in *.
    destruct IH as (Hl & Hd & Hf & Hc). repeat split; try assumption; lia.
Qed.

Lemma num_points_pos (mode : string) : 0 < MlExample.num_points mode.
Proof. unfold MlExample.num_points. destruct (String.eqb mode "quick"); lia. Qed.

(** X22: on a recording that librosa can analyse, the series has one point
    per time frame up to the budget of the mode: min(100, frames) points in
    quick mode and min(300, frames) otherwise, so a recording with fewer
    frames than the budget gives fewer points; no random draw is taken. *)
Theorem spectral_series_count (audio_bytes : bytes) (mode : string) (w : world)
    (sg : MlExample.spectrogram) :
  stft audio_bytes = inr sg ->
  MlExample.well_formed sg ->
  exists vibration_data,
    MlExample.generate_vibration_data E stft audio_bytes mode w = (w, vibration_data) /\
    length vibration_data
    = Nat.min (MlExample.num_points mode) (length (MlExample.frames sg)).
Proof.
  intros Hstft Hwf. unfold MlExample.generate_vibration_data. rewrite Hstft.
  pose proof (num_points_pos mode) as Hpos.
  set (budget := MlExample.num_points mode) in *.
  set (step := Nat.max 1 (length (MlExample.frames sg) / budget)).
  destruct (spectral_loop_count sg budget
              (MlExample.range_step (length (MlExample.frames sg)) step) [] Hwf)
    as (data & Hrun & Hcount).
  { apply range_step_lt. unfold step. lia. }
  rewrite Hrun. exists data. split; [reflexivity|].
  rewrite Hcount. cbn [length].
  replace (budget <=? 0) with false by (symmetry; apply Nat.leb_gt; exact Hpos).
  rewrite Nat.add_0_l, range_step_length. apply turns_cover_budget. exact Hpos.
Qed.

(** X23: the series never has more points than the budget of the mode, the
    files and the call log are left alone, and when librosa cannot analyse
    the recording the synthetic series takes over with exactly the budget's
    number of points and as many random draws. *)
Theorem vibration_series_within_budget (audio_bytes : bytes) (mode : string) (w : world) :
  length (snd (MlExample.generate_vibration_data E stft audio_bytes mode w))
    <= MlExample.num_points mode /\
  files (fst (MlExample.generate_vibration_data E stft audio_bytes mode w)) = files w /\
  calls (fst (MlExample.generate_vibration_data E stft audio_bytes mode w)) = calls w /\
  (forall msg, stft audio_bytes = inl msg ->
     length (snd (MlExample.generate_vibration_data E stft audio_bytes mode w))
       = MlExample.num_points mode /\
     draws (fst (MlExample.generate_vibration_data E stft audio_bytes mode w))
       = draws w + MlExample.num_points mode).
Proof.
  unfold MlExample.generate_vibration_data.
  pose proof (synthetic_series_spec (seq 0 (MlExample.num_points mode)) w)
    as (Hl & Hd & Hf & Hc).
  rewrite length_seq in Hl, Hd.
  destruct (stft audio_bytes) as [err|sg].
  - repeat split; try assumption; try lia.
  - destruct (MlExample.spectral_loop _ _ sg []) as [data|] eqn:Hrun.
    + cbn [fst snd]. repeat split; try discriminate.
      apply (spectral_loop_le _ _ _ _ _ Hrun). cbn. lia.
    + repeat split; try assumption; try lia; discriminate.
Qed.

End SpectralSeries.

(** ** The name of the output file *)

Section OutputName.

Lemma prefix_webm_needs_dot (c : ascii) (s : string) :
  c <> "."%char -> String.prefix ".webm" (String c s) = false.
Proof.
  intros Hc. cbn [String.prefix].
  destruct (ascii_dec "." c) as [Heq|_]; [congruence|reflexivity].
Qed.

(** X24: the output file never has the name of the input file; when the
    directory and stem picked for the temporary file hold no dot, the output
    file is the input file's name with ".webm" exchanged for ".wav". *)
Theorem wav_path_beside_webm_path (stem : string) :
  Py.replace ".webm" ".wav" (String.append stem ".webm") <> String.append stem ".webm" /\
  (Forall (fun c => c <> "."%char) (list_ascii_of_string stem) ->
   Py.replace ".webm" ".wav" (String.append stem ".webm") = String.append stem ".wav").
Proof.
  split; [apply wav_path_fresh|].
  unfold Py.replace. induction stem as [|c stem IH]; intros Hdots.
  - reflexivity.
  - cbn [list_ascii_of_string] in Hdots. apply Forall_cons in Hdots.
    destruct Hdots as [Hc Hdots].
    rewrite !append_cons. cbn [Py.replace_from].
    rewrite (prefix_webm_needs_dot c _ Hc), IH by exact Hdots.
    reflexivity.
Qed.

(** A directory whose name holds ".webm" is renamed too. *)
Example wav_path_in_another_directory :
  Py.replace ".webm" ".wav" "/data/in.webm/tmpk3v9.webm" = "/data/in.wav/tmpk3v9.wav".
Proof. reflexivity. Qed.

End OutputName.

(** ** [predict] of the model handler *)

Section HandlerPredict.
Local Open Scope Q_scope.
Context (H : ModelHandler.collaborators).

(** X25: [predict] returns only what [interpret_prediction] makes of the
    model's answer, so its health score lies between 0 and 100 and it holds
    at most three issues; it raises the library's error when the feature
    extraction or the model raises, and [IndexError] exactly when the model
    answers no row or a first row without entries. *)
Theorem handler_predict_outcomes (audio_bytes : bytes) (mode : string) :
  (forall r, ModelHandler.predict H audio_bytes mode = inr r ->
     0 <= ModelHandler.overall_health r <= 100 /\
     (length (ModelHandler.issues r) <= 3)%nat) /\
  (forall msg, ModelHandler.predict H audio_bytes mode = inl (ModelHandler.LibraryError msg) <->
     ModelHandler.preprocess_audio H audio_bytes mode = inl msg \/
     exists feats, ModelHandler.preprocess_audio H audio_bytes mode = inr feats /\
                   ModelHandler.model_predict H feats = inl msg) /\
  (ModelHandler.predict H audio_bytes mode = inl ModelHandler.IndexError <->
     exists feats prediction,
       ModelHandler.preprocess_audio H audio_bytes mode = inr feats /\
       ModelHandler.model_predict H feats = inr prediction /\
       (prediction = [] \/ exists rest, prediction = [] :: rest)).
Proof.
  unfold ModelHandler.predict.
  destruct (ModelHandler.preprocess_audio H audio_bytes mode) as [err|feats].
  { split; [intros r Hr; discriminate Hr|]. split.
    - intros msg. split.
      + intros Heq. injection Heq as ->. left. reflexivity.
      + intros [Heq|(f & Heq & _)]; [injection Heq as ->; reflexivity|discriminate Heq].
    - split; [discriminate|]. intros (f & p & Heq & _). discriminate Heq. }
  destruct (ModelHandler.model_predict H feats) as [err|prediction] eqn:Hmodel.
  { split; [intros r Hr; discriminate Hr|]. split.
    - intros msg. split.
      + intros Heq. injection Heq as ->. right. eauto.
      + intros [Heq|(f & Heq & Hm)]; [discriminate Heq|].
        injection Heq as <-. rewrite Hmodel in Hm. injection Hm as ->. reflexivity.
    - split; [discriminate|]. intros (f & p & Heq & Hm & _).
      injection Heq as <-. rewrite Hmodel in Hm. discriminate Hm. }
  split; [|split].
  - intros r Hr. split; [exact (interpret_prediction_health_range_aux _ _ _ Hr)|].
    destruct prediction as [|row rest]; [discriminate Hr|].
    unfold ModelHandler.interpret_prediction in Hr.
    destruct (ModelHandler.branch row) as [[h found]|] eqn:Hb; [|discriminate Hr].
    injection Hr as <-. cbn [ModelHandler.issues].
    apply (interpret_branch_issue_count row h found Hb).
  - intros msg. split.
    + intros Heq. exfalso. unfold ModelHandler.interpret_prediction in Heq.
      destruct prediction as [|row rest]; [discriminate Heq|].
      destruct (ModelHandler.branch row) as [[h found]|]; discriminate Heq.
    + intros [Heq|(f & Heq & Hm)]; [discriminate Heq|].
      injection Heq as <-. rewrite Hmodel in Hm. discriminate Hm.
  - pose proof (interpret_prediction_raises_aux prediction mode) as Hiff.
    rewrite Hiff. split.
    + intros Hp. exists feats, prediction. auto.
    + intros (f & p & Heq & Hm & Hp). injection Heq as <-.
      rewrite Hmodel in Hm. injection Hm as <-. exact Hp.
Qed.

End HandlerPredict.

(** ** The further properties on concrete inputs *)

Section MoreRuns.
Local Open Scope Q_scope.

(** The decoder of [Fixture.good] on an empty file system. *)
Lemma webm_to_wav_restores_files_witness :
  ffmpeg Fixture.good (Some [Byte.x00]) = (Some [Byte.x01], 0%Z) /\
  exists w',
    Convert.webm_to_wav Fixture.good [Byte.x00] Fixture.w0 = (w', inr [Byte.x01]) /\
    files w' = files Fixture.w0.
Proof.
  split; [reflexivity|].
  destruct (webm_to_wav_restores_files Fixture.good [Byte.x00] [Byte.x01] Fixture.w0
              eq_refl eq_refl eq_refl) as (w' & Hrun & Hfiles & _).
  exists w'. split; [exact Hrun|exact Hfiles].
Defined.

(** The decoder that exits with status 1. *)
Lemma webm_to_wav_outcome_witness :
  files Fixture.w0 !! "/tmp/tmpk3v9.wav" = None /\
  snd (Convert.webm_to_wav Fixture.bad_decoder [Byte.x00] Fixture.w0)
  = inl (CalledProcessError 1).
Proof.
  split; [reflexivity|].
  exact (webm_to_wav_outcome Fixture.bad_decoder [Byte.x00] Fixture.w0 eq_refl).
Defined.


Lemma label_entry_is_rounded_confidence_witness :
  length Fixture.knocking_061 = length Inference.CLASSES /\
  (list_to_map (snd (Inference.label_scores Fixture.knocking_061)) : gmap string Q)
    !! fst (fst (Inference.label_scores Fixture.knocking_061))
  = Some (Py.round (snd (fst (Inference.label_scores Fixture.knocking_061))) 4).
Proof.
  split; [reflexivity|].
  exact (proj1 (label_entry_is_rounded_confidence Fixture.knocking_061 eq_refl)).
Defined.


(** The model of [Fixture.good] answers one row of nine scores. *)
Lemma run_inference_reads_the_row_witness :
  Np.shape (Fixture.model_output Fixture.knocking_061) = [1; 9]%nat /\
  exists w2,
    Inference.run_inference Fixture.good [Byte.x00] Fixture.w0 =
    (log_call Predict w2,
     inr (Inference.label_scores
            (map (fun j => Np.item (Fixture.model_output Fixture.knocking_061) [0; j]%nat)
                 (seq 0 9)))).
Proof.
  split; [reflexivity|].
  eexists.
  eapply (run_inference_reads_the_row Fixture.good [Byte.x00] [Byte.x01] Fixture.w0).
  - vm_compute. reflexivity.
  - vm_compute. reflexivity.
  - reflexivity.
  - reflexivity.
Defined.

(** The sine and the generator of [Fixture.good]. *)
Lemma vibration_series_bounds_witness :
  (forall x, -1 <= np_sin Fixture.good x <= 1) /\
  (forall k, 0 <= rand Fixture.good k < 1) /\
  Forall (fun p =>
            -1 <= Vibration.amplitude p /\ Vibration.amplitude p < 1.3 /\
            10 <= Vibration.frequency p /\ Vibration.frequency p <= 90 /\
            0 <= Vibration.time p)
         (snd (Vibration.generate_vibration_data Fixture.good 100 Fixture.w0)).
Proof.
  assert (Hsin : forall x, -1 <= np_sin Fixture.good x <= 1).
  { intros x. split; vm_compute; discriminate. }
  assert (Hrand : forall k, 0 <= rand Fixture.good k < 1).
  { intros k. cbn [rand Fixture.good Fixture.collab]. unfold Qle, Qlt. cbn [Qnum Qden].
    replace (k + 2)%nat with (S (S k)) by lia.
    rewrite Nat2Pos.inj_succ by lia. lia. }
  split; [exact Hsin|]. split; [exact Hrand|].
  exact (vibration_series_bounds Fixture.good 100 Fixture.w0 Hsin Hrand).
Defined.

(** A fault at confidence 0.6 and at confidence 0.9. *)
Lemma health_logic_monotone_witness :
  0 <= 0.6 /\ 0.6 <= 0.9 /\ 0.9 <= 1 /\
  (Backend.health_logic "knocking" 0.9 <= Backend.health_logic "knocking" 0.6)%Z.
Proof.
  assert (H0 : 0 <= 0.6) by (vm_compute; discriminate).
  assert (H1 : 0.6 <= 0.9) by (vm_compute; discriminate).
  assert (H2 : 0.9 <= 1) by (vm_compute; discriminate).
  repeat (split; [assumption|]).
  apply (proj2 (health_logic_monotone "knocking" 0.6 0.9 H0 H1 H2)). discriminate.
Defined.


(** A request in quick mode. *)
Lemma vibration_count_by_mode_witness :
  exists w' r,
    Backend.analyze_audio Fixture.good Fixture.clip_file "quick" Fixture.w0 = (w', inr r) /\
    length (Backend.vibrationData r) = 100%nat.
Proof.
  destruct (analyze_audio_returns Fixture.good Fixture.clip_file "quick" Fixture.w0)
    as (w' & r & H).
  exists w', r. split; [exact H|].
  exact (proj1 (vibration_count_by_mode Fixture.good _ _ _ _ _ H) eq_refl).
Defined.

(** The request with mode "fast" at the handler of the repository root. *)
Lemma app_failures_witness :
  App.analyze_audio Fixture.good Fixture.clip_file "fast" Fixture.w0
  = (Fixture.w0, inl (HTTPException 400 "Mode harus 'quick' atau 'deep'")) /\
  "fast" <> "quick" /\ "fast" <> "deep".
Proof.
  assert (H : App.analyze_audio Fixture.good Fixture.clip_file "fast" Fixture.w0
              = (Fixture.w0, inl (HTTPException 400 "Mode harus 'quick' atau 'deep'")))
    by reflexivity.
  split; [exact H|].
  destruct (app_failures Fixture.good Fixture.clip_file "fast" Fixture.w0 _ _ H)
    as [(_ & Hq & Hd & _)|[(_ & _ & He)|[(_ & _ & He)|[(f & m & _ & _ & He)|
        [(f & a & m & _ & _ & _ & He)|(f & a & v & m & _ & _ & _ & _ & He)]]]]];
    try discriminate He.
  split; [exact Hq|exact Hd].
Defined.

(** The request with mode "deep" at the same handler. *)
Lemma app_success_witness :
  exists w' r,
    App.analyze_audio Fixture.good Fixture.clip_file "deep" Fixture.w0 = (w', inr r) /\
    ("deep" = "quick" \/ "deep" = "deep") /\
    files w' = files Fixture.w0.
Proof.
  destruct (App.analyze_audio Fixture.good Fixture.clip_file "deep" Fixture.w0)
    as [w' [e|r]] eqn:H; [vm_compute in H; discriminate H|].
  exists w', r. split; [reflexivity|].
  destruct (app_success Fixture.good Fixture.clip_file "deep" Fixture.w0 w' r H)
    as (Hmode & _ & _ & _ & Hfiles & _).
  split; [exact Hmode|exact Hfiles].
Defined.

(** A single output of 0.9. *)
Lemma interpret_prediction_health_range_witness :
  ModelHandler.interpret_prediction [[0.9]] "quick"
  = inr {| ModelHandler.overall_health := Qmax 0 (Qmin 100 (0.9 * 100));
           ModelHandler.issues := [] |} /\
  0 <= Qmax 0 (Qmin 100 (0.9 * 100)) <= 100.
Proof.
  assert (H : ModelHandler.interpret_prediction [[0.9]] "quick"
              = inr {| ModelHandler.overall_health := Qmax 0 (Qmin 100 (0.9 * 100));
                       ModelHandler.issues := [] |}) by reflexivity.
  split; [exact H|].
  exact (interpret_prediction_health_range _ _ _ H).
Defined.

Lemma interpret_prediction_issue_limits_witness :
  ModelHandler.interpret_prediction [[0.9]] "quick"
  = inr {| ModelHandler.overall_health := Qmax 0 (Qmin 100 (0.9 * 100));
           ModelHandler.issues := [] |} /\
  (length (@nil (gmap string string)) <= 3)%nat.
Proof.
  assert (H : ModelHandler.interpret_prediction [[0.9]] "quick"
              = inr {| ModelHandler.overall_health := Qmax 0 (Qmin 100 (0.9 * 100));
                       ModelHandler.issues := [] |}) by reflexivity.
  split; [exact H|].
  exact (proj1 (interpret_prediction_issue_limits _ _ _ _ H)).
Defined.

(** A row of three entries. *)
Lemma interpret_prediction_single_witness :
  exists r,
    ModelHandler.interpret_prediction [[0.6; 0.9; 0.9]] "deep" = inr r /\
    ModelHandler.overall_health r = Qmax 0 (Qmin 100 (0.6 * 100)).
Proof.
  destruct (interpret_prediction_single [0.6; 0.9; 0.9] 0.6 [] "deep")
    as (r & Hr & Hh & _).
  - right. exists 0.9, 0.9. reflexivity.
  - exists r. split; [exact Hr|exact Hh].
Defined.

(** A recording of five frames. *)
Lemma spectral_series_count_witness :
  MlExample.well_formed (Samples.spectrum 5) /\
  exists vibration_data,
    MlExample.generate_vibration_data Fixture.good (Samples.stft_of 5) [] "quick" Fixture.w0
    = (Fixture.w0, vibration_data) /\
    length vibration_data = 5%nat.
Proof.
  assert (Hwf : MlExample.well_formed (Samples.spectrum 5)).
  { unfold MlExample.well_formed, Samples.spectrum.
    cbn [MlExample.frames MlExample.freqs replicate].
    repeat (constructor; [split; [discriminate|cbn; lia]|]). constructor. }
  split; [exact Hwf|].
  exact (spectral_series_count Fixture.good (Samples.stft_of 5) [] "quick" Fixture.w0
           (Samples.spectrum 5) eq_refl Hwf).
Defined.

(** A temporary name without a dot. *)
Lemma wav_path_beside_webm_path_witness :
  Forall (fun c => c <> "."%char) (list_ascii_of_string "/tmp/tmpk3v9") /\
  Py.replace ".webm" ".wav" (String.append "/tmp/tmpk3v9" ".webm")
  = String.append "/tmp/tmpk3v9" ".wav".
Proof.
  assert (H : Forall (fun c => c <> "."%char) (list_ascii_of_string "/tmp/tmpk3v9")).
  { cbn [list_ascii_of_string]. repeat (constructor; [discriminate|]). constructor. }
  split; [exact H|].
  exact (proj2 (wav_path_beside_webm_path "/tmp/tmpk3v9") H).
Defined.

(** A handler whose model answers one row of four scores. *)
Lemma handler_predict_outcomes_witness :
  exists r,
    ModelHandler.predict (Samples.handler [[0.5; 0.8; 0.35; 0.2]]) [] "quick" = inr r /\
    0 <= ModelHandler.overall_health r <= 100 /\
    (length (ModelHandler.issues r) <= 3)%nat.
Proof.
  destruct (ModelHandler.predict (Samples.handler [[0.5; 0.8; 0.35; 0.2]]) [] "quick")
    as [e|r] eqn:H; [vm_compute in H; discriminate H|].
  exists r. split; [reflexivity|].
  exact (proj1 (handler_predict_outcomes (Samples.handler [[0.5; 0.8; 0.35; 0.2]])
                  [] "quick") r H).
Defined.

End MoreRuns.

(** * Floating-point arithmetic *)

(** ** Rounding to nearest *)

Section Binary.
Local Open Scope Q_scope.

Lemma pow2_pos (k : Z) : 0 < Ieee.pow2 k.
Proof. apply Qpower_0_lt. reflexivity. Qed.

Lemma pow2_add (a b : Z) : Ieee.pow2 (a + b) == Ieee.pow2 a * Ieee.pow2 b.
Proof. apply Qpower_plus. discriminate. Qed.

Lemma pow2_le (a b : Z) : (a <= b)%Z -> Ieee.pow2 a <= Ieee.pow2 b.
Proof. intros H. apply Qpower_le_compat_l; [exact H|discriminate]. Qed.

Lemma pow2_lt (a b : Z) : (a < b)%Z -> Ieee.pow2 a < Ieee.pow2 b.
Proof. intros H. apply Qpower_lt_compat_l; [exact H|reflexivity]. Qed.

Lemma pow2_Z (k : Z) : (0 <= k)%Z -> Ieee.pow2 k == inject_Z (2 ^ k).
Proof. intros H. unfold Ieee.pow2. rewrite Zpower_Qpower by exact H. reflexivity. Qed.

Lemma pow2_succ (k : Z) : Ieee.pow2 (k + 1) == 2 * Ieee.pow2 k.
Proof. rewrite pow2_add. change (Ieee.pow2 1) with 2. ring. Qed.

Lemma pow2_sub (a b : Z) : Ieee.pow2 (a - b) == Ieee.pow2 a / Ieee.pow2 b.
Proof.
  pose proof (pow2_pos b) as Hb.
  assert (H : Ieee.pow2 a == Ieee.pow2 (a - b) * Ieee.pow2 b).
  { rewrite <- pow2_add. replace (a - b + b)%Z with a by ring. reflexivity. }
  rewrite H. field. lra.
Qed.

(** The integer logarithm brackets its argument. *)
Lemma ilog2_spec (x : Q) :
  0 < x -> Ieee.pow2 (Ieee.ilog2 x) <= x /\ x < Ieee.pow2 (Ieee.ilog2 x + 1).
Proof.
  intros Hx. destruct x as [n d]. unfold Ieee.ilog2. cbn [Qnum Qden].
  assert (Hn : (0 < n)%Z) by (unfold Qlt in Hx; cbn in Hx; lia).
  destruct (Z.log2_spec n Hn) as [Hn1 Hn2].
  destruct (Z.log2_spec (Z.pos d) (Pos2Z.is_pos d)) as [Hd1 Hd2].
  pose proof (Z.log2_nonneg n) as Ha. pose proof (Z.log2_nonneg (Z.pos d)) as Hb.
  set (a := Z.log2 n) in *. set (b := Z.log2 (Z.pos d)) in *.
  assert (Hq : n # d == inject_Z n / inject_Z (Z.pos d)) by apply Qmake_Qdiv.
  assert (Hdpos : 0 < inject_Z (Z.pos d)) by (rewrite <- (Zlt_Qlt 0); lia).
  rewrite Zle_Qle in Hn1, Hd1. rewrite Zlt_Qlt in Hn2, Hd2.
  rewrite Z.pow_succ_r in Hn2, Hd2 by lia.
  rewrite inject_Z_mult in Hn2, Hd2.
  rewrite <- !pow2_Z in Hn1, Hd1, Hn2, Hd2 by lia.
  change (inject_Z 2) with 2 in *.
  pose proof (pow2_pos a) as Hpa. pose proof (pow2_pos b) as Hpb.
  pose proof (pow2_pos (a - b)) as Hpab.
  assert (Hab : Ieee.pow2 a == Ieee.pow2 (a - b) * Ieee.pow2 b).
  { rewrite <- pow2_add. replace (a - b + b)%Z with a by ring. reflexivity. }
  set (N := inject_Z n) in *. set (D := inject_Z (Z.pos d)) in *.
  set (A := Ieee.pow2 a) in *. set (B := Ieee.pow2 b) in *.
  set (C := Ieee.pow2 (a - b)) in *.
  assert (Hx' : n # d == N / D) by exact Hq.
  assert (Hup : N / D < 2 * C).
  { apply Qlt_shift_div_r; [exact Hdpos|]. nra. }
  assert (Hlo : C < 2 * (N / D)).
  { assert (H : C * D < 2 * N) by nra.
    assert (HN : N == (N / D) * D) by (field; lra).
    rewrite HN in H. nra. }
  destruct (Qle_bool C (n # d)) eqn:Ht.
  - apply Qle_bool_iff in Ht. split; [exact Ht|].
    rewrite pow2_succ. fold C. rewrite Hx'. exact Hup.
  - assert (Hlt : n # d < C).
    { apply Qnot_le_lt. intros H. apply Qle_bool_iff in H. congruence. }
    replace (a - b - 1 + 1)%Z with (a - b)%Z by ring. fold C.
    split; [|exact Hlt].
    assert (Hh : C == 2 * Ieee.pow2 (a - b - 1)).
    { unfold C. rewrite <- pow2_succ. replace (a - b - 1 + 1)%Z with (a - b)%Z by ring.
      reflexivity. }
    rewrite Hx'. lra.
Qed.

Lemma ilog2_unique (x : Q) (k : Z) :
  Ieee.pow2 k <= x -> x < Ieee.pow2 (k + 1) -> Ieee.ilog2 x = k.
Proof.
  intros H1 H2.
  assert (Hx : 0 < x) by (pose proof (pow2_pos k); lra).
  destruct (ilog2_spec x Hx) as [H3 H4].
  assert (Ha : (Ieee.ilog2 x < k + 1)%Z).
  { apply Qpower_lt_compat_l_inv with 2; [|reflexivity].
    apply Qle_lt_trans with x; assumption. }
  assert (Hb : (k < Ieee.ilog2 x + 1)%Z).
  { apply Qpower_lt_compat_l_inv with 2; [|reflexivity].
    apply Qle_lt_trans with x; assumption. }
  lia.
Qed.

Lemma ilog2_monotone (x y : Q) : 0 < x -> x <= y -> (Ieee.ilog2 x <= Ieee.ilog2 y)%Z.
Proof.
  intros Hx Hxy.
  destruct (ilog2_spec x Hx) as [H1 _].
  destruct (ilog2_spec y) as [_ H2]; [lra|].
  assert (H : (Ieee.ilog2 x < Ieee.ilog2 y + 1)%Z).
  { apply Qpower_lt_compat_l_inv with 2; [|reflexivity].
    apply Qle_lt_trans with x; [exact H1|]. apply Qle_lt_trans with y; assumption. }
  lia.
Qed.


Lemma nearest_zero (fmt : Ieee.format) (x : Q) : x == 0 -> Ieee.nearest fmt x = 0.
Proof.
  intros H. unfold Ieee.nearest.
  destruct (Qeq_bool x 0) eqn:Hb; [reflexivity|].
  apply Qeq_bool_neq in Hb. contradiction.
Qed.

Lemma nearest_eq (fmt : Ieee.format) (x : Q) :
  ~ x == 0 ->
  Ieee.nearest fmt x ==
  inject_Z (Py.round_half_even (x / Ieee.pow2 (Ieee.quantum fmt x)))
  * Ieee.pow2 (Ieee.quantum fmt x).
Proof.
  intros H. unfold Ieee.nearest.
  destruct (Qeq_bool x 0) eqn:Hb.
  - apply Qeq_bool_iff in Hb. contradiction.
  - apply Qred_correct.
Qed.

Lemma Qabs_nonneg_eq (x : Q) : 0 <= x -> Qabs x = x.
Proof.
  destruct x as [n d]. unfold Qle, Qabs. cbn. intros H. f_equal. lia.
Qed.

Lemma quantum_monotone (fmt : Ieee.format) (x y : Q) :
  0 < x -> x <= y -> (Ieee.quantum fmt x <= Ieee.quantum fmt y)%Z.
Proof.
  intros Hx Hxy. unfold Ieee.quantum.
  rewrite !Qabs_nonneg_eq by lra.
  pose proof (ilog2_monotone x y Hx Hxy). lia.
Qed.

(** The significand of a positive number has at most [prec] bits. *)
Lemma significand_lt (fmt : Ieee.format) (x : Q) :
  0 < x -> x / Ieee.pow2 (Ieee.quantum fmt x) < Ieee.pow2 (Ieee.prec fmt).
Proof.
  intros Hx. pose proof (pow2_pos (Ieee.quantum fmt x)) as Hq.
  apply Qlt_shift_div_r; [exact Hq|].
  rewrite <- pow2_add.
  destruct (ilog2_spec x Hx) as [_ H].
  apply Qlt_le_trans with (Ieee.pow2 (Ieee.ilog2 x + 1)); [exact H|].
  apply pow2_le. unfold Ieee.quantum. rewrite Qabs_nonneg_eq by lra. lia.
Qed.

(** Above the subnormal range it has exactly [prec] bits. *)
Lemma significand_ge (fmt : Ieee.format) (x : Q) :
  0 < x -> (Ieee.emin fmt < Ieee.quantum fmt x)%Z ->
  Ieee.pow2 (Ieee.prec fmt - 1) <= x / Ieee.pow2 (Ieee.quantum fmt x).
Proof.
  intros Hx He. pose proof (pow2_pos (Ieee.quantum fmt x)) as Hq.
  apply Qle_shift_div_l; [exact Hq|].
  rewrite <- pow2_add.
  destruct (ilog2_spec x Hx) as [H _].
  apply Qle_trans with (Ieee.pow2 (Ieee.ilog2 x)); [|exact H].
  apply pow2_le. unfold Ieee.quantum in *. rewrite Qabs_nonneg_eq in * by lra. lia.
Qed.

Lemma nearest_nonneg (fmt : Ieee.format) (x : Q) : 0 <= x -> 0 <= Ieee.nearest fmt x.
Proof.
  intros Hx. destruct (Qeq_dec x 0) as [H0|H0].
  - rewrite (nearest_zero fmt x H0). lra.
  - rewrite (nearest_eq fmt x H0).
    pose proof (pow2_pos (Ieee.quantum fmt x)) as Hq.
    apply Qmult_le_0_compat; [|lra].
    change 0 with (inject_Z 0). rewrite <- Zle_Qle.
    rewrite <- (round_half_even_integer 0 0) by reflexivity.
    apply round_half_even_monotone.
    apply Qle_shift_div_l; [exact Hq|]. lra.
Qed.

(** Rounding to nearest never reverses the order of two numbers. *)
Lemma nearest_monotone (fmt : Ieee.format) (x y : Q) :
  (1 <= Ieee.prec fmt)%Z -> 0 <= x -> x <= y ->
  Ieee.nearest fmt x <= Ieee.nearest fmt y.
Proof.
  intros Hp Hx Hxy.
  destruct (Qeq_dec x 0) as [H0|H0].
  { rewrite (nearest_zero fmt x H0). apply nearest_nonneg. lra. }
  assert (Hx' : 0 < x) by (destruct (Qlt_le_dec 0 x); [assumption|exfalso; apply H0; lra]).
  assert (Hy' : 0 < y) by lra.
  assert (Hy0 : ~ y == 0) by lra.
  rewrite (nearest_eq fmt x H0), (nearest_eq fmt y Hy0).
  pose proof (quantum_monotone fmt x y Hx' Hxy) as Hq.
  pose proof (pow2_pos (Ieee.quantum fmt x)) as Hqx.
  pose proof (pow2_pos (Ieee.quantum fmt y)) as Hqy.
  destruct (Z.eq_dec (Ieee.quantum fmt x) (Ieee.quantum fmt y)) as [Heq|Hne].
  - rewrite Heq. apply Qmult_le_compat_r; [|lra].
    rewrite <- Zle_Qle. apply round_half_even_monotone.
    rewrite Heq in Hqx.
    apply Qmult_le_compat_r; [exact Hxy|].
    apply Qlt_le_weak, Qinv_lt_0_compat. exact Hqy.
  - assert (Hlt : (Ieee.quantum fmt x < Ieee.quantum fmt y)%Z) by lia.
    assert (Hnorm : (Ieee.emin fmt < Ieee.quantum fmt y)%Z).
    { unfold Ieee.quantum in *. lia. }
    pose proof (significand_lt fmt x Hx') as Hsx.
    pose proof (significand_ge fmt y Hy' Hnorm) as Hsy.
    rewrite (pow2_Z (Ieee.prec fmt)) in Hsx by lia.
    rewrite (pow2_Z (Ieee.prec fmt - 1)) in Hsy by lia.
    assert (Hrx : (Py.round_half_even (x / Ieee.pow2 (Ieee.quantum fmt x))
                   <= 2 ^ Ieee.prec fmt)%Z).
    { rewrite <- (round_half_even_integer (inject_Z (2 ^ Ieee.prec fmt))
                    (2 ^ Ieee.prec fmt)) by reflexivity.
      apply round_half_even_monotone. lra. }
    assert (Hry : (2 ^ (Ieee.prec fmt - 1)
                   <= Py.round_half_even (y / Ieee.pow2 (Ieee.quantum fmt y)))%Z).
    { rewrite <- (round_half_even_integer (inject_Z (2 ^ (Ieee.prec fmt - 1)))
                    (2 ^ (Ieee.prec fmt - 1))) by reflexivity.
      apply round_half_even_monotone. exact Hsy. }
    rewrite Zle_Qle in Hrx, Hry.
    rewrite <- (pow2_Z (Ieee.prec fmt)) in Hrx by lia.
    rewrite <- (pow2_Z (Ieee.prec fmt - 1)) in Hry by lia.
    apply Qle_trans with (Ieee.pow2 (Ieee.prec fmt) * Ieee.pow2 (Ieee.quantum fmt x)).
    { apply Qmult_le_compat_r; [exact Hrx|lra]. }
    apply Qle_trans with (Ieee.pow2 (Ieee.prec fmt - 1) * Ieee.pow2 (Ieee.quantum fmt y)).
    2:{ apply Qmult_le_compat_r; [exact Hry|lra]. }
    rewrite <- !pow2_add. apply pow2_le. lia.
Qed.

(** The rounding error is at most half the quantum. *)
Lemma nearest_error (fmt : Ieee.format) (x : Q) :
  Qabs (Ieee.nearest fmt x - x) <= Ieee.pow2 (Ieee.quantum fmt x - 1).
Proof.
  pose proof (pow2_pos (Ieee.quantum fmt x - 1)) as Hh.
  destruct (Qeq_dec x 0) as [H0|H0].
  { rewrite (nearest_zero fmt x H0). apply Qabs_Qle_condition. split; lra. }
  rewrite (nearest_eq fmt x H0).
  pose proof (pow2_pos (Ieee.quantum fmt x)) as Hq.
  pose proof (round_half_even_error (x / Ieee.pow2 (Ieee.quantum fmt x))) as He.
  apply Qabs_Qle_condition in He. apply Qabs_Qle_condition.
  assert (Hs : Ieee.pow2 (Ieee.quantum fmt x) == 2 * Ieee.pow2 (Ieee.quantum fmt x - 1)).
  { rewrite <- pow2_succ. replace (Ieee.quantum fmt x - 1 + 1)%Z with (Ieee.quantum fmt x)
      by ring. reflexivity. }
  set (m := x / Ieee.pow2 (Ieee.quantum fmt x)) in *.
  assert (Hx : x == m * Ieee.pow2 (Ieee.quantum fmt x)) by (unfold m; field; lra).
  set (r := inject_Z (Py.round_half_even m)) in *.
  set (P := Ieee.pow2 (Ieee.quantum fmt x)) in *.
  set (h := Ieee.pow2 (Ieee.quantum fmt x - 1)) in *.
  destruct He as [He1 He2]. split; nra.
Qed.

(** On [[-2^k, 2^k]] the error is at most [2^(k - prec)]. *)
Lemma nearest_error_below (fmt : Ieee.format) (x : Q) (k : Z) :
  (Ieee.emin fmt <= k - Ieee.prec fmt + 1)%Z ->
  Qabs x <= Ieee.pow2 k ->
  Qabs (Ieee.nearest fmt x - x) <= Ieee.pow2 (k - Ieee.prec fmt).
Proof.
  intros He Hk.
  destruct (Qeq_dec x 0) as [H0|H0].
  { rewrite (nearest_zero fmt x H0). pose proof (pow2_pos (k - Ieee.prec fmt)).
    apply Qabs_Qle_condition. split; lra. }
  assert (Hx' : 0 < Qabs x).
  { pose proof (Qabs_nonneg x) as Hn.
    destruct (Qlt_le_dec 0 (Qabs x)) as [H|H]; [exact H|exfalso].
    apply H0. apply Qabs_Qle_condition in H. lra. }
  apply Qle_trans with (Ieee.pow2 (Ieee.quantum fmt x - 1)); [apply nearest_error|].
  apply pow2_le.
  assert (Hl : (Ieee.ilog2 (Qabs x) <= k)%Z).
  { destruct (ilog2_spec (Qabs x) Hx') as [H1 _].
    apply Qpower_le_compat_l_inv with 2; [|reflexivity].
    apply Qle_trans with (Qabs x); assumption. }
  unfold Ieee.quantum. lia.
Qed.

(** A number of [[-2^k, 2^k]] with [k] below the largest exponent is rounded
    to a finite number. *)
Lemma round_finite (fmt : Ieee.format) (x : Q) (k : Z) :
  (1 <= Ieee.prec fmt)%Z ->
  (Ieee.emin fmt <= k - Ieee.prec fmt + 1)%Z -> (k < Ieee.emax fmt)%Z ->
  Qabs x <= Ieee.pow2 k ->
  Ieee.round fmt x = Ieee.Num (Ieee.nearest fmt x) /\
  Qabs (Ieee.nearest fmt x - x) <= Ieee.pow2 (k - Ieee.prec fmt).
Proof.
  intros Hp He Hm Hk.
  pose proof (nearest_error_below fmt x k He Hk) as Herr.
  split; [|exact Herr].
  assert (Hs : Ieee.pow2 (k - Ieee.prec fmt) <= Ieee.pow2 (k - 1)) by (apply pow2_le; lia).
  assert (Hh : Ieee.pow2 k == 2 * Ieee.pow2 (k - 1)).
  { rewrite <- pow2_succ. replace (k - 1 + 1)%Z with k by ring. reflexivity. }
  pose proof (pow2_pos (k - 1)) as Hpk1.
  assert (Hd : Ieee.pow2 (k + 1) <= Ieee.pow2 (Ieee.emax fmt)) by (apply pow2_le; lia).
  rewrite pow2_succ in Hd.
  pose proof (pow2_pos k) as Hpk.
  apply Qabs_Qle_condition in Hk. apply Qabs_Qle_condition in Herr.
  unfold Ieee.round.
  destruct (Qle_bool (Ieee.pow2 (Ieee.emax fmt)) (Ieee.nearest fmt x)) eqn:Hc1.
  { apply Qle_bool_iff in Hc1. lra. }
  destruct (Qle_bool (Ieee.nearest fmt x) (- Ieee.pow2 (Ieee.emax fmt))) eqn:Hc2.
  { apply Qle_bool_iff in Hc2. lra. }
  reflexivity.
Qed.

(** A number between two numbers that the format holds is rounded to a
    number between them. *)
Lemma round_between (fmt : Ieee.format) (lo hi x : Q) :
  (1 <= Ieee.prec fmt)%Z -> 0 <= lo ->
  Ieee.nearest fmt lo == lo -> Ieee.nearest fmt hi == hi ->
  hi < Ieee.pow2 (Ieee.emax fmt) ->
  lo <= x -> x <= hi ->
  Ieee.round fmt x = Ieee.Num (Ieee.nearest fmt x) /\
  lo <= Ieee.nearest fmt x /\ Ieee.nearest fmt x <= hi.
Proof.
  intros Hp H0 Hl Hh Hmax H1 H2.
  assert (Ha : lo <= Ieee.nearest fmt x).
  { rewrite <- Hl. apply nearest_monotone; assumption. }
  assert (Hb : Ieee.nearest fmt x <= hi).
  { rewrite <- Hh. apply nearest_monotone; [assumption|lra|assumption]. }
  split; [|split; assumption].
  unfold Ieee.round.
  pose proof (pow2_pos (Ieee.emax fmt)) as He.
  destruct (Qle_bool (Ieee.pow2 (Ieee.emax fmt)) (Ieee.nearest fmt x)) eqn:Hc1.
  { apply Qle_bool_iff in Hc1. lra. }
  destruct (Qle_bool (Ieee.nearest fmt x) (- Ieee.pow2 (Ieee.emax fmt))) eqn:Hc2.
  { apply Qle_bool_iff in Hc2. lra. }
  reflexivity.
Qed.

End Binary.

(** ** Values of a format *)

Section Idempotence.
Local Open Scope Q_scope.
Import Ieee.


Lemma round_half_even_comp (x y : Q) :
  x == y -> Py.round_half_even x = Py.round_half_even y.
Proof.
  intros H.
  assert (Hxy : x <= y) by (rewrite H; apply Qle_refl).
  assert (Hyx : y <= x) by (rewrite H; apply Qle_refl).
  pose proof (round_half_even_monotone x y Hxy).
  pose proof (round_half_even_monotone y x Hyx). lia.
Qed.

Lemma ilog2_comp (x y : Q) : 0 < x -> x == y -> ilog2 x = ilog2 y.
Proof.
  intros Hx Hxy. symmetry. destruct (ilog2_spec x Hx) as [H1 H2].
  apply ilog2_unique; lra.
Qed.

(** Rounding does not depend on how the fraction is written. *)
Lemma nearest_comp (fmt : format) (x y : Q) :
  x == y -> nearest fmt x == nearest fmt y.
Proof.
  intros Hxy. destruct (Qeq_dec x 0) as [H0|H0].
  { rewrite (nearest_zero fmt x H0), (nearest_zero fmt y); [reflexivity|lra]. }
  assert (Hy0 : ~ y == 0) by lra.
  rewrite (nearest_eq fmt x H0), (nearest_eq fmt y Hy0).
  assert (Hq : quantum fmt x = quantum fmt y).
  { unfold quantum. f_equal. f_equal. apply ilog2_comp.
    - pose proof (Qabs_nonneg x) as Hn.
      destruct (Qlt_le_dec 0 (Qabs x)) as [H|H]; [exact H|exfalso].
      apply H0. apply Qabs_Qle_condition in H. lra.
    - rewrite Hxy. reflexivity. }
  rewrite Hq.
  rewrite (round_half_even_comp (x / pow2 (quantum fmt y)) (y / pow2 (quantum fmt y))).
  - reflexivity.
  - rewrite Hxy. reflexivity.
Qed.

(** A multiple of the quantum with at most [prec] bits is a value of the
    format. *)
Lemma nearest_multiple (fmt : format) (m q : Z) :
  (1 <= prec fmt)%Z -> (emin fmt <= q)%Z -> (0 <= m <= 2 ^ prec fmt)%Z ->
  nearest fmt (inject_Z m * pow2 q) == inject_Z m * pow2 q.
Proof.
  intros Hp Hq [Hm0 Hm1].
  pose proof (pow2_pos q) as Hpq.
  destruct (Z.eq_dec m 0%Z) as [->|Hne].
  { rewrite nearest_zero; [ring|]. ring. }
  set (r := inject_Z m * pow2 q).
  assert (Hm : 1 <= inject_Z m) by (rewrite <- (Zle_Qle 1); lia).
  assert (Hr : 0 < r) by (unfold r; nra).
  assert (Hr0 : ~ r == 0) by lra.
  rewrite (nearest_eq fmt r Hr0).
  assert (Hquant : (quantum fmt r <= q + 1)%Z /\
                   ((quantum fmt r = q + 1)%Z -> m = (2 ^ prec fmt)%Z)).
  { unfold quantum. rewrite Qabs_nonneg_eq by lra.
    destruct (Z.eq_dec m (2 ^ prec fmt)%Z) as [He|Hlt].
    - assert (Hlog : ilog2 r = (prec fmt + q)%Z).
      { apply ilog2_unique.
        - unfold r. rewrite He, <- pow2_Z by lia. rewrite <- pow2_add. apply Qle_refl.
        - unfold r. rewrite He, <- pow2_Z by lia. rewrite <- pow2_add.
          apply pow2_lt. lia. }
      rewrite Hlog. split; [lia|]. intros _. exact He.
    - assert (Hlog : (ilog2 r < prec fmt + q)%Z).
      { destruct (ilog2_spec r Hr) as [H1 _].
        apply Qpower_lt_compat_l_inv with 2; [|reflexivity].
        apply Qle_lt_trans with r; [exact H1|].
        unfold r. fold (pow2 (prec fmt + q)). rewrite pow2_add.
        apply Qmult_lt_compat_r; [exact Hpq|].
        rewrite pow2_Z by lia. rewrite <- Zlt_Qlt. lia. }
      split; [lia|]. intros H. lia. }
  destruct Hquant as [Hle Htop].
  set (Q0 := quantum fmt r) in *.
  pose proof (pow2_pos Q0) as HpQ.
  destruct (Z.eq_dec Q0 (q + 1)%Z) as [Heq|Hneq].
  - pose proof (Htop Heq) as Hm2.
    assert (Hint : r / pow2 Q0 == inject_Z (2 ^ (prec fmt - 1))).
    { unfold r. rewrite Hm2, Heq, <- !pow2_Z by lia.
      assert (H1 : pow2 (prec fmt) == 2 * pow2 (prec fmt - 1)).
      { rewrite <- pow2_succ.
        replace (prec fmt - 1 + 1)%Z with (prec fmt) by ring. reflexivity. }
      rewrite H1, pow2_succ. field. lra. }
    rewrite (round_half_even_integer _ _ Hint), <- Hint. field. lra.
  - assert (Hd : (0 <= q - Q0)%Z) by lia.
    assert (Hint : r / pow2 Q0 == inject_Z (m * 2 ^ (q - Q0))).
    { unfold r. rewrite inject_Z_mult, <- pow2_Z by lia.
      rewrite pow2_sub. field. lra. }
    rewrite (round_half_even_integer _ _ Hint), <- Hint. field. lra.
Qed.

(** Rounding a second time changes nothing. *)
Lemma nearest_idempotent (fmt : format) (x : Q) :
  (1 <= prec fmt)%Z -> 0 <= x ->
  nearest fmt (nearest fmt x) == nearest fmt x.
Proof.
  intros Hp Hx.
  destruct (Qeq_dec x 0) as [H0|H0].
  { rewrite (nearest_zero fmt x H0). rewrite nearest_zero; reflexivity. }
  assert (Hx' : 0 < x) by (destruct (Qlt_le_dec 0 x); [assumption|exfalso; apply H0; lra]).
  assert (Heq : nearest fmt x ==
                inject_Z (Py.round_half_even (x / pow2 (quantum fmt x)))
                * pow2 (quantum fmt x)) by (apply nearest_eq; exact H0).
  set (m := Py.round_half_even (x / pow2 (quantum fmt x))) in *.
  set (q := quantum fmt x) in *.
  assert (Hm : (0 <= m <= 2 ^ prec fmt)%Z).
  { pose proof (pow2_pos q) as Hq. split.
    - unfold m. rewrite <- (round_half_even_integer 0 0) by reflexivity.
      apply round_half_even_monotone. apply Qle_shift_div_l; [exact Hq|]. lra.
    - unfold m. rewrite <- (round_half_even_integer (inject_Z (2 ^ prec fmt))
                              (2 ^ prec fmt)) by reflexivity.
      apply round_half_even_monotone.
      pose proof (significand_lt fmt x Hx') as Hs.
      rewrite (pow2_Z (prec fmt)) in Hs by lia. fold q in Hs. lra. }
  assert (Hq : (emin fmt <= q)%Z) by (unfold q, quantum; lia).
  pose proof (nearest_multiple fmt m q Hp Hq Hm) as Hmul.
  rewrite (nearest_comp fmt _ _ Heq). rewrite Hmul. symmetry. exact Heq.
Qed.

Lemma nearest_comp_zero (fmt : format) : nearest fmt 0 == 0.
Proof. rewrite nearest_zero; reflexivity. Qed.

End Idempotence.

(** ** The health score in double precision *)

Section FloatHealth.
Local Open Scope Q_scope.
Import Ieee.

Ltac exact_double := vm_compute; reflexivity.

Lemma binary64_between (lo hi x : Q) :
  0 <= lo -> nearest binary64 lo == lo -> nearest binary64 hi == hi ->
  hi <= 128 -> lo <= x -> x <= hi ->
  round binary64 x = Num (nearest binary64 x) /\
  lo <= nearest binary64 x /\ nearest binary64 x <= hi /\
  Qabs (nearest binary64 x - x) <= 1 # 70368744177664.
Proof.
  intros H0 Hl Hh Hm H1 H2.
  destruct (round_between binary64 lo hi x) as (Hr & Ha & Hb); try assumption.
  - cbn. lia.
  - apply Qle_lt_trans with 128; [exact Hm|]. vm_compute. reflexivity.
  - split; [exact Hr|]. split; [exact Ha|]. split; [exact Hb|].
    change (1 # 70368744177664) with (pow2 (7 - prec binary64)).
    apply nearest_error_below; [cbn; lia|].
    apply Qabs_Qle_condition. change (pow2 7) with 128. split; lra.
Qed.

(** [90 + confidence * 10] in doubles. *)
Lemma health_sum_normal (c : Q) :
  0 <= c <= 1 ->
  exists y,
    add binary64 (Num 90) (mul binary64 (Num c) (Num 10)) = Num y /\
    90 <= y <= 100 /\
    Qabs (y - (90 + c * 10)) <= 1 # 35184372088832.
Proof.
  intros [H0 H1]. cbn [mul].
  destruct (binary64_between 0 10 (c * 10)) as (Hr & Ha & Hb & He);
    [lra|exact_double|exact_double|lra|lra|lra|].
  rewrite Hr. cbn [add].
  set (p := nearest binary64 (c * 10)) in *.
  destruct (binary64_between 90 100 (90 + p)) as (Hr2 & Ha2 & Hb2 & He2);
    [lra|exact_double|exact_double|lra|lra|lra|].
  rewrite Hr2. exists (nearest binary64 (90 + p)).
  split; [reflexivity|]. split; [split; assumption|].
  apply Qabs_Qle_condition in He. apply Qabs_Qle_condition in He2.
  apply Qabs_Qle_condition. split; lra.
Qed.

(** [(1 - confidence) * 100] in doubles. *)
Lemma health_product_fault (c : Q) :
  0 <= c <= 1 ->
  exists z,
    mul binary64 (sub binary64 (Num 1) (Num c)) (Num 100) = Num z /\
    0 <= z <= 100 /\
    Qabs (z - (1 - c) * 100) <= 1 # 35184372088832.
Proof.
  intros [H0 H1]. unfold sub. cbn [neg add].
  destruct (round_finite binary64 (1 + - c) 0) as (Hr & He);
    [cbn; lia|cbn; lia|cbn; lia| |].
  { apply Qabs_Qle_condition. change (pow2 0) with 1. split; lra. }
  destruct (round_between binary64 0 1 (1 + - c)) as (_ & Ha & Hb);
    [cbn; lia|lra|exact_double|exact_double|exact_double|lra|lra|].
  rewrite Hr. cbn [mul].
  change (pow2 (0 - prec binary64)) with (1 # 9007199254740992) in He.
  set (d := nearest binary64 (1 + - c)) in *.
  destruct (binary64_between 0 100 (d * 100)) as (Hr2 & Ha2 & Hb2 & He2);
    [lra|exact_double|exact_double|lra|lra|lra|].
  rewrite Hr2. exists (nearest binary64 (d * 100)).
  split; [reflexivity|]. split; [split; assumption|].
  apply Qabs_Qle_condition in He. apply Qabs_Qle_condition in He2.
  apply Qabs_Qle_condition. split; lra.
Qed.

(** C4: for every confidence in [0,1] and every final label the health score
    is an integer between 0 and 100.  On the label "normal" it is
    [int(90 + confidence * 10)], computed in doubles: the integer part of a
    double that lies between 90 and 100 and within 2^-45 of
    [90 + confidence * 10]; it is 90 at confidence 0.0 and 100 at confidence
    1.0.  On any other label it is [max(30, int((1 - confidence) * 100))],
    where the product is a double between 0 and 100 and within 2^-45 of
    [(1 - confidence) * 100].  So the score is the integer part of the
    formula except where the formula comes within 2^-45 of an integer. *)
Theorem health_score_in_doubles (label : string) (c : Q) :
  0 <= c <= 1 ->
  exists h,
    Machine.Backend.health_logic label (Num c) = inr h /\
    (0 <= h <= 100)%Z /\
    (label = "normal" ->
       (90 <= h <= 100)%Z /\
       exists y,
         add binary64 (Num 90) (mul binary64 (Num c) (Num 10)) = Num y /\
         h = Py.int y /\
         Qabs (y - (90 + c * 10)) <= 1 # 35184372088832 /\
         inject_Z h <= 90 + c * 10 + (1 # 35184372088832) /\
         90 + c * 10 - (1 # 35184372088832) < inject_Z h + 1) /\
    (label <> "normal" ->
       (30 <= h <= 100)%Z /\
       exists z,
         mul binary64 (sub binary64 (Num 1) (Num c)) (Num 100) = Num z /\
         h = Z.max 30 (Py.int z) /\
         Qabs (z - (1 - c) * 100) <= 1 # 35184372088832 /\
         inject_Z h <= Qmax 30 ((1 - c) * 100 + (1 # 35184372088832)) /\
         (1 - c) * 100 - (1 # 35184372088832) < inject_Z h + 1) /\
    Machine.Backend.health_logic "normal" (Num 0.0) = inr 90%Z /\
    Machine.Backend.health_logic "normal" (Num 1.0) = inr 100%Z.
Proof.
  intros Hc. unfold Machine.Backend.health_logic at 1.
  destruct (String.eqb_spec label "normal") as [Hl|Hl].
  - destruct (health_sum_normal c Hc) as (y & Hy & Hr & He).
    rewrite Hy. cbn [to_int].
    assert (Hi : (90 <= Py.int y <= 100)%Z).
    { apply int_between; [lia| |]; change (inject_Z 90) with 90;
        change (inject_Z 100) with 100; lra. }
    destruct (int_bracket y) as [Hb1 Hb2]; [lra|].
    apply Qabs_Qle_condition in He.
    exists (Py.int y). split; [reflexivity|]. split; [lia|].
    split; [|split; [intros Hn; contradiction|split; vm_compute; reflexivity]].
    intros _. split; [exact Hi|]. exists y.
    split; [reflexivity|]. split; [reflexivity|].
    split; [apply Qabs_Qle_condition; exact He|]. split; lra.
  - destruct (health_product_fault c Hc) as (z & Hz & Hr & He).
    rewrite Hz. cbn [to_int].
    assert (Hi : (0 <= Py.int z <= 100)%Z).
    { apply int_between; [lia| |]; change (inject_Z 0) with 0;
        change (inject_Z 100) with 100; lra. }
    destruct (int_bracket z) as [Hb1 Hb2]; [lra|].
    apply Qabs_Qle_condition in He.
    exists (Z.max 30 (Py.int z)). split; [reflexivity|]. split; [lia|].
    split; [intros Hn; contradiction|].
    split; [|split; vm_compute; reflexivity].
    intros _. split; [lia|]. exists z.
    split; [reflexivity|]. split; [reflexivity|].
    split; [apply Qabs_Qle_condition; exact He|]. split.
    + destruct (Z.max_spec 30 (Py.int z)) as [[Hlt ->]|[Hge ->]].
      * apply Qle_trans with ((1 - c) * 100 + (1 # 35184372088832)); [lra|].
        apply Q.le_max_r.
      * apply Q.le_max_l.
    + destruct (Z.max_spec 30 (Py.int z)) as [[Hlt ->]|[Hge ->]]; [lra|].
      rewrite Zle_Qle in Hge. lra.
Qed.

(** The health score at confidence 0.75 on a fault label. *)
Lemma health_score_in_doubles_witness :
  0 <= 0.75 <= 1 /\
  exists h,
    Machine.Backend.health_logic "knocking" (Num 0.75) = inr h /\ (30 <= h <= 100)%Z.
Proof.
  assert (H : 0 <= 0.75 <= 1) by (split; unfold Qle; simpl; lia).
  split; [exact H|].
  destruct (health_score_in_doubles "knocking" 0.75 H) as (h & Hh & _ & _ & Hf & _).
  exists h. split; [exact Hh|]. apply Hf. discriminate.
Defined.

(** At the double nearest to 0.65 the product [(1 - confidence) * 100] is
    35.0 in doubles and the score is 35, while the exact product is below 35
    and its integer part is 34. *)
Lemma health_score_differs_from_formula :
  exists c,
    literal 0.65 = Num c /\ 0 <= c <= 1 /\
    Machine.Backend.health_logic "knocking" (Num c) = inr 35%Z /\
    ~ inject_Z 35 == Qmax 30 ((1 - c) * 100) /\
    Z.max 30 (Py.int ((1 - c) * 100)) = 34%Z.
Proof.
  eexists. split; [vm_compute; reflexivity|].
  split; [split; vm_compute; discriminate|].
  split; [vm_compute; reflexivity|].
  split; [vm_compute; discriminate|vm_compute; reflexivity].
Qed.

End FloatHealth.

(** ** The order of floating-point values and [argmax] *)

Section FloatOrder.
Import Ieee.

Lemma float_le_not_nan (a b : float) : le a b = true -> is_nan a = false /\ is_nan b = false.
Proof. destruct a, b; cbn; try discriminate; split; reflexivity. Qed.

Lemma float_le_refl (a : float) : is_nan a = false -> le a a = true.
Proof.
  destruct a; cbn; try discriminate; try reflexivity.
  intros _. apply Qle_bool_iff. apply Qle_refl.
Qed.

Lemma float_le_trans (a b c : float) : le a b = true -> le b c = true -> le a c = true.
Proof.
  destruct a, b, c; cbn; try discriminate; try reflexivity.
  rewrite !Qle_bool_iff. apply Qle_trans.
Qed.

Lemma float_le_total (a b : float) :
  is_nan a = false -> is_nan b = false -> le a b = false -> lt b a = true.
Proof.
  unfold lt. destruct a, b; cbn; try discriminate; try reflexivity.
  intros _ _ H. rewrite H. cbn. rewrite andb_true_r.
  apply Qle_bool_iff. apply Qlt_le_weak, Qnot_le_lt.
  intros Hle. apply Qle_bool_iff in Hle. congruence.
Qed.

Lemma float_lt_le (a b : float) : lt a b = true -> le a b = true.
Proof. unfold lt. intros H. apply andb_prop in H. tauto. Qed.

Lemma float_le_lt_trans (a b c : float) : le a b = true -> lt b c = true -> lt a c = true.
Proof.
  unfold lt. intros Hab Hbc. apply andb_prop in Hbc. destruct Hbc as [Hbc Hcb].
  apply andb_true_intro. split; [exact (float_le_trans a b c Hab Hbc)|].
  apply negb_true_iff. apply negb_true_iff in Hcb.
  destruct (le c a) eqn:Hca; [|reflexivity].
  rewrite (float_le_trans c a b Hca Hab) in Hcb. discriminate.
Qed.

(** [argmax_from], started after the prefix [pre] whose largest entry [best]
    sits first at [best_i], ends on a [NaN] or on the first position of a
    largest entry. *)
Lemma float_argmax_from (a pre : list float) (best_i : nat) (best : float) :
  best_i < length pre ->
  nth best_i pre NaN = best ->
  Forall (fun x => le x best = true) pre ->
  (forall k, k < best_i -> lt (nth k pre NaN) best = true) ->
  let j := Machine.Np.argmax_from best_i best (length pre) a in
  j < length (pre ++ a) /\
  (nth j (pre ++ a) NaN = NaN \/
   Forall (fun x => le x (nth j (pre ++ a) NaN) = true) (pre ++ a) /\
   forall k, k < j -> lt (nth k (pre ++ a) NaN) (nth j (pre ++ a) NaN) = true).
Proof.
  revert pre best_i best.
  induction a as [|x a IH]; intros pre best_i best Hi Hb Hpre Hfirst.
  - cbn [Machine.Np.argmax_from]. rewrite app_nil_r. split; [exact Hi|].
    right. rewrite Hb. split; assumption.
  - cbn [Machine.Np.argmax_from].
    replace (pre ++ x :: a) with ((pre ++ [x]) ++ a) by (rewrite <- app_assoc; reflexivity).
    replace (S (length pre)) with (length (pre ++ [x])) by (rewrite length_app; cbn; lia).
    destruct (le x best) eqn:Hc.
    + apply IH.
      * rewrite length_app. cbn. lia.
      * rewrite app_nth1 by exact Hi. exact Hb.
      * apply Forall_app. split; [exact Hpre|]. constructor; [exact Hc|constructor].
      * intros k Hk. rewrite app_nth1 by lia. apply Hfirst. exact Hk.
    + destruct (is_nan x) eqn:Hn.
      * destruct x; try discriminate Hn. split.
        -- rewrite !length_app. cbn. lia.
        -- left. rewrite <- app_assoc. rewrite app_nth2 by lia.
           rewrite Nat.sub_diag. reflexivity.
      * assert (Hbn : is_nan best = false).
        { rewrite <- Hb. rewrite Forall_forall in Hpre.
          assert (Hin : nth best_i pre NaN ∈ pre) by (apply list_elem_of_In, nth_In; exact Hi).
          pose proof (Hpre _ Hin) as Hle. rewrite Hb in Hle.
          rewrite Hb. apply (float_le_not_nan best best Hle). }
        pose proof (float_le_total x best Hn Hbn Hc) as Hlt.
        apply (IH (pre ++ [x]) (length pre) x).
        -- rewrite length_app. cbn. lia.
        -- rewrite app_nth2 by lia. rewrite Nat.sub_diag. reflexivity.
        -- apply Forall_app. split.
           ++ eapply Forall_impl; [exact Hpre|]. intros y Hy. cbn beta in *.
              exact (float_le_trans y best x Hy (float_lt_le best x Hlt)).
           ++ constructor; [apply float_le_refl; exact Hn|constructor].
        -- intros k Hk. rewrite app_nth1 by lia.
           rewrite Forall_forall in Hpre.
           apply (float_le_lt_trans _ best x); [|exact Hlt].
           apply Hpre. apply list_elem_of_In, nth_In. exact Hk.
Qed.

Lemma float_argmax (a : list float) :
  a <> [] ->
  Machine.Np.argmax a < length a /\
  (nth (Machine.Np.argmax a) a NaN = NaN \/
   Forall (fun x => le x (nth (Machine.Np.argmax a) a NaN) = true) a /\
   forall k, k < Machine.Np.argmax a ->
     lt (nth k a NaN) (nth (Machine.Np.argmax a) a NaN) = true).
Proof.
  destruct a as [|x a]; [congruence|]. intros _. cbn [Machine.Np.argmax].
  destruct (is_nan x) eqn:Hn.
  - destruct x; try discriminate Hn. split; [cbn; lia|]. left. reflexivity.
  - apply (float_argmax_from a [x] 0 x).
    + cbn. lia.
    + reflexivity.
    + constructor; [apply float_le_refl; exact Hn|constructor].
    + intros k Hk. lia.
Qed.

End FloatOrder.

(** ** The decision in floating-point arithmetic *)

Section FloatDecision.
Local Open Scope Q_scope.
Import Ieee.

Lemma machine_validation_accept (label : string) (conf : float) :
  label ∈ dom Backend.ISSUE_MAP ->
  le Machine.Backend.VALID_CONFIDENCE_THRESHOLD conf = true ->
  exists entry,
    Backend.ISSUE_MAP !! label = Some entry /\
    Machine.Backend.validation label conf = ([<["id" := label]> entry], label).
Proof.
  intros Hin Hc. pose proof Hin as Hsome. apply elem_of_dom in Hsome.
  destruct Hsome as [entry Hentry]. exists entry. split; [exact Hentry|].
  unfold Machine.Backend.validation. rewrite (bool_decide_eq_true_2 _ Hin), Hc.
  cbn [andb app]. rewrite (lookup_total_correct _ _ _ Hentry). reflexivity.
Qed.

Lemma machine_validation_reject (label : string) (conf : float) :
  ~ (label ∈ dom Backend.ISSUE_MAP /\
     le Machine.Backend.VALID_CONFIDENCE_THRESHOLD conf = true) ->
  Machine.Backend.validation label conf = ([], "normal").
Proof.
  intros Hn. unfold Machine.Backend.validation.
  destruct (bool_decide (label ∈ dom Backend.ISSUE_MAP)) eqn:Hd; [|reflexivity].
  destruct (le Machine.Backend.VALID_CONFIDENCE_THRESHOLD conf) eqn:Hq; [|reflexivity].
  exfalso. apply Hn. split; [|reflexivity].
  apply bool_decide_eq_true_1 in Hd. exact Hd.
Qed.

(** The threshold is the double nearest to 0.60, just below it. *)
Lemma threshold_value :
  Machine.Backend.VALID_CONFIDENCE_THRESHOLD
  = Num (5404319552844595 # 9007199254740992).
Proof. vm_compute. reflexivity. Qed.

Lemma threshold_le (c : Q) :
  le Machine.Backend.VALID_CONFIDENCE_THRESHOLD (Num c) = true
  <-> (5404319552844595 # 9007199254740992) <= c.
Proof. rewrite threshold_value. cbn [le]. apply Qle_bool_iff. Qed.

(** [int()] only returns on a number. *)
Lemma health_logic_needs_number (label : string) (conf : float) (h : Z) :
  Machine.Backend.health_logic label conf = inr h -> exists c, conf = Num c.
Proof.
  unfold Machine.Backend.health_logic.
  destruct conf as [c| | |]; [eauto| | |];
    destruct (String.eqb label "normal"); vm_compute; discriminate.
Qed.

Lemma health_logic_nan (label : string) :
  Machine.Backend.health_logic label NaN = inl NaNToInteger.
Proof.
  unfold Machine.Backend.health_logic.
  destruct (String.eqb label "normal"); reflexivity.
Qed.

(** On a number of moderate size the health arithmetic stays finite. *)
Lemma health_logic_returns (label : string) (c : Q) :
  Qabs c <= 2097152 -> exists h, Machine.Backend.health_logic label (Num c) = inr h.
Proof.
  intros Hc. apply Qabs_Qle_condition in Hc.
  unfold Machine.Backend.health_logic, sub. cbn [mul neg add].
  destruct (String.eqb label "normal").
  - destruct (round_finite binary64 (c * 10) 25) as (Hr & He); [cbn; lia..| |].
    { apply Qabs_Qle_condition. change (pow2 25) with 33554432. split; lra. }
    rewrite Hr. cbn [add].
    change (pow2 (25 - prec binary64)) with (1 # 268435456) in He.
    apply Qabs_Qle_condition in He.
    destruct (round_finite binary64 (90 + nearest binary64 (c * 10)) 26) as (Hr2 & _);
      [cbn; lia..| |].
    { apply Qabs_Qle_condition. change (pow2 26) with 67108864. split; lra. }
    rewrite Hr2. cbn [to_int]. eauto.
  - destruct (round_finite binary64 (1 + - c) 22) as (Hr & He); [cbn; lia..| |].
    { apply Qabs_Qle_condition. change (pow2 22) with 4194304. split; lra. }
    rewrite Hr. cbn [mul].
    change (pow2 (22 - prec binary64)) with (1 # 2147483648) in He.
    apply Qabs_Qle_condition in He.
    destruct (round_finite binary64 (nearest binary64 (1 + - c) * 100) 30) as (Hr2 & _);
      [cbn; lia..| |].
    { apply Qabs_Qle_condition. change (pow2 30) with 1073741824. split; lra. }
    rewrite Hr2. cbn [to_int]. eauto.
Qed.

Section WithCollaborators.
Context (E : collaborators).

(** What [diagnose] returns, by the outcome of the health arithmetic. *)
Lemma machine_diagnose_spec (label : string) (conf : float)
    (ps : list (string * float)) (mode : string) (w : world) :
  match Machine.Backend.health_logic
          (snd (Machine.Backend.validation label conf)) conf with
  | inl e => Machine.Backend.diagnose E (label, conf, ps) mode w = (w, inl e)
  | inr h =>
      exists w' r,
        Machine.Backend.diagnose E (label, conf, ps) mode w = (w', inr r) /\
        Machine.Backend.overallHealth r = h /\
        (Machine.Backend.issues r, Machine.Backend.detectedClass r)
          = Machine.Backend.validation label conf /\
        Machine.Backend.confidence r = round_digits conf 4 /\
        Machine.Backend.classProbabilities r = ps /\
        Machine.Backend.mode r = mode /\
        (w', Machine.Backend.vibrationData r) =
          Vibration.generate_vibration_data E
            (if String.eqb mode "quick" then 100 else 300)%nat w /\
        Machine.Backend.timestamp r = clock w'
  end.
Proof.
  unfold Machine.Backend.diagnose.
  destruct (Machine.Backend.validation label conf) as [found final]. cbn [snd].
  destruct (Machine.Backend.health_logic final conf) as [e|h]; [reflexivity|].
  destruct (Vibration.generate_vibration_data E _ w) as [w' vib].
  eexists _, _. split; [reflexivity|]. cbn. repeat split; reflexivity.
Qed.

End WithCollaborators.

(** *** Clipping *)

Lemma clip_value (x : float) (l u : Q) :
  l <= u -> is_nan x = false ->
  exists y, minimum (maximum x (Num l)) (Num u) = Num y /\ l <= y <= u.
Proof.
  intros Hlu Hn. destruct x as [v| | |]; try discriminate Hn.
  - unfold maximum. cbn [is_nan le].
    destruct (Qle_bool l v) eqn:H1.
    + apply Qle_bool_iff in H1. unfold minimum. cbn [is_nan le].
      destruct (Qle_bool v u) eqn:H2.
      * apply Qle_bool_iff in H2. exists v. split; [reflexivity|split; assumption].
      * exists u. split; [reflexivity|split; [exact Hlu|apply Qle_refl]].
    + unfold minimum. cbn [is_nan le].
      replace (Qle_bool l u) with true by (symmetry; apply Qle_bool_iff; exact Hlu).
      exists l. split; [reflexivity|split; [apply Qle_refl|exact Hlu]].
  - exists u. split; [reflexivity|split; [exact Hlu|apply Qle_refl]].
  - exists l. unfold maximum, minimum. cbn [is_nan le].
    replace (Qle_bool l u) with true by (symmetry; apply Qle_bool_iff; exact Hlu).
    split; [reflexivity|split; [apply Qle_refl|exact Hlu]].
Qed.

Lemma clip_values (a : list float) (l u : Q) :
  l <= u -> Forall (fun x => is_nan x = false) a ->
  exists ys, Machine.Np.clip a (Num l) (Num u) = map Num ys /\
             length ys = length a /\ Forall (fun y => l <= y <= u) ys.
Proof.
  intros Hlu Ha. induction Ha as [|x a Hx Ha IH].
  - exists []. repeat split; constructor.
  - destruct IH as (ys & Hys & Hlen & Hall).
    destruct (clip_value x l u Hlu Hx) as (y & Hy & Hr).
    exists (y :: ys). unfold Machine.Np.clip in *. cbn [map]. rewrite Hy, Hys.
    split; [reflexivity|]. split; [cbn; lia|]. constructor; assumption.
Qed.

Lemma clip_keeps_nan (a : list float) (lo hi : float) :
  In NaN a -> In NaN (Machine.Np.clip a lo hi).
Proof.
  intros H. unfold Machine.Np.clip. apply in_map_iff. exists NaN. split; [reflexivity|exact H].
Qed.

(** *** The sum of nine scores *)

Lemma sum_nine (dtype : format) (r0 r1 r2 r3 r4 r5 r6 r7 r8 : float) :
  Machine.Np.sum dtype [r0; r1; r2; r3; r4; r5; r6; r7; r8] =
  add dtype zero
    (add dtype
       (add dtype (add dtype (add dtype r0 r1) (add dtype r2 r3))
                  (add dtype (add dtype r4 r5) (add dtype r6 r7)))
       r8).
Proof. reflexivity. Qed.

Lemma add_nan_l (dtype : format) (b : float) : add dtype NaN b = NaN.
Proof. destruct b; reflexivity. Qed.

Lemma add_nan_r (dtype : format) (a : float) : add dtype a NaN = NaN.
Proof. destruct a; reflexivity. Qed.

Lemma nine_entries {A : Type} (a : list A) :
  length a = 9%nat ->
  exists r0 r1 r2 r3 r4 r5 r6 r7 r8, a = [r0; r1; r2; r3; r4; r5; r6; r7; r8].
Proof.
  intros H. do 9 (destruct a as [|? a]; [discriminate H|]).
  destruct a; [|discriminate H]. eauto 10.
Qed.

Lemma sum_nan (dtype : format) (a : list float) :
  length a = 9%nat -> In NaN a -> Machine.Np.sum dtype a = NaN.
Proof.
  intros Hlen Hin.
  destruct (nine_entries a Hlen) as (r0 & r1 & r2 & r3 & r4 & r5 & r6 & r7 & r8 & ->).
  rewrite sum_nine.
  cbn [In] in Hin.
  repeat (destruct Hin as [->|Hin];
          [repeat (rewrite add_nan_l || rewrite add_nan_r); reflexivity|]).
  destruct Hin.
Qed.

End FloatDecision.

(** ** The normalised scores in [float32] and [float64] *)

Section FloatScores.
Local Open Scope Q_scope.
Import Ieee.

(** What the proofs below use of the two formats. *)
Lemma format_facts (dtype : format) :
  dtype = binary32 \/ dtype = binary64 ->
  (1 <= prec dtype)%Z /\ (emin dtype <= 20 - prec dtype + 1)%Z /\
  (20 < emax dtype)%Z /\
  (exists l, cast dtype (literal (1 # 1000000)) = Num l /\
             (1 # 1048576) <= l /\ l <= 1 /\ nearest dtype l == l) /\
  cast dtype (literal 1.0) = Num 1 /\
  nearest dtype 2 == 2 /\ nearest dtype 4 == 4 /\
  nearest dtype 8 == 8 /\ nearest dtype 9 == 9.
Proof.
  intros [-> | ->].
  - split; [cbn; lia|]. split; [cbn; lia|]. split; [cbn; lia|].
    split.
    { eexists. split; [vm_compute; reflexivity|].
      split; [vm_compute; discriminate|]. split; [vm_compute; discriminate|].
      vm_compute. reflexivity. }
    repeat split; vm_compute; reflexivity.
  - split; [cbn; lia|]. split; [cbn; lia|]. split; [cbn; lia|].
    split.
    { eexists. split; [vm_compute; reflexivity|].
      split; [vm_compute; discriminate|]. split; [vm_compute; discriminate|].
      vm_compute. reflexivity. }
    repeat split; vm_compute; reflexivity.
Qed.

Section WithFormat.
Context (dtype : format) (l : Q).
Hypothesis Hprec : (1 <= prec dtype)%Z.
Hypothesis Hemin : (emin dtype <= 20 - prec dtype + 1)%Z.
Hypothesis Hemax : (20 < emax dtype)%Z.
Hypothesis Hl0 : (1 # 1048576) <= l.
Hypothesis Hl1 : l <= 1.
Hypothesis Hl : nearest dtype l == l.
Hypothesis H2 : nearest dtype 2 == 2.
Hypothesis H4 : nearest dtype 4 == 4.
Hypothesis H8 : nearest dtype 8 == 8.
Hypothesis H9 : nearest dtype 9 == 9.

Lemma add_between (a b hi : Q) :
  nearest dtype hi == hi -> hi <= 9 -> l <= a + b -> a + b <= hi ->
  exists r, add dtype (Num a) (Num b) = Num r /\ l <= r /\ r <= hi.
Proof.
  intros Hhi H9' Hlo Hup. cbn [add].
  destruct (round_between dtype l hi (a + b)) as (Hr & Ha & Hb); try assumption.
  - lra.
  - apply Qle_lt_trans with 9; [exact H9'|].
    apply Qlt_le_trans with (pow2 20); [vm_compute; reflexivity|].
    apply pow2_le. lia.
  - exists (nearest dtype (a + b)). split; [exact Hr|]. split; assumption.
Qed.

(** The sum of nine numbers of [[l, 1]] is a number of [[l, 9]]. *)
Lemma sum_nine_between (ys : list Q) :
  length ys = 9%nat -> Forall (fun y => l <= y <= 1) ys ->
  exists s, Machine.Np.sum dtype (map Num ys) = Num s /\ l <= s /\ s <= 9.
Proof.
  intros Hlen Hall.
  destruct (nine_entries ys Hlen) as (y0 & y1 & y2 & y3 & y4 & y5 & y6 & y7 & y8 & ->).
  repeat match goal with
         | H : Forall _ (_ :: _) |- _ => inversion H; clear H; subst
         end.
  cbn [map]. rewrite sum_nine.
  destruct (add_between y0 y1 2) as (a01 & -> & ? & ?); [assumption|lra|lra|lra|].
  destruct (add_between y2 y3 2) as (a23 & -> & ? & ?); [assumption|lra|lra|lra|].
  destruct (add_between y4 y5 2) as (a45 & -> & ? & ?); [assumption|lra|lra|lra|].
  destruct (add_between y6 y7 2) as (a67 & -> & ? & ?); [assumption|lra|lra|lra|].
  destruct (add_between a01 a23 4) as (a03 & -> & ? & ?); [assumption|lra|lra|lra|].
  destruct (add_between a45 a67 4) as (a47 & -> & ? & ?); [assumption|lra|lra|lra|].
  destruct (add_between a03 a47 8) as (a07 & -> & ? & ?); [assumption|lra|lra|lra|].
  destruct (add_between a07 y8 9) as (a08 & -> & ? & ?); [assumption|lra|lra|lra|].
  unfold zero.
  destruct (add_between 0 a08 9) as (s & -> & ? & ?); [assumption|lra|lra|lra|].
  exists s. split; [reflexivity|]. split; assumption.
Qed.

(** The quotient of a number of [[l, 1]] by a sum of [[l, 9]] is a number. *)
Lemma div_finite (y s : Q) :
  l <= y <= 1 -> l <= s ->
  exists q, div dtype (Num y) (Num s) = Num q /\ Qabs q <= 2097152.
Proof.
  intros [Hy0 Hy1] Hs. cbn [div].
  assert (Hs0 : 0 < s) by lra.
  destruct (Qeq_bool s 0) eqn:Hz.
  { apply Qeq_bool_iff in Hz. lra. }
  assert (Hq : 0 <= y / s /\ y / s <= 1048576).
  { split.
    - apply Qle_shift_div_l; [exact Hs0|]. lra.
    - apply Qle_shift_div_r; [exact Hs0|]. nra. }
  destruct (round_finite dtype (y / s) 20) as (Hr & He); [assumption..| |].
  { apply Qabs_Qle_condition. change (pow2 20) with 1048576. split; lra. }
  exists (nearest dtype (y / s)). split; [exact Hr|].
  assert (Hsmall : pow2 (20 - prec dtype) <= pow2 20) by (apply pow2_le; lia).
  change (pow2 20) with 1048576 in Hsmall.
  apply Qabs_Qle_condition in He. apply Qabs_Qle_condition. split; lra.
Qed.

Lemma divide_finite (ys : list Q) (s : Q) :
  Forall (fun y => l <= y <= 1) ys -> l <= s ->
  exists qs, Machine.Np.divide dtype (map Num ys) (Num s) = map Num qs /\
             length qs = length ys /\ Forall (fun q => Qabs q <= 2097152) qs.
Proof.
  intros Hall Hs. induction Hall as [|y ys Hy Hall IH].
  - exists []. repeat split; constructor.
  - destruct IH as (qs & Hqs & Hlen & Hb).
    destruct (div_finite y s Hy Hs) as (q & Hq & Hqb).
    exists (q :: qs). unfold Machine.Np.divide in *. cbn [map]. rewrite Hq, Hqs.
    split; [reflexivity|]. split; [cbn; lia|]. constructor; assumption.
Qed.

End WithFormat.

(** Nine scores without a [NaN] are normalised to nine numbers. *)
Lemma normalised_finite (dtype : format) (preds : list float) :
  dtype = binary32 \/ dtype = binary64 ->
  length preds = 9%nat -> Forall (fun x => is_nan x = false) preds ->
  exists qs, Machine.Inference.normalised dtype preds = map Num qs /\
             length qs = 9%nat /\ Forall (fun q => Qabs q <= 2097152) qs.
Proof.
  intros Hd Hlen Hn.
  destruct (format_facts dtype Hd)
    as (Hp & Hemin & Hemax & (l & Hlo & Hl0 & Hl1 & Hl) & Hhi & H2 & H4 & H8 & H9).
  unfold Machine.Inference.normalised. rewrite Hlo, Hhi.
  destruct (clip_values preds l 1 Hl1 Hn) as (ys & -> & Hylen & Hys).
  destruct (sum_nine_between dtype l Hp Hemax Hl0 Hl H2 H4 H8 H9 ys) as (s & -> & Hs & _);
    [lia|exact Hys|].
  destruct (divide_finite dtype l Hp Hemin Hemax Hl0 ys s Hys Hs) as (qs & -> & Hqlen & Hqs).
  exists qs. split; [reflexivity|]. split; [lia|exact Hqs].
Qed.

(** A [NaN] among nine scores makes every normalised score a [NaN]. *)
Lemma normalised_nan (dtype : format) (preds : list float) :
  length preds = 9%nat -> In NaN preds ->
  Machine.Inference.normalised dtype preds = repeat NaN 9.
Proof.
  intros Hlen Hin. unfold Machine.Inference.normalised.
  set (lo := cast dtype (literal (1 # 1000000))). set (hi := cast dtype (literal 1.0)).
  rewrite (sum_nan dtype (Machine.Np.clip preds lo hi)).
  - unfold Machine.Np.clip, Machine.Np.divide. rewrite map_map.
    destruct (nine_entries preds Hlen)
      as (r0 & r1 & r2 & r3 & r4 & r5 & r6 & r7 & r8 & ->).
    cbn [map repeat].
    assert (Hd : forall a, div dtype a NaN = NaN) by (intros a; destruct a; reflexivity).
    rewrite !Hd. reflexivity.
  - unfold Machine.Np.clip. rewrite length_map. exact Hlen.
  - apply clip_keeps_nan. exact Hin.
Qed.

End FloatScores.

(** ** Scores that are values of the format *)

Section FloatUnit.
Local Open Scope Q_scope.
Import Ieee.

Lemma clip_value_representable (fmt : format) (x : float) (l u : Q) :
  l <= u -> nearest fmt l == l -> nearest fmt u == u ->
  is_nan x = false -> representable fmt x ->
  exists y, minimum (maximum x (Num l)) (Num u) = Num y /\
            l <= y <= u /\ nearest fmt y == y.
Proof.
  intros Hlu Hl Hu Hn Hx. destruct x as [v| | |]; try discriminate Hn.
  - unfold maximum. cbn [is_nan le]. cbn [representable] in Hx.
    destruct (Qle_bool l v) eqn:H1.
    + apply Qle_bool_iff in H1. unfold minimum. cbn [is_nan le].
      destruct (Qle_bool v u) eqn:H2.
      * apply Qle_bool_iff in H2. exists v. repeat split; assumption.
      * exists u. repeat split; [exact Hlu|apply Qle_refl|exact Hu].
    + unfold minimum. cbn [is_nan le].
      replace (Qle_bool l u) with true by (symmetry; apply Qle_bool_iff; exact Hlu).
      exists l. repeat split; [apply Qle_refl|exact Hlu|exact Hl].
  - exists u. repeat split; [exact Hlu|apply Qle_refl|exact Hu].
  - exists l. unfold maximum, minimum. cbn [is_nan le].
    replace (Qle_bool l u) with true by (symmetry; apply Qle_bool_iff; exact Hlu).
    repeat split; [apply Qle_refl|exact Hlu|exact Hl].
Qed.

Lemma clip_values_representable (fmt : format) (a : list float) (l u : Q) :
  l <= u -> nearest fmt l == l -> nearest fmt u == u ->
  Forall (fun x => is_nan x = false /\ representable fmt x) a ->
  exists ys, Machine.Np.clip a (Num l) (Num u) = map Num ys /\
             length ys = length a /\
             Forall (fun y => l <= y <= u /\ nearest fmt y == y) ys.
Proof.
  intros Hlu Hl Hu Ha. induction Ha as [|x a [Hn Hx] Ha IH].
  - exists []. repeat split; constructor.
  - destruct IH as (ys & Hys & Hlen & Hall).
    destruct (clip_value_representable fmt x l u Hlu Hl Hu Hn Hx) as (y & Hy & Hr & Hv).
    exists (y :: ys). unfold Machine.Np.clip in *. cbn [map]. rewrite Hy, Hys.
    split; [reflexivity|]. split; [cbn; lia|]. constructor; [split|]; assumption.
Qed.

Section WithFormat.
Context (dtype : format) (l : Q).
Hypothesis Hprec : (1 <= prec dtype)%Z.
Hypothesis Hemax : (20 < emax dtype)%Z.
Hypothesis Hl0 : (1 # 1048576) <= l.
Hypothesis Hl : nearest dtype l == l.
Hypothesis H1 : nearest dtype 1 == 1.
Hypothesis H2 : nearest dtype 2 == 2.
Hypothesis H4 : nearest dtype 4 == 4.
Hypothesis H8 : nearest dtype 8 == 8.
Hypothesis H9 : nearest dtype 9 == 9.

(** A sum of two values of the format is at least each of them. *)
Lemma add_dominates (a b hi : Q) :
  nearest dtype hi == hi -> hi <= 9 ->
  0 <= a -> 0 <= b -> l <= a + b -> a + b <= hi ->
  nearest dtype a == a -> nearest dtype b == b ->
  exists r, add dtype (Num a) (Num b) = Num r /\ l <= r /\ r <= hi /\
            a <= r /\ b <= r /\ nearest dtype r == r.
Proof.
  intros Hhi H9' Ha0 Hb0 Hlo Hup Ha Hb.
  destruct (add_between dtype l Hprec Hemax Hl0 Hl a b hi Hhi H9' Hlo Hup)
    as (r & Hr & Hr1 & Hr2).
  exists r. split; [exact Hr|]. split; [exact Hr1|]. split; [exact Hr2|].
  cbn [add] in Hr.
  assert (Hnear : r = nearest dtype (a + b)).
  { unfold round in Hr.
    destruct (Qle_bool _ _); [discriminate|].
    destruct (Qle_bool _ _); [discriminate|].
    injection Hr as <-. reflexivity. }
  subst r. split; [|split].
  - rewrite <- Ha at 1. apply nearest_monotone; [exact Hprec|exact Ha0|lra].
  - rewrite <- Hb at 1. apply nearest_monotone; [exact Hprec|exact Hb0|lra].
  - apply nearest_idempotent; [exact Hprec|lra].
Qed.

(** The sum of nine values of [[l, 1]] is at least each of them. *)
Lemma sum_nine_dominates (ys : list Q) :
  length ys = 9%nat ->
  Forall (fun y => l <= y <= 1 /\ nearest dtype y == y) ys ->
  exists s, Machine.Np.sum dtype (map Num ys) = Num s /\ l <= s /\
            Forall (fun y => y <= s) ys.
Proof.
  intros Hlen Hall.
  destruct (nine_entries ys Hlen) as (y0 & y1 & y2 & y3 & y4 & y5 & y6 & y7 & y8 & ->).
  repeat match goal with
         | H : Forall _ (_ :: _) |- _ => inversion H; clear H; subst
         end.
  repeat match goal with
         | H : _ /\ _ |- _ => destruct H
         end.
  cbn [map]. rewrite sum_nine.
  assert (Hl00 : 0 < l) by lra.
  destruct (add_dominates y0 y1 2) as (a01 & -> & ? & ? & ? & ? & ?);
    [assumption|lra|lra|lra|lra|lra|assumption|assumption|].
  destruct (add_dominates y2 y3 2) as (a23 & -> & ? & ? & ? & ? & ?);
    [assumption|lra|lra|lra|lra|lra|assumption|assumption|].
  destruct (add_dominates y4 y5 2) as (a45 & -> & ? & ? & ? & ? & ?);
    [assumption|lra|lra|lra|lra|lra|assumption|assumption|].
  destruct (add_dominates y6 y7 2) as (a67 & -> & ? & ? & ? & ? & ?);
    [assumption|lra|lra|lra|lra|lra|assumption|assumption|].
  destruct (add_dominates a01 a23 4) as (a03 & -> & ? & ? & ? & ? & ?);
    [assumption|lra|lra|lra|lra|lra|assumption|assumption|].
  destruct (add_dominates a45 a67 4) as (a47 & -> & ? & ? & ? & ? & ?);
    [assumption|lra|lra|lra|lra|lra|assumption|assumption|].
  destruct (add_dominates a03 a47 8) as (a07 & -> & ? & ? & ? & ? & ?);
    [assumption|lra|lra|lra|lra|lra|assumption|assumption|].
  destruct (add_dominates a07 y8 9) as (a08 & -> & ? & ? & ? & ? & ?);
    [assumption|lra|lra|lra|lra|lra|assumption|assumption|].
  unfold zero.
  destruct (add_dominates 0 a08 9) as (s & -> & ? & ? & ? & ? & ?);
    [assumption|lra|lra|lra|lra|lra|apply nearest_comp_zero|assumption|].
  exists s. split; [reflexivity|]. split; [assumption|].
  repeat (constructor; [lra|]). constructor.
Qed.

(** The quotient of a value by a sum that is at least that value lies in
    the unit interval. *)
Lemma div_unit (y s : Q) :
  l <= y -> y <= s ->
  exists q, div dtype (Num y) (Num s) = Num q /\ 0 <= q <= 1.
Proof.
  intros Hy Hs. cbn [div].
  assert (Hs0 : 0 < s) by lra.
  destruct (Qeq_bool s 0) eqn:Hz.
  { apply Qeq_bool_iff in Hz. lra. }
  assert (Hq : 0 <= y / s /\ y / s <= 1).
  { split.
    - apply Qle_shift_div_l; [exact Hs0|]. lra.
    - apply Qle_shift_div_r; [exact Hs0|]. lra. }
  destruct (round_between dtype 0 1 (y / s)) as (Hr & Ha & Hb);
    [exact Hprec|lra|rewrite nearest_zero; reflexivity|exact H1| |lra|lra|].
  { apply Qlt_le_trans with (pow2 20); [vm_compute; reflexivity|].
    apply pow2_le. lia. }
  exists (nearest dtype (y / s)). split; [exact Hr|]. split; assumption.
Qed.

Lemma divide_unit (ys : list Q) (s : Q) :
  Forall (fun y => l <= y) ys -> Forall (fun y => y <= s) ys ->
  exists qs, Machine.Np.divide dtype (map Num ys) (Num s) = map Num qs /\
             length qs = length ys /\ Forall (fun q => 0 <= q <= 1) qs.
Proof.
  intros Hlo. revert s. induction Hlo as [|y ys Hy Hlo IH]; intros s Hs.
  - exists []. repeat split; constructor.
  - inversion Hs as [|? ? Hys Hs']; subst.
    destruct (IH s Hs') as (qs & Hqs & Hlen & Hb).
    destruct (div_unit y s Hy Hys) as (q & Hq & Hqb).
    exists (q :: qs). unfold Machine.Np.divide in *. cbn [map]. rewrite Hq, Hqs.
    split; [reflexivity|]. split; [cbn; lia|]. constructor; assumption.
Qed.

End WithFormat.

(** Nine scores that are values of the format, none of them a [NaN], are
    normalised to nine numbers of the unit interval. *)
Lemma normalised_unit (dtype : format) (preds : list float) :
  dtype = binary32 \/ dtype = binary64 ->
  length preds = 9%nat ->
  Forall (fun x => is_nan x = false /\ representable dtype x) preds ->
  exists qs, Machine.Inference.normalised dtype preds = map Num qs /\
             length qs = 9%nat /\ Forall (fun q => 0 <= q <= 1) qs.
Proof.
  intros Hd Hlen Hn.
  destruct (format_facts dtype Hd)
    as (Hp & Hemin & Hemax & (l & Hlo & Hl0 & Hl1 & Hl) & Hhi & H2 & H4 & H8 & H9).
  assert (H1 : nearest dtype 1 == 1).
  { destruct Hd as [-> | ->]; vm_compute; reflexivity. }
  unfold Machine.Inference.normalised. rewrite Hlo, Hhi.
  destruct (clip_values_representable dtype preds l 1 Hl1 Hl H1 Hn)
    as (ys & -> & Hylen & Hys).
  destruct (sum_nine_dominates dtype l Hp Hemax Hl0 Hl H2 H4 H8 H9 ys)
    as (s & -> & Hs & Hdom); [lia|exact Hys|].
  destruct (divide_unit dtype l Hp Hemax Hl0 H1 ys s) as (qs & -> & Hqlen & Hqs).
  - eapply Forall_impl; [exact Hys|]. intros y [[Hy _] _]. exact Hy.
  - exact Hdom.
  - exists qs. split; [reflexivity|]. split; [lia|exact Hqs].
Qed.

End FloatUnit.

(** ** The confidence gate *)

Section ConfidenceGate.
Local Open Scope Q_scope.
Import Ieee.
Context (E : collaborators).

Lemma machine_normalised_length (dtype : format) (preds : list float) :
  length (Machine.Inference.normalised dtype preds) = length preds.
Proof.
  unfold Machine.Inference.normalised, Machine.Np.divide, Machine.Np.clip.
  rewrite !length_map. reflexivity.
Qed.

(** C2: the confidence gate.  The label is the class at the first position
    of the largest normalised score and the confidence is that score, both
    as [run_inference] computes them in the arithmetic of the model's array.
    In every result, if the label is a key of the issue map and the
    confidence is at least 0.60 - the double nearest to 0.6, which is
    5404319552844595 / 2^53 - the detected class is the label and there
    is exactly one issue: the entry of the map under the label, with the
    label added under "id".  Otherwise the detected class is "normal" and
    there is no issue.  So "knocking" below 0.5999, at 0.59 say, gives
    "normal" and no issue, and "knocking" from 0.6 on, at 0.61 say, gives
    "knocking" and one issue whose id is "knocking".  There is a result for
    every vector of [float32] or [float64] scores without a [NaN]; a [NaN]
    among the scores makes [int()] raise, and there is no result. *)
Theorem confidence_gate (dtype : format) (preds : list float) (mode : string)
    (w : world) :
  length preds = length Inference.CLASSES ->
  let scores := Machine.Inference.normalised dtype preds in
  let class_index := Machine.Np.argmax scores in
  let label := nth class_index Inference.CLASSES "" in
  let p := Machine.Inference.label_scores dtype preds in
  fst (fst p) = label /\
  snd (fst p) = nth class_index scores NaN /\
  (class_index < length Inference.CLASSES)%nat /\
  (forall w' r,
     Machine.Backend.diagnose E p mode w = (w', inr r) ->
     exists c,
       nth class_index scores NaN = Num c /\
       Forall (fun x => le x (Num c) = true) scores /\
       (forall k, (k < class_index)%nat -> lt (nth k scores NaN) (Num c) = true) /\
       (le Machine.Backend.VALID_CONFIDENCE_THRESHOLD (Num c) = true
        <-> (5404319552844595 # 9007199254740992) <= c) /\
       (label ∈ dom Backend.ISSUE_MAP /\
        le Machine.Backend.VALID_CONFIDENCE_THRESHOLD (Num c) = true ->
          Machine.Backend.detectedClass r = label /\
          exists entry,
            Backend.ISSUE_MAP !! label = Some entry /\
            Machine.Backend.issues r = [<["id" := label]> entry]) /\
       (~ (label ∈ dom Backend.ISSUE_MAP /\
           le Machine.Backend.VALID_CONFIDENCE_THRESHOLD (Num c) = true) ->
          Machine.Backend.detectedClass r = "normal" /\
          Machine.Backend.issues r = []) /\
       (label = "knocking" -> c <= 0.5999 ->
          Machine.Backend.detectedClass r = "normal" /\
          Machine.Backend.issues r = []) /\
       (label = "knocking" -> 0.6 <= c ->
          Machine.Backend.detectedClass r = "knocking" /\
          exists issue,
            Machine.Backend.issues r = [issue] /\ issue !! "id" = Some "knocking")) /\
  (dtype = binary32 \/ dtype = binary64 ->
   Forall (fun x => is_nan x = false) preds ->
   exists w' r, Machine.Backend.diagnose E p mode w = (w', inr r)) /\
  (In NaN preds ->
   Machine.Backend.diagnose E p mode w = (w, inl NaNToInteger)).
Proof.
  intros Hlen scores class_index label p.
  assert (Hp : p = (label, nth class_index scores NaN, snd p)) by reflexivity.
  assert (Hslen : length scores = 9%nat).
  { unfold scores. rewrite machine_normalised_length. exact Hlen. }
  assert (Hne : scores <> []) by (intros H; rewrite H in Hslen; discriminate).
  destruct (float_argmax scores Hne) as [Hci Hmax]. fold class_index in Hci, Hmax.
  split; [reflexivity|]. split; [reflexivity|].
  split; [change (length Inference.CLASSES) with 9%nat; lia|].
  split; [|split].
  - intros w' r Hd. rewrite Hp in Hd.
    pose proof (machine_diagnose_spec E label (nth class_index scores NaN)
                  (snd p) mode w) as Hspec.
    destruct (Machine.Backend.health_logic _ _) as [e|h] eqn:Hh.
    { rewrite Hspec in Hd. discriminate. }
    destruct (health_logic_needs_number _ _ _ Hh) as [c Hc].
    destruct Hspec as (w1 & r1 & Hd1 & _ & Hv & _).
    rewrite Hd1 in Hd. injection Hd as <- <-.
    rewrite Hc in Hv, Hmax.
    destruct Hmax as [Hnan|[Hall Hfirst]]; [discriminate|].
    exists c. split; [exact Hc|]. split; [exact Hall|]. split; [exact Hfirst|].
    split; [apply threshold_le|].
    split; [|split; [|split]].
    + intros [Hin Hge].
      destruct (machine_validation_accept label (Num c) Hin Hge) as (entry & Hentry & Heq).
      rewrite Heq in Hv. split; [congruence|].
      exists entry. split; [exact Hentry|congruence].
    + intros Hno. rewrite (machine_validation_reject label (Num c) Hno) in Hv.
      split; congruence.
    + intros _ Hlow. rewrite (machine_validation_reject label (Num c)) in Hv.
      * split; congruence.
      * intros [_ Hge]. apply threshold_le in Hge.
        assert (0.5999 < 5404319552844595 # 9007199254740992) by reflexivity. lra.
    + intros Hk Hhigh.
      destruct (machine_validation_accept label (Num c)) as (entry & Hentry & Heq).
      * rewrite Hk. apply (bool_decide_unpack _). vm_compute. exact I.
      * apply threshold_le.
        assert ((5404319552844595 # 9007199254740992) <= 0.6) by (vm_compute; discriminate).
        lra.
      * rewrite Heq in Hv. rewrite <- Hk. split; [congruence|].
        exists (<["id" := label]> entry). split; [congruence|].
        apply lookup_insert_eq.
  - intros Hd Hn.
    destruct (normalised_finite dtype preds Hd Hlen Hn) as (qs & Hqs & Hqlen & Hqb).
    fold scores in Hqs.
    assert (Hc : nth class_index scores NaN = Num (nth class_index qs 0)).
    { rewrite Hqs. rewrite (nth_indep _ NaN (Num 0)) by (rewrite length_map; lia).
      apply (map_nth Num). }
    assert (Hb : Qabs (nth class_index qs 0) <= 2097152).
    { rewrite Forall_forall in Hqb. apply Hqb, list_elem_of_In, nth_In. lia. }
    pose proof (machine_diagnose_spec E label (nth class_index scores NaN)
                  (snd p) mode w) as Hspec.
    rewrite Hc in Hspec.
    destruct (health_logic_returns
                (snd (Machine.Backend.validation label (Num (nth class_index qs 0))))
                (nth class_index qs 0) Hb) as [h Hh].
    rewrite Hh in Hspec. destruct Hspec as (w' & r & Hdr & _).
    exists w', r. rewrite Hp, Hc. exact Hdr.
  - intros Hin.
    pose proof (normalised_nan dtype preds Hlen Hin) as Hs. fold scores in Hs.
    assert (Hc : nth class_index scores NaN = NaN).
    { unfold class_index. rewrite Hs. reflexivity. }
    pose proof (machine_diagnose_spec E label NaN (snd p) mode w) as Hspec.
    assert (Hv : Machine.Backend.validation label NaN = ([], "normal")).
    { apply machine_validation_reject. intros [_ H]. rewrite threshold_value in H.
      discriminate H. }
    rewrite Hv in Hspec. cbn [snd] in Hspec. rewrite health_logic_nan in Hspec.
    rewrite Hp, Hc. exact Hspec.
Qed.

End ConfidenceGate.

Section GateRuns.
Local Open Scope Q_scope.
Import Ieee.

(** The gate on two [float32] score vectors that peak at "knocking", with
    normalised scores next to 0.59 and to 0.61. *)
Lemma confidence_gate_witness :
  length (Fixture.float32 Fixture.knocking_059) = length Inference.CLASSES /\
  (exists w' r,
     Machine.Backend.diagnose Fixture.good
       (Machine.Inference.label_scores binary32 (Fixture.float32 Fixture.knocking_059))
       "quick" Fixture.w0 = (w', inr r) /\
     Machine.Backend.detectedClass r = "normal" /\ Machine.Backend.issues r = []) /\
  (exists w' r,
     Machine.Backend.diagnose Fixture.good
       (Machine.Inference.label_scores binary32 (Fixture.float32 Fixture.knocking_061))
       "quick" Fixture.w0 = (w', inr r) /\
     Machine.Backend.detectedClass r = "knocking" /\
     exists issue,
       Machine.Backend.issues r = [issue] /\ issue !! "id" = Some "knocking").
Proof.
  split; [reflexivity|]. split.
  - destruct (confidence_gate Fixture.good binary32 (Fixture.float32 Fixture.knocking_059)
                "quick" Fixture.w0 eq_refl) as (_ & _ & _ & Hres & Hex & _).
    destruct Hex as (w' & r & Hd).
    { left. reflexivity. }
    { repeat constructor. }
    exists w', r. split; [exact Hd|].
    destruct (Hres w' r Hd) as (c & Hc & _ & _ & _ & _ & _ & Hlow & _).
    apply Hlow; [vm_compute; reflexivity|].
    vm_compute in Hc. injection Hc as <-. vm_compute. discriminate.
  - destruct (confidence_gate Fixture.good binary32 (Fixture.float32 Fixture.knocking_061)
                "quick" Fixture.w0 eq_refl) as (_ & _ & _ & Hres & Hex & _).
    destruct Hex as (w' & r & Hd).
    { left. reflexivity. }
    { repeat constructor. }
    exists w', r. split; [exact Hd|].
    destruct (Hres w' r Hd) as (c & Hc & _ & _ & _ & _ & _ & _ & Hhigh).
    apply Hhigh; [vm_compute; reflexivity|].
    vm_compute in Hc. injection Hc as <-. vm_compute. discriminate.
Defined.

(** The scores 0.33, 0.6 and seven times 0.01 in [float32]: their sum is
    rounded up to 1.0000001, the score of "misfire" becomes 0.59999996, and
    the gate answers "normal" with health 95. *)
Example rounded_sum_moves_the_gate :
  let preds := Fixture.float32 ([0.33; 0.6] ++ repeat 0.01 7%nat) in
  fst (Machine.Inference.label_scores binary32 preds)
  = ("misfire", Num (10066329 # 16777216)) /\
  Machine.Backend.validation "misfire" (Num (10066329 # 16777216)) = ([], "normal") /\
  Machine.Backend.health_logic "normal" (Num (10066329 # 16777216)) = inr 95%Z.
Proof. repeat split; vm_compute; reflexivity. Qed.

(** A [NaN] score leaves the handler with the [ValueError] of [int()]. *)
Example nan_score_raises :
  Machine.Backend.diagnose Fixture.good
    (Machine.Inference.label_scores binary32
       (NaN :: Fixture.float32 (repeat 0.1 8%nat)))
    "quick" Fixture.w0
  = (Fixture.w0, inl NaNToInteger).
Proof. vm_compute. reflexivity. Qed.

End GateRuns.

(** ** The invariants of a response in floating-point arithmetic *)

Section FloatInvariants.
Local Open Scope Q_scope.
Import Ieee.

Lemma machine_validation_cases (label : string) (conf : float) :
  (snd (Machine.Backend.validation label conf) = "normal" /\
   fst (Machine.Backend.validation label conf) = []) \/
  (snd (Machine.Backend.validation label conf) = label /\
   label ∈ dom Backend.ISSUE_MAP /\ label <> "normal" /\
   le Machine.Backend.VALID_CONFIDENCE_THRESHOLD conf = true /\
   exists entry, Backend.ISSUE_MAP !! label = Some entry /\
     fst (Machine.Backend.validation label conf) = [<["id" := label]> entry]).
Proof.
  destruct (decide (label ∈ dom Backend.ISSUE_MAP)) as [Hin|Hout].
  - destruct (le Machine.Backend.VALID_CONFIDENCE_THRESHOLD conf) eqn:Hle.
    + right. destruct (machine_validation_accept label conf Hin Hle)
        as (entry & Hentry & ->).
      cbn [fst snd]. repeat split; try assumption.
      * intros ->. exact (normal_not_in_ISSUE_MAP Hin).
      * exists entry. split; [exact Hentry|reflexivity].
    + left. rewrite machine_validation_reject; [split; reflexivity|].
      intros [_ H]. congruence.
  - left. rewrite machine_validation_reject; [split; reflexivity|].
    intros [H _]. exact (Hout H).
Qed.

(** A fault that passed the gate is scored between 30 and 40. *)
Lemma machine_health_fault (label : string) (c : Q) :
  label <> "normal" ->
  (5404319552844595 # 9007199254740992) <= c -> c <= 1 ->
  exists h, Machine.Backend.health_logic label (Num c) = inr h /\ (30 <= h <= 40)%Z.
Proof.
  intros Hl Hc0 Hc1. unfold Machine.Backend.health_logic, sub.
  destruct (String.eqb_spec label "normal") as [Hn|_]; [contradiction|].
  cbn [neg add].
  destruct (round_between binary64 0 1 (1 + - c)) as (Hr & Ha & Hb);
    [cbn; lia|lra|vm_compute; reflexivity|vm_compute; reflexivity
    |vm_compute; reflexivity|lra|lra|].
  rewrite Hr. cbn [mul].
  assert (Hd : nearest binary64 (1 + - c) <= 3602879701896397 # 9007199254740992).
  { apply Qle_trans
      with (nearest binary64 (3602879701896397 # 9007199254740992));
      [|vm_compute; discriminate].
    apply nearest_monotone; [cbn; lia|lra|lra]. }
  set (d := nearest binary64 (1 + - c)) in *.
  destruct (round_between binary64 0 100 (d * 100)) as (Hr2 & Ha2 & Hb2);
    [cbn; lia|lra|vm_compute; reflexivity|vm_compute; reflexivity
    |vm_compute; reflexivity|lra|lra|].
  rewrite Hr2. cbn [to_int].
  assert (Hz : nearest binary64 (d * 100) <= 40).
  { apply Qle_trans
      with (nearest binary64 ((3602879701896397 # 9007199254740992) * 100));
      [|vm_compute; discriminate].
    apply nearest_monotone; [cbn; lia|lra|lra]. }
  eexists. split; [reflexivity|].
  assert (Hi : (0 <= Py.int (nearest binary64 (d * 100)) <= 40)%Z).
  { apply int_between; [lia|exact Ha2|exact Hz]. }
  lia.
Qed.

(** A "normal" answer is scored between 90 and 100. *)
Lemma machine_health_normal (c : Q) :
  0 <= c <= 1 ->
  exists h, Machine.Backend.health_logic "normal" (Num c) = inr h /\ (90 <= h <= 100)%Z.
Proof.
  intros Hc. unfold Machine.Backend.health_logic. cbn [String.eqb Ascii.eqb Bool.eqb].
  destruct (health_sum_normal c Hc) as (y & -> & [Hy0 Hy1] & _).
  cbn [to_int]. eexists. split; [reflexivity|].
  apply int_between; [lia|exact Hy0|exact Hy1].
Qed.

(** The confidence of nine scores that are values of the format. *)
Lemma machine_confidence_unit (dtype : format) (preds : list float) :
  dtype = binary32 \/ dtype = binary64 ->
  length preds = length Inference.CLASSES ->
  Forall (fun x => is_nan x = false /\ representable dtype x) preds ->
  exists c, snd (fst (Machine.Inference.label_scores dtype preds)) = Num c /\
            0 <= c <= 1.
Proof.
  intros Hd Hlen Hv.
  destruct (normalised_unit dtype preds Hd Hlen Hv) as (qs & Hqs & Hqlen & Hq).
  unfold Machine.Inference.label_scores. cbn [fst snd]. rewrite Hqs.
  assert (Hne : map Num qs <> []).
  { destruct qs; [discriminate Hqlen|discriminate]. }
  destruct (float_argmax (map Num qs) Hne) as [Hci _].
  rewrite length_map in Hci.
  set (ci := Machine.Np.argmax (map Num qs)) in *.
  exists (nth ci qs 0). split.
  - rewrite (nth_indep _ NaN (Num 0)) by (rewrite length_map; lia).
    apply (map_nth Num).
  - rewrite Forall_forall in Hq. apply Hq, list_elem_of_In, nth_In. lia.
Qed.

Section WithCollaborators.
Context (E : collaborators).

(** X26: in the arithmetic of the code, for nine scores that are values of
    [float32] (or [float64]) and not [NaN] - infinities included - the label
    is a class of the catalog, the confidence is a number between 0 and 1,
    and the dictionary of probabilities is keyed by the catalog, in order,
    with every probability a number between 0 and 1. *)
Theorem machine_scores_in_unit_interval (dtype : format) (preds : list float) :
  dtype = binary32 \/ dtype = binary64 ->
  length preds = length Inference.CLASSES ->
  Forall (fun x => is_nan x = false /\ representable dtype x) preds ->
  In (fst (fst (Machine.Inference.label_scores dtype preds))) Inference.CLASSES /\
  (exists c, snd (fst (Machine.Inference.label_scores dtype preds)) = Num c /\
             0 <= c <= 1) /\
  map fst (snd (Machine.Inference.label_scores dtype preds)) = Inference.CLASSES /\
  Forall (fun kv => exists v, snd kv = Num v /\ 0 <= v <= 1)
         (snd (Machine.Inference.label_scores dtype preds)).
Proof.
  intros Hd Hlen Hv.
  destruct (normalised_unit dtype preds Hd Hlen Hv) as (qs & Hqs & Hqlen & Hq).
  unfold Machine.Inference.label_scores. cbn [fst snd]. rewrite Hqs.
  assert (Hne : map Num qs <> []).
  { destruct qs; [discriminate Hqlen|discriminate]. }
  destruct (float_argmax (map Num qs) Hne) as [Hci _].
  rewrite length_map in Hci.
  set (ci := Machine.Np.argmax (map Num qs)) in *.
  assert (Hnth : forall i, (i < 9)%nat -> nth i (map Num qs) NaN = Num (nth i qs 0)
                                          /\ 0 <= nth i qs 0 <= 1).
  { intros i Hi. split.
    - rewrite (nth_indep _ NaN (Num 0)) by (rewrite length_map; lia).
      apply (map_nth Num).
    - rewrite Forall_forall in Hq. apply Hq, list_elem_of_In, nth_In. lia. }
  split; [apply nth_In; change (length Inference.CLASSES) with 9%nat; lia|].
  split.
  { exists (nth ci qs 0). apply Hnth. lia. }
  split.
  { rewrite map_map. cbn [fst]. vm_compute. reflexivity. }
  apply Forall_map. apply Forall_forall. intros i Hi.
  apply list_elem_of_In, in_seq in Hi. cbn [snd].
  destruct (Hnth i) as [-> Hr]; [change (length Inference.CLASSES) with 9%nat in Hi; lia|].
  cbn [round_digits].
  pose proof (round4_unit_interval _ Hr) as [Hr0 Hr1].
  destruct (round_between binary64 0 1 (Py.round (nth i qs 0) 4)) as (Heq & Ha & Hb);
    [cbn; lia|lra|vm_compute; reflexivity|vm_compute; reflexivity
    |vm_compute; reflexivity|exact Hr0|exact Hr1|].
  rewrite Heq. eexists. split; [reflexivity|]. split; assumption.
Qed.

(** X27: in the arithmetic of the code, the health score is bimodal.  For
    nine scores that are values of [float32] (or [float64]) and not [NaN]
    there is a response; if its detected class is not "normal", the class is
    a key of the issue map with its one issue and the health lies between 30
    and 40; if it is "normal", there is no issue and the health lies between
    90 and 100.  No response carries a health strictly between 40 and 90. *)
Theorem machine_health_is_bimodal (dtype : format) (preds : list float)
    (mode : string) (w : world) :
  dtype = binary32 \/ dtype = binary64 ->
  length preds = length Inference.CLASSES ->
  Forall (fun x => is_nan x = false /\ representable dtype x) preds ->
  exists w' r,
    Machine.Backend.diagnose E (Machine.Inference.label_scores dtype preds) mode w
    = (w', inr r) /\
    (Machine.Backend.detectedClass r <> "normal" ->
       Machine.Backend.detectedClass r ∈ dom Backend.ISSUE_MAP /\
       length (Machine.Backend.issues r) = 1%nat /\
       (30 <= Machine.Backend.overallHealth r <= 40)%Z) /\
    (Machine.Backend.detectedClass r = "normal" ->
       Machine.Backend.issues r = [] /\
       (90 <= Machine.Backend.overallHealth r <= 100)%Z) /\
    ~ (40 < Machine.Backend.overallHealth r < 90)%Z.
Proof.
  intros Hd Hlen Hv.
  destruct (machine_confidence_unit dtype preds Hd Hlen Hv) as (c & Hc & Hc01).
  destruct (Machine.Inference.label_scores dtype preds) as [[label conf] ps].
  cbn [fst snd] in Hc. subst conf.
  pose proof (machine_diagnose_spec E label (Num c) ps mode w) as Hspec.
  destruct (machine_validation_cases label (Num c))
    as [[Hfinal Hissues]|(Hfinal & Hin & Hne & Hle & entry & _ & Hissues)].
  - rewrite Hfinal in Hspec.
    destruct (machine_health_normal c Hc01) as (h & Hh & Hrange).
    rewrite Hh in Hspec. destruct Hspec as (w' & r & Hdr & Hoh & Hval & _).
    assert (Hdc : Machine.Backend.detectedClass r = "normal").
    { rewrite <- Hfinal. rewrite <- Hval. reflexivity. }
    assert (His : Machine.Backend.issues r = []).
    { rewrite <- Hissues. rewrite <- Hval. reflexivity. }
    exists w', r. split; [exact Hdr|]. rewrite Hoh.
    split; [intros Hno; contradiction|]. split; [intros _; split; [exact His|lia]|lia].
  - rewrite Hfinal in Hspec. apply threshold_le in Hle.
    destruct (machine_health_fault label c Hne Hle (proj2 Hc01)) as (h & Hh & Hrange).
    rewrite Hh in Hspec. destruct Hspec as (w' & r & Hdr & Hoh & Hval & _).
    assert (Hdc : Machine.Backend.detectedClass r = label).
    { rewrite <- Hfinal. rewrite <- Hval. reflexivity. }
    assert (His : Machine.Backend.issues r = [<["id" := label]> entry]).
    { rewrite <- Hissues. rewrite <- Hval. reflexivity. }
    exists w', r. split; [exact Hdr|]. rewrite Hoh, Hdc, His.
    split; [intros _; split; [exact Hin|split; [reflexivity|lia]]|].
    split; [intros Hno; contradiction|lia].
Qed.

End WithCollaborators.
End FloatInvariants.

Section FloatInvariantRuns.
Local Open Scope Q_scope.
Import Ieee.

(** The [float32] scores of [Fixture.float32] are values of the format. *)
Lemma float32_representable (scores : list Q) :
  Forall (fun x => 0 <= x <= 1) scores ->
  Forall (fun x => is_nan x = false /\ representable binary32 x)
         (Fixture.float32 scores).
Proof.
  intros H. unfold Fixture.float32. apply Forall_map.
  eapply Forall_impl; [exact H|]. intros x [H0 H1]. cbn beta.
  destruct (round_between binary32 0 1 x) as (Hr & _ & _);
    [cbn; lia|lra|vm_compute; reflexivity|vm_compute; reflexivity
    |vm_compute; reflexivity|exact H0|exact H1|].
  rewrite Hr. split; [reflexivity|]. cbn [representable].
  apply nearest_idempotent; [cbn; lia|exact H0].
Qed.

Lemma knocking_061_unit : Forall (fun x => 0 <= x <= 1) Fixture.knocking_061.
Proof.
  unfold Fixture.knocking_061.
  repeat (constructor; [split; vm_compute; discriminate|]). constructor.
Qed.

Lemma machine_scores_in_unit_interval_witness :
  exists c,
    snd (fst (Machine.Inference.label_scores binary32
                (Fixture.float32 Fixture.knocking_061))) = Num c /\
    0 <= c <= 1.
Proof.
  exact (proj1 (proj2 (machine_scores_in_unit_interval binary32
                         (Fixture.float32 Fixture.knocking_061)
                         (or_introl eq_refl) eq_refl
                         (float32_representable _ knocking_061_unit)))).
Defined.

Lemma machine_health_is_bimodal_witness :
  exists w' r,
    Machine.Backend.diagnose Fixture.good
      (Machine.Inference.label_scores binary32 (Fixture.float32 Fixture.knocking_061))
      "quick" Fixture.w0 = (w', inr r) /\
    ~ (40 < Machine.Backend.overallHealth r < 90)%Z.
Proof.
  destruct (machine_health_is_bimodal Fixture.good binary32
              (Fixture.float32 Fixture.knocking_061) "quick" Fixture.w0
              (or_introl eq_refl) eq_refl
              (float32_representable _ knocking_061_unit))
    as (w' & r & Hd & _ & _ & Hgap).
  exists w', r. split; [exact Hd|exact Hgap].
Defined.

End FloatInvariantRuns.
